(** * AI_Robotics: visibility, coverage and viewpoint search

    A shallow embedding of the numeric core of the repository: the
    icosahedron generator, the face normal, the back-face and cone
    visibility passes, the rig objective, the coverage score, the Euler
    angle extraction and the randomized viewpoint search.

    The Python sources compute in numpy [float64].  The embedding is written
    once, over an abstract scalar type (class [Scalar]) and an abstract
    mathematical library (class [Libm]: cos, sin, arccos, arctan2), and is
    used at two instances:
    - the real numbers [R], the mathematical reading of the formulas, where
      the trigonometric identities are proved;
    - IEEE-754 binary64 ([PrimFloat]), where every numpy operation is one
      correctly rounded operation and sums of three terms are accumulated
      from left to right; it is used where rounding or the IEEE special
      values decide what the code does.

    Python exceptions are explicit: an index out of range or an integer
    division by zero makes a function return [None].  numpy floating-point
    operations never raise (a division by zero yields inf or nan), so they
    are total functions of the scalar type. *)

From Stdlib Require Import ZArith Reals Lra Lia PrimFloat Sorted.
From stdpp Require Import base option list gmap.

(** ** Scalars and the mathematical library *)

Class Scalar (T : Type) := {
  of_Z : Z -> T;
  fadd : T -> T -> T;
  fsub : T -> T -> T;
  fmul : T -> T -> T;
  fdiv : T -> T -> T;
  fneg : T -> T;
  fsqrt : T -> T;
  fltb : T -> T -> bool;
  fpi : T;
}.

Class Libm (T : Type) := {
  np_cos : T -> T;
  np_sin : T -> T;
  np_arccos : T -> T;
  np_arctan2 : T -> T -> T;
}.

Declare Scope num_scope.
Delimit Scope num_scope with num.
Notation "x + y" := (fadd x y) : num_scope.
Notation "x - y" := (fsub x y) : num_scope.
Notation "x * y" := (fmul x y) : num_scope.
Notation "x / y" := (fdiv x y) : num_scope.
Notation "- x" := (fneg x) : num_scope.
Notation "x <? y" := (fltb x y) : num_scope.
Notation "# z" := (of_Z z%Z) (at level 9, format "# z") : num_scope.

Record Vec3 (T : Type) := mkVec3 { vx : T; vy : T; vz : T }.
Arguments mkVec3 {T} _ _ _.
Arguments vx {T} _.
Arguments vy {T} _.
Arguments vz {T} _.

(** A 3x3 matrix is the triple of its rows; [R[i,j]] is component [j] of
    row [i]. *)
Definition Mat3 (T : Type) : Type := Vec3 (Vec3 T).

(** A triangular face: three indices into the vertex table. *)
Definition Face : Type := (nat * nat * nat)%type.

Section Numpy.
Context {T : Type} `{Scalar T}.
Local Open Scope num_scope.

(** [np.radians] and [np.degrees]. *)
Definition np_radians (x : T) : T := x * (fpi / #180).
Definition np_degrees (x : T) : T := x * (#180 / fpi).

(** [np.clip(x, lo, hi)] is [minimum(maximum(x, lo), hi)]. *)
Definition np_clip (x lo hi : T) : T :=
  let m := if x <? lo then lo else x in
  if hi <? m then hi else m.

Definition vadd (a b : Vec3 T) : Vec3 T :=
  mkVec3 (vx a + vx b) (vy a + vy b) (vz a + vz b).
Definition vsub (a b : Vec3 T) : Vec3 T :=
  mkVec3 (vx a - vx b) (vy a - vy b) (vz a - vz b).
Definition vscale (a : Vec3 T) (s : T) : Vec3 T :=
  mkVec3 (vx a * s) (vy a * s) (vz a * s).
Definition vdiv (a : Vec3 T) (s : T) : Vec3 T :=
  mkVec3 (vx a / s) (vy a / s) (vz a / s).
Definition vneg (a : Vec3 T) : Vec3 T :=
  mkVec3 (- vx a) (- vy a) (- vz a).

(** [np.dot] on two vectors. *)
Definition np_dot (a b : Vec3 T) : T :=
  vx a * vx b + vy a * vy b + vz a * vz b.

(** [np.cross]. *)
Definition np_cross (a b : Vec3 T) : Vec3 T :=
  mkVec3 (vy a * vz b - vz a * vy b)
         (vz a * vx b - vx a * vz b)
         (vx a * vy b - vy a * vx b).

(** [np.linalg.norm] of a vector. *)
Definition np_norm (a : Vec3 T) : T := fsqrt (np_dot a a).

(** [np.mean(face_vertices, axis=0)] of three rows. *)
Definition np_mean3 (t : Vec3 T * Vec3 T * Vec3 T) : Vec3 T :=
  let '(v1, v2, v3) := t in vdiv (vadd (vadd v1 v2) v3) #3.

(** Matrix product [A @ B] (also [np.dot(A, B)]) and matrix-vector
    product. *)
Definition mcol (m : Mat3 T) (sel : Vec3 T -> T) : Vec3 T :=
  mkVec3 (sel (vx m)) (sel (vy m)) (sel (vz m)).
Definition mrow_mul (r : Vec3 T) (b : Mat3 T) : Vec3 T :=
  mkVec3 (np_dot r (mcol b vx)) (np_dot r (mcol b vy)) (np_dot r (mcol b vz)).
Definition matmul (a b : Mat3 T) : Mat3 T :=
  mkVec3 (mrow_mul (vx a) b) (mrow_mul (vy a) b) (mrow_mul (vz a) b).
Definition matvec (a : Mat3 T) (v : Vec3 T) : Vec3 T :=
  mkVec3 (np_dot (vx a) v) (np_dot (vy a) v) (np_dot (vz a) v).
End Numpy.

(** ** Geometry shared by every script

    [calculate_face_normal] and [get_icosahedron] are repeated, with the
    same text, in every script that uses them (Viewplanning.py,
    Six_camera.py, orientation.py, Testing_with_Euler_angles.py,
    Objective_function.py and four more). *)

Section Geometry.
Context {T : Type} `{Scalar T}.
Local Open Scope num_scope.

(** [vertices[face]]: the three rows selected by a face; an index out of
    range is an IndexError. *)
Definition face_rows (vertices : list (Vec3 T)) (face : Face)
  : option (Vec3 T * Vec3 T * Vec3 T) :=
  let '(i, j, k) := face in
  v1 ← vertices !! i; v2 ← vertices !! j; v3 ← vertices !! k;
  Some (v1, v2, v3).

Definition calculate_face_normal (face_vertices : Vec3 T * Vec3 T * Vec3 T)
  : Vec3 T :=
  let '(v1, v2, v3) := face_vertices in
  let edge1 := vsub v2 v1 in
  let edge2 := vsub v3 v1 in
  let normal := np_cross edge1 edge2 in
  vdiv normal (np_norm normal).

Definition phi : T := (#1 + fsqrt #5) / #2.

Definition icosahedron_raw_vertices : list (Vec3 T) :=
  let a := #1 in
  let b := phi in
  [ mkVec3 (- a) b #0; mkVec3 a b #0; mkVec3 (- a) (- b) #0; mkVec3 a (- b) #0;
    mkVec3 #0 (- a) b; mkVec3 #0 a b; mkVec3 #0 (- a) (- b); mkVec3 #0 a (- b);
    mkVec3 b #0 (- a); mkVec3 b #0 a; mkVec3 (- b) #0 (- a); mkVec3 (- b) #0 a ].

Definition icosahedron_faces : list Face :=
  [ (0, 11, 5); (0, 5, 1); (0, 1, 7); (0, 7, 10); (0, 10, 11);
    (1, 5, 9); (5, 11, 4); (11, 10, 2); (10, 7, 6); (7, 1, 8);
    (3, 9, 4); (3, 4, 2); (3, 2, 6); (3, 6, 8); (3, 8, 9);
    (4, 9, 5); (2, 4, 11); (6, 2, 10); (8, 6, 7); (9, 8, 1) ]%nat.

(** [vertices *= 5 / np.linalg.norm(vertices[0])]: the factor is computed
    once from the first row and multiplies every component. *)
Definition get_icosahedron : option (list (Vec3 T) * list Face) :=
  let vertices := icosahedron_raw_vertices in
  v0 ← vertices !! 0%nat;
  let s := #5 / np_norm v0 in
  Some (map (fun v => vscale v s) vertices, icosahedron_faces).
End Geometry.

(** ** The two scalar instances *)

Definition Rltb (x y : R) : bool := if Rlt_dec x y then true else false.

(** [np.arctan2(y, x)] on the reals. *)
Definition Ratan2 (y x : R) : R :=
  if Rlt_dec 0 x then atan (y / x)
  else if Rlt_dec x 0 then
    if Rle_dec 0 y then atan (y / x) + PI else atan (y / x) - PI
  else if Rlt_dec 0 y then PI / 2
  else if Rlt_dec y 0 then - (PI / 2)
  else 0.

#[global] Instance R_Scalar : Scalar R := {|
  of_Z := IZR;
  fadd := Rplus;
  fsub := Rminus;
  fmul := Rmult;
  fdiv := Rdiv;
  fneg := Ropp;
  fsqrt := R_sqrt.sqrt;
  fltb := Rltb;
  fpi := PI;
|}.

#[global] Instance R_Libm : Libm R := {|
  np_cos := Rtrigo_def.cos;
  np_sin := Rtrigo_def.sin;
  np_arccos := acos;
  np_arctan2 := Ratan2;
|}.

(** An integer as a binary64 number, by its binary expansion (exact below
    2^53). *)
Fixpoint float_of_pos (p : positive) : float :=
  match p with
  | xH => 1%float
  | xO q => PrimFloat.mul 2%float (float_of_pos q)
  | xI q => PrimFloat.add (PrimFloat.mul 2%float (float_of_pos q)) 1%float
  end.

Definition float_of_Z (z : Z) : float :=
  match z with
  | Z0 => 0%float
  | Zpos p => float_of_pos p
  | Zneg p => PrimFloat.opp (float_of_pos p)
  end.

#[global] Instance float_Scalar : Scalar float := {|
  of_Z := float_of_Z;
  fadd := PrimFloat.add;
  fsub := PrimFloat.sub;
  fmul := PrimFloat.mul;
  fdiv := PrimFloat.div;
  fneg := PrimFloat.opp;
  fsqrt := PrimFloat.sqrt;
  fltb := PrimFloat.ltb;
  fpi := 0x1.921fb54442d18p+1%float;
|}.

(** ** The closed-mesh check (edge adjacency count) *)

Definition face_edges (f : Face) : list (nat * nat) :=
  let '(i, j, k) := f in [(i, j); (j, k); (k, i)].

Definition same_edge (e1 e2 : nat * nat) : bool :=
  (Nat.eqb (fst e1) (fst e2) && Nat.eqb (snd e1) (snd e2))
  || (Nat.eqb (fst e1) (snd e2) && Nat.eqb (snd e1) (fst e2)).

Definition faces_sharing (faces : list Face) (e : nat * nat) : nat :=
  length (filter (fun f => existsb (same_edge e) (face_edges f) = true) faces).

Definition face_indices_below (n : nat) (f : Face) : Prop :=
  let '(i, j, k) := f in (i < n)%nat /\ (j < n)%nat /\ (k < n)%nat.

Definition closed_mesh (faces : list Face) : Prop :=
  Forall (fun f => Forall (fun e => faces_sharing faces e = 2%nat) (face_edges f))
         faces.

(** ** Python control flow *)

(** A [for] loop whose body may raise: the state is threaded from left to
    right and the first exception ends the loop. *)
Fixpoint for_loop {A S : Type} (body : S -> A -> option S) (l : list A) (s : S)
  : option S :=
  match l with
  | [] => Some s
  | a :: l' => s' ← body s a; for_loop body l' s'
  end.

(** [enumerate(l)]. *)
Definition enumerate {A : Type} (l : list A) : list (nat * A) :=
  combine (seq 0 (length l)) l.

(** [sorted(l, key=key, reverse=True)]: descending and stable (elements with
    equal keys keep their order). *)
Fixpoint insert_desc {A : Type} (key : A -> nat) (x : A) (l : list A) : list A :=
  match l with
  | [] => [x]
  | y :: l' => if (key x <? key y)%nat then y :: insert_desc key x l' else x :: l
  end.

Definition sorted_reverse {A : Type} (key : A -> nat) (l : list A) : list A :=
  foldr (insert_desc key) [] l.

(** Python's [a / b] on two integers: true division, ZeroDivisionError when
    [b] is zero. *)
Definition py_truediv {T : Type} `{Scalar T} (a b : Z) : option T :=
  if (b =? 0)%Z then None else Some (of_Z a / of_Z b)%num.

(** The six sensors of the fixed rig ([get_sensor_positions], the same in
    every script that has it). *)
Definition get_sensor_positions {T : Type} `{Scalar T} : list (Vec3 T) :=
  [ mkVec3 #8 #0 #0; mkVec3 #(-8) #0 #0;
    mkVec3 #0 #8 #0; mkVec3 #0 #(-8) #0;
    mkVec3 #0 #0 #8; mkVec3 #0 #0 #(-8) ]%num.

(** ** Viewplanning.py *)

Module Viewplanning.
Section Code.
Context {T : Type} `{Scalar T}.
Local Open Scope num_scope.

Definition count_face (sensor_position : Vec3 T) (vertices : list (Vec3 T))
    (visible_faces : nat) (face : Face) : option nat :=
  face_vertices ← face_rows vertices face;
  let face_normal := calculate_face_normal face_vertices in
  let face_center := np_mean3 face_vertices in
  let view_vector := vsub sensor_position face_center in
  let view_vector := vdiv view_vector (np_norm view_vector) in
  let dot_product := np_dot face_normal view_vector in
  Some (if #0 <? dot_product then S visible_faces else visible_faces).

Definition evaluate_visible_faces (sensor_position : Vec3 T)
    (vertices : list (Vec3 T)) (faces : list Face) : option nat :=
  for_loop (count_face sensor_position vertices) faces 0%nat.

Definition candidate : Type := Vec3 T * nat.

Definition initial_position : Vec3 T := mkVec3 #10 #0 #0.
Definition step_size : T := #1.
Definition max_iterations : nat := 50.
Definition num_candidates_to_keep : nat := 10.

(** The generator is the sequence [draws] of the values that the calls
    [np.random.uniform(-1, 1, 3)] return, with the number of calls made so
    far as its state. *)
Definition perturb (draws : nat -> Vec3 T) (vertices : list (Vec3 T))
    (faces : list Face) (position : Vec3 T)
    (st : list candidate * nat) (_ : nat) : option (list candidate * nat) :=
  let '(new_positions, calls) := st in
  let random_adjustment := draws calls in
  let new_position := vadd position (vscale random_adjustment step_size) in
  let new_position := vscale (vdiv new_position (np_norm new_position)) #10 in
  visible_faces ← evaluate_visible_faces new_position vertices faces;
  Some (new_positions ++ [(new_position, visible_faces)], S calls).

Definition expand (draws : nat -> Vec3 T) (vertices : list (Vec3 T))
    (faces : list Face) (st : list candidate * nat) (c : candidate)
  : option (list candidate * nat) :=
  for_loop (perturb draws vertices faces (fst c)) (seq 0 5) st.

Definition iteration (draws : nat -> Vec3 T) (vertices : list (Vec3 T))
    (faces : list Face) (st : list candidate * nat) (_ : nat)
  : option (list candidate * nat) :=
  let '(candidate_positions, calls) := st in
  r ← for_loop (expand draws vertices faces) candidate_positions ([], calls);
  let '(new_positions, calls') := r in
  let candidate_positions := candidate_positions ++ new_positions in
  let candidate_positions := sorted_reverse snd candidate_positions in
  Some (firstn num_candidates_to_keep candidate_positions, calls').

(** The candidate pool after [n] iterations of the search. *)
Definition pool_after (draws : nat -> Vec3 T) (n : nat)
  : option (list candidate * nat) :=
  mesh ← get_icosahedron;
  let '(vertices, faces) := mesh in
  initial_visible_faces ← evaluate_visible_faces initial_position vertices faces;
  for_loop (iteration draws vertices faces) (seq 0 n)
           ([(initial_position, initial_visible_faces)], 0%nat).

Definition select_best_viewpoint (draws : nat -> Vec3 T) : option (Vec3 T) :=
  r ← pool_after draws max_iterations;
  c ← head (fst r);
  Some (fst c).

(** The number of faces visible from a position of the search, as
    [select_best_viewpoint] evaluates it. *)
Definition visible_count (position : Vec3 T) : option nat :=
  mesh ← get_icosahedron;
  evaluate_visible_faces position (fst mesh) (snd mesh).

(** The best visible-face count held in a pool. *)
Definition best_count (pool : list candidate) : nat :=
  foldr (fun c m => Nat.max (snd c) m) 0%nat pool.
End Code.
End Viewplanning.

(** ** Six_camera.py

    The annotation pass of [plot_sensor_and_phases]: for every face that
    passes the back-face test, the distance and the angle written next to
    the face.  The angle is [np.degrees(np.arccos(dot_product))]: the dot
    product goes to [np.arccos] as it is. *)

Module Six_camera.
Section Code.
Context {T : Type} `{Scalar T} `{Libm T}.
Local Open Scope num_scope.

Definition annotate_face (sensor_position : Vec3 T) (vertices : list (Vec3 T))
    (labels : list (T * T)) (face : Face) : option (list (T * T)) :=
  face_vertices ← face_rows vertices face;
  let face_center := np_mean3 face_vertices in
  let face_normal := calculate_face_normal face_vertices in
  let view_vector := vsub sensor_position face_center in
  let view_vector := vdiv view_vector (np_norm view_vector) in
  let dot_product := np_dot face_normal view_vector in
  if #0 <? dot_product then
    let distance := np_norm (vsub sensor_position face_center) in
    let angle := np_degrees (np_arccos dot_product) in
    Some (labels ++ [(distance, angle)])
  else Some labels.

Definition annotate_sensor (vertices : list (Vec3 T)) (faces : list Face)
    (labels : list (T * T)) (sensor_position : Vec3 T) : option (list (T * T)) :=
  for_loop (annotate_face sensor_position vertices) faces labels.

Definition plot_sensor_and_phases : option (list (T * T)) :=
  let sensor_positions := get_sensor_positions in
  mesh ← get_icosahedron;
  let '(vertices, faces) := mesh in
  for_loop (annotate_sensor vertices faces) sensor_positions [].
End Code.
End Six_camera.

(** ** Single_Sensor_testing/Objective_function.py *)

Module Objective_function.
Section Code.
Context {T : Type} `{Scalar T} `{Libm T}.
Local Open Scope num_scope.

Definition calculate_angle (view_vector face_normal : Vec3 T) : T :=
  let cos_angle := np_dot view_vector face_normal in
  np_degrees (np_arccos (np_clip cos_angle #(-1) #1)).

(** [np.sum] of a list of numbers (over [R] the order of the additions
    does not matter). *)
Definition np_sum (l : list T) : T := foldl fadd #0 l.

(** The state of the face loop: [sensor_visible_faces], [distances],
    [angles]. *)
Definition face_state : Type := list nat * list T * list T.

Definition visit_face (sensor_position : Vec3 T) (vertices : list (Vec3 T))
    (st : face_state) (entry : nat * Face) : option face_state :=
  let '(sensor_visible_faces, distances, angles) := st in
  let '(face_idx, face) := entry in
  face_vertices ← face_rows vertices face;
  let face_center := np_mean3 face_vertices in
  let face_normal := calculate_face_normal face_vertices in
  let view_vector := vsub sensor_position face_center in
  let view_vector := vdiv view_vector (np_norm view_vector) in
  let dot_product := np_dot face_normal view_vector in
  if #0 <? dot_product then
    let sensor_visible_faces := sensor_visible_faces ++ [face_idx] in
    let distance := np_norm (vsub sensor_position face_center) in
    let angle := calculate_angle view_vector face_normal in
    Some (sensor_visible_faces, distances ++ [distance], angles ++ [angle])
  else Some st.

(** The state of the sensor loop: [distances], [angles], [visible_faces]. *)
Definition rig_state : Type := list T * list T * list (list nat).

Definition visit_sensor (vertices : list (Vec3 T)) (faces : list Face)
    (st : rig_state) (sensor_position : Vec3 T) : option rig_state :=
  let '(distances, angles, visible_faces) := st in
  r ← for_loop (visit_face sensor_position vertices) (enumerate faces)
               ([], distances, angles);
  let '(sensor_visible_faces, distances, angles) := r in
  Some (distances, angles, visible_faces ++ [sensor_visible_faces]).

(** The two nested [range] loops of the overlap penalty:
    [for i in range(len(visible_faces))],
    [for j in range(i + 1, len(visible_faces))]. *)
Definition overlap_inner (visible_faces : list (list nat)) (i : nat)
    (overlap_penalty : nat) (j : nat) : option nat :=
  fi ← visible_faces !! i;
  fj ← visible_faces !! j;
  Some (overlap_penalty + size ((list_to_set fi : gset nat) ∩ list_to_set fj))%nat.

Definition overlap_outer (visible_faces : list (list nat))
    (overlap_penalty : nat) (i : nat) : option nat :=
  for_loop (overlap_inner visible_faces i)
           (seq (i + 1) (length visible_faces - (i + 1))) overlap_penalty.

Definition evaluate_coverage_view_plan (sensors_positions : list (Vec3 T))
    (visible_faces : list (list nat)) (distances angles : list T)
    (total_faces : nat) : option T :=
  let unique_visible_faces : gset nat :=
    foldl (fun s faces => s ∪ list_to_set faces) ∅ visible_faces in
  coverage_score ←
    py_truediv (Z.of_nat (size unique_visible_faces)) (Z.of_nat total_faces);
  let total_distance := np_sum distances in
  let angle_penalty :=
    np_sum (map (fun angle => #1 / (#1 + np_cos (np_radians angle))) angles) in
  overlap_penalty ←
    for_loop (overlap_outer visible_faces) (seq 0 (length visible_faces)) 0%nat;
  overlap_term ← py_truediv (Z.of_nat overlap_penalty) 10;
  let objective_value :=
    coverage_score - total_distance / #100 - angle_penalty - overlap_term in
  Some objective_value.

(** The tables built by [plot_sensor_and_phases] for a rig and a mesh. *)
Definition rig_tables (sensor_positions : list (Vec3 T))
    (vertices : list (Vec3 T)) (faces : list Face) : option rig_state :=
  for_loop (visit_sensor vertices faces) sensor_positions ([], [], []).

(** The score that [plot_sensor_and_phases] computes for a rig and a mesh:
    the tables, then [evaluate_coverage_view_plan] with
    [total_faces = len(faces)]. *)
Definition score_of_rig (sensor_positions : list (Vec3 T))
    (vertices : list (Vec3 T)) (faces : list Face) : option T :=
  r ← rig_tables sensor_positions vertices faces;
  let '(distances, angles, visible_faces) := r in
  let total_faces := length faces in
  evaluate_coverage_view_plan sensor_positions visible_faces distances angles
                              total_faces.

(** [plot_sensor_and_phases], up to the score it prints. *)
Definition plot_sensor_and_phases : option T :=
  let sensor_positions := get_sensor_positions in
  mesh ← get_icosahedron;
  let '(vertices, faces) := mesh in
  score_of_rig sensor_positions vertices faces.
End Code.
End Objective_function.

(** ** Axis rotations

    [rotation_matrix_x] and [rotation_matrix_z] have the same text in
    Testing_with_Euler_angles.py and orientation.py; [rotation_matrix_y] is
    in orientation.py.  The angle is in degrees. *)

Section Rotations.
Context {T : Type} `{Scalar T} `{Libm T}.
Local Open Scope num_scope.

Definition rotation_matrix_x (theta : T) : Mat3 T :=
  let c := np_cos (np_radians theta) in
  let s := np_sin (np_radians theta) in
  mkVec3 (mkVec3 #1 #0 #0) (mkVec3 #0 c (- s)) (mkVec3 #0 s c).

Definition rotation_matrix_y (theta : T) : Mat3 T :=
  let c := np_cos (np_radians theta) in
  let s := np_sin (np_radians theta) in
  mkVec3 (mkVec3 c #0 s) (mkVec3 #0 #1 #0) (mkVec3 (- s) #0 c).

Definition rotation_matrix_z (theta : T) : Mat3 T :=
  let c := np_cos (np_radians theta) in
  let s := np_sin (np_radians theta) in
  mkVec3 (mkVec3 c (- s) #0) (mkVec3 s c #0) (mkVec3 #0 #0 #1).

(** Modelled from the spec: [eulerToMatrix(a,b,c)] is named by the
    round-trip property of the specification but is defined nowhere in
    the repository.  It is taken as the composition of the three axis
    rotations of the code in the order that the extraction formulas of
    [rotation_matrix_to_euler_angles] invert: [Rz(c) @ Ry(b) @ Rx(a)]. *)
Definition euler_to_matrix (a b c : T) : Mat3 T :=
  matmul (matmul (rotation_matrix_z c) (rotation_matrix_y b))
         (rotation_matrix_x a).
End Rotations.

(** ** Testing_with_Euler_angles.py *)

Module Testing_with_Euler_angles.
Section Code.
Context {T : Type} `{Scalar T} `{Libm T}.
Local Open Scope num_scope.

Definition get_sensor_rotation (sensor_idx : nat) : Mat3 T :=
  let '(rotation_x, rotation_z) :=
    match sensor_idx with
    | 0%nat => (rotation_matrix_x #42, rotation_matrix_z #30)
    | 1%nat => (rotation_matrix_x #42, rotation_matrix_z #60)
    | 2%nat => (rotation_matrix_x #42, rotation_matrix_z #90)
    | 3%nat => (rotation_matrix_x #60, rotation_matrix_z #30)
    | 4%nat => (rotation_matrix_x #60, rotation_matrix_z #60)
    | _ => (rotation_matrix_x #60, rotation_matrix_z #90)
    end in
  matmul rotation_z rotation_x.

(** The result is the array [alpha, beta, theta], in degrees. *)
Definition rotation_matrix_to_euler_angles (R : Mat3 T) : Vec3 T :=
  let sy := fsqrt (vx (vx R) * vx (vx R) + vx (vy R) * vx (vy R)) in
  let singular := sy <? #1 / #1000000 in
  let '(alpha, beta, theta) :=
    if negb singular then
      (np_arctan2 (vy (vz R)) (vz (vz R)),
       np_arctan2 (- vx (vz R)) sy,
       np_arctan2 (vx (vy R)) (vx (vx R)))
    else
      (np_arctan2 (- vz (vy R)) (vy (vy R)),
       np_arctan2 (- vx (vz R)) sy,
       #0) in
  mkVec3 (np_degrees alpha) (np_degrees beta) (np_degrees theta).
End Code.
End Testing_with_Euler_angles.

(** ** orientation.py *)

Module orientation.
Section Code.
Context {T : Type} `{Scalar T} `{Libm T}.
Local Open Scope num_scope.

Definition calculate_angle (vec1 vec2 : Vec3 T) : T :=
  let cos_angle := np_dot vec1 vec2 in
  np_degrees (np_arccos (np_clip cos_angle #(-1) #1)).

(** [angle_y] and [angle_x] are the two angles that the code derives from
    the wall clock, [(time.time() * 30) % 360] and
    [(time.time() * 20) % 360]; they are inputs here. *)
Definition get_calibration_object_rotation (angle_y angle_x : T) : Mat3 T :=
  let Ry := rotation_matrix_y angle_y in
  let Rx := rotation_matrix_x angle_x in
  matmul Rx Ry.

(** One entry of [best_data]: face index, distance, angle, face centre. *)
Definition face_datum : Type := nat * T * T * Vec3 T.

Definition cone_face (sensor_position rotated_view : Vec3 T)
    (vertices : list (Vec3 T)) (st : nat * list face_datum)
    (entry : nat * Face) : option (nat * list face_datum) :=
  let '(max_visible, best_data) := st in
  let '(idx, face) := entry in
  let fov := #60 in
  face_vertices ← face_rows vertices face;
  let face_center := np_mean3 face_vertices in
  let view_vector := vsub face_center sensor_position in
  let view_vector := vdiv view_vector (np_norm view_vector) in
  let angle := calculate_angle view_vector rotated_view in
  if angle <? fov / #2 then
    let distance := np_norm (vsub face_center sensor_position) in
    Some (S max_visible, best_data ++ [(idx, distance, angle, face_center)])
  else Some st.

Definition get_sensor_rotation (angle_y angle_x : T) (sensor_idx : nat)
  : option (Mat3 T * nat * list face_datum) :=
  sensor_position ← get_sensor_positions !! sensor_idx;
  let base_view := vdiv (vneg sensor_position) (np_norm sensor_position) in
  let object_rot := get_calibration_object_rotation angle_y angle_x in
  let rotated_view := matvec object_rot base_view in
  mesh ← get_icosahedron;
  let '(vertices, faces) := mesh in
  r ← for_loop (cone_face sensor_position rotated_view vertices)
               (enumerate faces) (0%nat, []);
  Some (object_rot, fst r, snd r).

Definition rotation_matrix_to_euler_angles (R : Mat3 T) : Vec3 T :=
  let alpha := np_arctan2 (vy (vz R)) (vz (vz R)) in
  let beta :=
    np_arctan2 (- vx (vz R))
               (fsqrt (vy (vz R) * vy (vz R) + vz (vz R) * vz (vz R))) in
  let theta := np_arctan2 (vx (vy R)) (vx (vx R)) in
  mkVec3 (np_degrees alpha) (np_degrees beta) (np_degrees theta).
End Code.
End orientation.

(** ** optimization.py *)

Module optimization.
Section Code.
Context {T : Type} `{Scalar T}.

(** The table set in [PhaseCanvas.__init__]. *)
Definition expected_visible_faces : gmap nat (list nat) :=
  list_to_map [ (0, [0; 1; 5]); (1, [3; 4; 10]); (2, [6; 7; 8]);
                (3, [9; 10; 11]); (4, [12; 13; 14]); (5, [15; 16; 17]) ]%nat.

(** The score computed in [update_scene] for one sensor, from the
    [face_data] of that sensor and the table of expected faces. *)
Definition coverage_score (expected : gmap nat (list nat)) (sensor_idx : nat)
    (face_data : list (nat * T * T * Vec3 T)) : option T :=
  let actual_faces : gset nat :=
    list_to_set (map (fun f => fst (fst (fst f))) face_data) in
  let expected_faces : gset nat :=
    list_to_set (default [] (expected !! sensor_idx)) in
  py_truediv (Z.of_nat (size (actual_faces ∩ expected_faces)))
             (Z.max (Z.of_nat (size expected_faces)) 1).
End Code.
End optimization.

(** ** Definitions used in the statements *)

(** The norm of the first vertex of the generated mesh. *)
Definition first_vertex_norm {T : Type} `{Scalar T} : option T :=
  mesh ← get_icosahedron; v0 ← fst mesh !! 0%nat; Some (np_norm v0).

(** The key of the first element of a list and the largest key of a list
    (0 for the empty list). *)
Definition head_key {A : Type} (key : A -> nat) (l : list A) : nat :=
  match l with [] => 0%nat | c :: _ => key c end.

Definition max_key {A : Type} (key : A -> nat) (l : list A) : nat :=
  foldr (fun c m => Nat.max (key c) m) 0%nat l.

(** A candidate is consistent when the count it carries is the count of
    its position. *)
Definition consistent {T : Type} `{Scalar T} (vertices : list (Vec3 T))
    (faces : list Face) (c : Viewplanning.candidate (T := T)) : Prop :=
  Viewplanning.evaluate_visible_faces (fst c) vertices faces = Some (snd c).

(** The state of the search after [n] iterations on a mesh, from the count
    of the initial position. *)
Definition search_state {T : Type} `{Scalar T} (draws : nat -> Vec3 T)
    (vertices : list (Vec3 T)) (faces : list Face) (initial_count : nat) (n : nat)
  : option (list Viewplanning.candidate * nat) :=
  for_loop (Viewplanning.iteration draws vertices faces) (seq 0 n)
           ([(Viewplanning.initial_position, initial_count)], 0%nat).

Section BackFaceTest.
Context {T : Type} `{Scalar T} `{Libm T}.
Local Open Scope num_scope.

Definition normalize (v : Vec3 T) : Vec3 T := vdiv v (np_norm v).

(** The back-face test of a sensor on the three vertices of a face. *)
Definition back_face_visible (sensor : Vec3 T) (fv : Vec3 T * Vec3 T * Vec3 T)
  : bool :=
  #0 <? np_dot (calculate_face_normal fv) (normalize (vsub sensor (np_mean3 fv))).

(** The dot product that the test compares with 0. *)
Definition back_face_dot (sensor : Vec3 T) (fv : Vec3 T * Vec3 T * Vec3 T) : T :=
  np_dot (calculate_face_normal fv) (normalize (vsub sensor (np_mean3 fv))).

Definition face_distance (sensor : Vec3 T) (fv : Vec3 T * Vec3 T * Vec3 T) : T :=
  np_norm (vsub sensor (np_mean3 fv)).

Definition face_angle (sensor : Vec3 T) (fv : Vec3 T * Vec3 T * Vec3 T) : T :=
  Objective_function.calculate_angle (normalize (vsub sensor (np_mean3 fv)))
                                     (calculate_face_normal fv).

(** The faces that pass the test, with their indices counted from [k], in
    face order. *)
Definition visible_rows (sensor : Vec3 T) (k : nat)
    (rows : list (Vec3 T * Vec3 T * Vec3 T))
  : list (nat * (Vec3 T * Vec3 T * Vec3 T)) :=
  List.filter (fun e => back_face_visible sensor (snd e))
              (combine (seq k (length rows)) rows).

(** The visible (sensor, face) pairs of a rig, sensor by sensor and in face
    order: the sensor, the face index and the three vertices of the face. *)
Fixpoint visible_pairs (sensors : list (Vec3 T))
    (rows : list (Vec3 T * Vec3 T * Vec3 T))
  : list (Vec3 T * (nat * (Vec3 T * Vec3 T * Vec3 T))) :=
  match sensors with
  | [] => []
  | s :: rest => map (pair s) (visible_rows s 0 rows) ++ visible_pairs rest rows
  end.

Definition pair_distance (p : Vec3 T * (nat * (Vec3 T * Vec3 T * Vec3 T))) : T :=
  face_distance (fst p) (snd (snd p)).

Definition pair_angle (p : Vec3 T * (nat * (Vec3 T * Vec3 T * Vec3 T))) : T :=
  face_angle (fst p) (snd (snd p)).
End BackFaceTest.

(** The result of a call that the specification allows to fail. *)
Inductive outcome (A : Type) : Type :=
| Returned (a : A)
| DegenerateFaceError.
Arguments Returned {A} _.
Arguments DegenerateFaceError {A}.

Section FaceNormal.
Context {T : Type} `{Scalar T}.
Local Open Scope num_scope.

(** Modelled from the spec: the guarded [faceNormal] that the
    specification asks for, which reports a [DegenerateFaceError] when the
    norm of the cross product is below an epsilon and otherwise returns
    [normalize((v1 - v0) x (v2 - v0))].  No such error exists in the
    repository. *)
Definition guarded_face_normal (eps : T) (face_vertices : Vec3 T * Vec3 T * Vec3 T)
  : outcome (Vec3 T) :=
  let '(v0, v1, v2) := face_vertices in
  let c := np_cross (vsub v1 v0) (vsub v2 v0) in
  if np_norm c <? eps then DegenerateFaceError
  else Returned (vdiv c (np_norm c)).

(** A call of [calculate_face_normal]: its body has no [raise] and numpy
    arithmetic does not raise, so the call always returns. *)
Definition call_calculate_face_normal (face_vertices : Vec3 T * Vec3 T * Vec3 T)
  : outcome (Vec3 T) :=
  Returned (calculate_face_normal face_vertices).

Definition origin : Vec3 T := mkVec3 #0 #0 #0.
End FaceNormal.

(** All the dot products of the back-face test, for the sensors of the
    fixed rig and the faces of the mesh, in binary64. *)
Definition fixed_rig_dot_products : option (list (list float)) :=
  mesh ← get_icosahedron;
  rows ← mapM (face_rows (fst mesh)) (snd mesh);
  Some (map (fun s => map (back_face_dot s) rows) get_sensor_positions).

(** The sensor position (5.0, 5.0, 5.0). *)
Definition sensor_555 : Vec3 float := mkVec3 5%float 5%float 5%float.

Definition transpose {T : Type} (m : Mat3 T) : Mat3 T :=
  mkVec3 (mcol m vx) (mcol m vy) (mcol m vz).

Definition identity3 : Mat3 R :=
  (mkVec3 (mkVec3 1 0 0) (mkVec3 0 1 0) (mkVec3 0 0 1))%R.

(** The rotation matrices are the orthogonal matrices of determinant 1; the
    extraction only needs that rows and columns are orthonormal. *)
Definition orthogonal (m : Mat3 R) : Prop :=
  matmul (transpose m) m = identity3 /\ matmul m (transpose m) = identity3.

(** The matrix of orientation.py at the angles [angle_x = 180],
    [angle_y = 90], that is [Rx(180) @ Ry(90)] over the reals. *)
Definition gimbal_locked : Mat3 R :=
  (mkVec3 (mkVec3 0 0 1) (mkVec3 0 (-1) 0) (mkVec3 1 0 0))%R.

(** The literal [1e-6] of the singular test. *)
Definition singular_threshold : R := (1 / 1000000)%R.

Section ObjectiveFormula.
Local Open Scope R_scope.

(** The formula of the specification, term by term. *)
Definition sum_R (l : list R) : R := foldr Rplus 0 l.

Definition coverage_fraction (visible_faces : list (list nat)) (total_faces : nat)
  : R :=
  INR (size (⋃ (map list_to_set visible_faces) : gset nat)) / INR total_faces.

Definition shared_faces (s1 s2 : list nat) : nat :=
  size ((list_to_set s1 : gset nat) ∩ list_to_set s2).

(** Every unordered pair of sensors once: each sensor with the sensors after
    it. *)
Fixpoint overlap_penalty (visible_faces : list (list nat)) : nat :=
  match visible_faces with
  | [] => 0%nat
  | s :: rest => (sum_list (map (shared_faces s) rest) + overlap_penalty rest)%nat
  end.

Definition objective_formula (visible_faces : list (list nat))
    (distances angles : list R) (total_faces : nat) : R :=
  coverage_fraction visible_faces total_faces
  - sum_R distances / 100
  - sum_R (map (fun angle => 1 / (1 + cos (angle * (PI / 180)))) angles)
  - INR (overlap_penalty visible_faces) / 10.
End ObjectiveFormula.

(** A fixed sequence of perturbations: the three vectors below in turn. *)
Definition cyclic_draws (n : nat) : Vec3 float :=
  match Nat.modulo n 3 with
  | 0%nat => mkVec3 0.5%float 0.25%float (-0.75)%float
  | 1%nat => mkVec3 (-0.875)%float 0.75%float 0.125%float
  | _ => mkVec3 0.25%float (-0.625)%float 0.875%float
  end.

(** ** Comparisons of numpy used by the drawing code *)

Class ScalarOrd (T : Type) := {
  fabs : T -> T;
  fleb : T -> T -> bool;
}.

Definition Rleb (x y : R) : bool := if Rle_dec x y then true else false.

#[global] Instance R_ScalarOrd : ScalarOrd R := {|
  fabs := Rabs;
  fleb := Rleb;
|}.

#[global] Instance float_ScalarOrd : ScalarOrd float := {|
  fabs := PrimFloat.abs;
  fleb := PrimFloat.leb;
|}.

Section NumpyMatrices.
Context {T : Type} `{Scalar T} `{ScalarOrd T}.
Local Open Scope num_scope.

(** [np.eye(3)]. *)
Definition np_eye : Mat3 T :=
  mkVec3 (mkVec3 #1 #0 #0) (mkVec3 #0 #1 #0) (mkVec3 #0 #0 #1).

(** [np.outer(u, v)]. *)
Definition np_outer (u v : Vec3 T) : Mat3 T :=
  mkVec3 (vscale v (vx u)) (vscale v (vy u)) (vscale v (vz u)).

(** Sum of two matrices, and a matrix times or over a scalar, entry by
    entry. *)
Definition madd (a b : Mat3 T) : Mat3 T :=
  mkVec3 (vadd (vx a) (vx b)) (vadd (vy a) (vy b)) (vadd (vz a) (vz b)).
Definition mscale (a : Mat3 T) (s : T) : Mat3 T :=
  mkVec3 (vscale (vx a) s) (vscale (vy a) s) (vscale (vz a) s).
Definition mdiv (a : Mat3 T) (s : T) : Mat3 T :=
  mkVec3 (vdiv (vx a) s) (vdiv (vy a) s) (vdiv (vz a) s).

(** [np.isclose(x, 0)] with the default tolerances [rtol = 1e-5] and
    [atol = 1e-8]: [abs(x - 0) <= atol + rtol * abs(0)].  An infinite or
    NaN [x] fails the comparison, as it does in numpy. *)
Definition np_isclose_0 (x : T) : bool :=
  fleb (fabs (x - #0)) (#1 / #100000000 + (#1 / #100000) * fabs #0).

(** [np.allclose(v, 0)] on a vector. *)
Definition np_allclose_0 (v : Vec3 T) : bool :=
  np_isclose_0 (vx v) && np_isclose_0 (vy v) && np_isclose_0 (vz v).
End NumpyMatrices.

(** ** Viewplanning.py: the frustum *)

Module Viewplanning_frustum.
Section Code.
Context {T : Type} `{Scalar T} `{ScalarOrd T}.
Local Open Scope num_scope.

(** [rotation_matrix_from_vectors]; the square [np.linalg.norm(v) ** 2] is
    written as the product of the norm with itself. *)
Definition rotation_matrix_from_vectors (vec1 vec2 : Vec3 T) : Mat3 T :=
  let a := vdiv vec1 (np_norm vec1) in
  let b := vdiv vec2 (np_norm vec2) in
  let v := np_cross a b in
  let c := np_dot a b in
  if np_allclose_0 v then np_eye
  else
    let kmat := mkVec3 (mkVec3 #0 (- vz v) (vy v))
                       (mkVec3 (vz v) #0 (- vx v))
                       (mkVec3 (- vy v) (vx v) #0) in
    madd (madd np_eye kmat)
         (mdiv (mscale (np_outer v v) (#1 - c)) (np_norm v * np_norm v)).
End Code.
End Viewplanning_frustum.

(** ** Chart_viscualisation.py *)

Module Chart_viscualisation.
Section Code.
Context {T : Type} `{Scalar T} `{Libm T}.
Local Open Scope num_scope.

(** [PhaseCanvas.get_rotation_matrix]; the three angles are in radians. *)
Definition get_rotation_matrix (rotation_x rotation_y rotation_z : T) : Mat3 T :=
  let Rx := mkVec3 (mkVec3 #1 #0 #0)
                   (mkVec3 #0 (np_cos rotation_x) (- np_sin rotation_x))
                   (mkVec3 #0 (np_sin rotation_x) (np_cos rotation_x)) in
  let Ry := mkVec3 (mkVec3 (np_cos rotation_y) #0 (np_sin rotation_y))
                   (mkVec3 #0 #1 #0)
                   (mkVec3 (- np_sin rotation_y) #0 (np_cos rotation_y)) in
  let Rz := mkVec3 (mkVec3 (np_cos rotation_z) (- np_sin rotation_z) #0)
                   (mkVec3 (np_sin rotation_z) (np_cos rotation_z) #0)
                   (mkVec3 #0 #0 #1) in
  matmul Rz (matmul Ry Rx).

(** The matrix that [update_sensor_position] installs for the values of the
    three rotation sliders, which are in degrees: the window converts each
    with [np.radians] and the canvas calls [get_rotation_matrix]. *)
Definition update_sensor_position (rotation_x_slider rotation_y_slider
    rotation_z_slider : T) : Mat3 T :=
  let rotation_x := np_radians rotation_x_slider in
  let rotation_y := np_radians rotation_y_slider in
  let rotation_z := np_radians rotation_z_slider in
  get_rotation_matrix rotation_x rotation_y rotation_z.

(** [rotated_vertices = np.dot(vertices, self.rotation_matrix.T)]: row [i]
    of the result is row [i] of [vertices] times the transpose. *)
Definition rotated_vertices (vertices : list (Vec3 T)) (rotation_matrix : Mat3 T)
  : list (Vec3 T) :=
  map (fun v => mrow_mul v (transpose rotation_matrix)) vertices.
End Code.
End Chart_viscualisation.

(** The determinant of a 3x3 matrix. *)
Definition det3 (m : Mat3 R) : R :=
  (vx (vx m) * (vy (vy m) * vz (vz m) - vz (vy m) * vy (vz m))
   - vy (vx m) * (vx (vy m) * vz (vz m) - vz (vy m) * vx (vz m))
   + vz (vx m) * (vx (vy m) * vy (vz m) - vy (vy m) * vx (vz m)))%R.

(** A rotation: an orthogonal matrix of determinant 1. *)
Definition rotation (m : Mat3 R) : Prop := orthogonal m /\ det3 m = 1%R.

Section ConeDatum.
Context {T : Type} `{Scalar T} `{Libm T}.

(** The face index of an entry of [best_data]. *)
Definition datum_face (d : orientation.face_datum (T := T)) : nat :=
  fst (fst (fst d)).

(** The angle of an entry of [best_data]. *)
Definition datum_angle (d : orientation.face_datum (T := T)) : T :=
  snd (fst d).

(** The entry that the cone pass records for face [idx] with vertices
    [fv]: index, distance to the face centre, angle between the direction
    to the face centre and the viewing direction, face centre. *)
Definition cone_datum (sensor_position rotated_view : Vec3 T) (idx : nat)
    (fv : Vec3 T * Vec3 T * Vec3 T) : orientation.face_datum (T := T) :=
  let face_center := np_mean3 fv in
  (idx,
   np_norm (vsub face_center sensor_position),
   orientation.calculate_angle (normalize (vsub face_center sensor_position))
                               rotated_view,
   face_center).
End ConeDatum.

(** ** The table of Testing_with_Euler_angles.py

    [plot_sensor_and_phases] fills four lists and hands them to
    [update_table].  A cell of the table is modelled by the value that the
    code formats into its text. *)

Module Testing_with_Euler_angles_table.
Section Code.
Context {T : Type} `{Scalar T} `{Libm T}.
Local Open Scope num_scope.

Definition calculate_angle (view_vector face_normal : Vec3 T) : T :=
  let cos_angle := np_dot view_vector face_normal in
  np_degrees (np_arccos (np_clip cos_angle #(-1) #1)).

(** The lists [distances], [angles] and [visible_faces]; the last one is
    flat here: the face index is appended to it directly. *)
Definition table_state : Type := list T * list T * list nat.

Definition visit_face (sensor_position : Vec3 T) (vertices : list (Vec3 T))
    (st : table_state) (entry : nat * Face) : option table_state :=
  let '(distances, angles, visible_faces) := st in
  let '(face_idx, face) := entry in
  face_vertices ← face_rows vertices face;
  let face_center := np_mean3 face_vertices in
  let face_normal := calculate_face_normal face_vertices in
  let view_vector := vsub sensor_position face_center in
  let view_vector := vdiv view_vector (np_norm view_vector) in
  let dot_product := np_dot face_normal view_vector in
  if #0 <? dot_product then
    let visible_faces := visible_faces ++ [face_idx] in
    let distance := np_norm (vsub sensor_position face_center) in
    let angle := calculate_angle view_vector face_normal in
    Some (distances ++ [distance], angles ++ [angle], visible_faces)
  else Some st.

Definition visit_sensor (vertices : list (Vec3 T)) (faces : list Face)
    (st : table_state * list (Vec3 T)) (entry : nat * Vec3 T)
  : option (table_state * list (Vec3 T)) :=
  let '(tables, orientations) := st in
  let '(sensor_idx, sensor_position) := entry in
  tables ← for_loop (visit_face sensor_position vertices) (enumerate faces) tables;
  let rotation_matrix := Testing_with_Euler_angles.get_sensor_rotation sensor_idx in
  let euler_angles :=
    Testing_with_Euler_angles.rotation_matrix_to_euler_angles rotation_matrix in
  Some (tables, orientations ++ [euler_angles]).

(** One row: the number in the text "Sensor n", the pose, the face index,
    the distance, the angle and the three Euler angles. *)
Record table_row : Type := mk_row {
  row_sensor : nat;
  row_pose : Vec3 T;
  row_face : nat;
  row_distance : T;
  row_angle : T;
  row_orientation : Vec3 T;
}.

(** The body of the loop [for i in range(rows)]. *)
Definition table_row_at (distances angles : list T) (visible_faces : list nat)
    (orientations : list (Vec3 T)) (i : nat) : option table_row :=
  let sensor_positions := get_sensor_positions in
  let sensor_idx := (i / 10)%nat in
  sensor_position ← sensor_positions !! sensor_idx;
  orientation ← orientations !! sensor_idx;
  face ← visible_faces !! i;
  distance ← distances !! i;
  angle ← angles !! i;
  Some (mk_row (i / 10 + 1) sensor_position face distance angle orientation).

(** [update_table] when the window has its table (with [self.table] None it
    returns at once): the rows it fills, or [None] when an index is out of
    range. *)
Definition update_table (distances angles : list T) (visible_faces : list nat)
    (orientations : list (Vec3 T)) : option (list table_row) :=
  let rows := length distances in
  mapM (table_row_at distances angles visible_faces orientations) (seq 0 rows).

(** The four lists that [plot_sensor_and_phases] builds. *)
Definition plot_lists : option (table_state * list (Vec3 T)) :=
  let sensor_positions := get_sensor_positions in
  mesh ← get_icosahedron;
  let '(vertices, faces) := mesh in
  for_loop (visit_sensor vertices faces) (enumerate sensor_positions) ([], [], [], []).

(** [plot_sensor_and_phases], up to the table. *)
Definition plot_sensor_and_phases : option (list table_row) :=
  r ← plot_lists;
  let '(distances, angles, visible_faces, orientations) := r in
  update_table distances angles visible_faces orientations.
End Code.
End Testing_with_Euler_angles_table.

(** ** The table of Single_Sensor_testing/Objective_function.py *)

Module Objective_function_table.
Section Code.
Context {T : Type} `{Scalar T} `{Libm T}.

(** One row: the number in "Sensor n", the face index ([None] for the text
    "N/A"), the distance and the angle. *)
Record table_row : Type := mk_row {
  row_sensor : nat;
  row_face : option nat;
  row_distance : T;
  row_angle : T;
}.

Definition table_row_at (distances angles : list T)
    (flat_visible_faces : list nat) (i : nat) : option table_row :=
  let sensor_index := (i / 6 + 1)%nat in
  let face_index :=
    if (i <? length flat_visible_faces)%nat then flat_visible_faces !! i else None in
  distance ← distances !! i;
  angle ← angles !! i;
  Some (mk_row sensor_index face_index distance angle).

(** [update_table] when the window has its table: the rows it fills, or
    [None] when [angles[i]] is out of range. *)
Definition update_table (distances angles : list T)
    (visible_faces : list (list nat)) : option (list table_row) :=
  let rows := length distances in
  let flat_visible_faces := concat visible_faces in
  mapM (table_row_at distances angles flat_visible_faces) (seq 0 rows).

(** [plot_sensor_and_phases], up to the table. *)
Definition plot_table : option (list table_row) :=
  let sensor_positions := get_sensor_positions in
  mesh ← get_icosahedron;
  let '(vertices, faces) := mesh in
  r ← Objective_function.rig_tables sensor_positions vertices faces;
  let '(distances, angles, visible_faces) := r in
  update_table distances angles visible_faces.
End Code.
End Objective_function_table.

(** The rows of the mesh: the three vertices of every face. *)
Definition mesh_rows {T : Type} `{Scalar T}
  : option (list (Vec3 T * Vec3 T * Vec3 T)) :=
  mesh ← get_icosahedron; mapM (face_rows (fst mesh)) (snd mesh).

(** ** The table of orientation.py

    [update_scene] runs the cone pass of every sensor, fills six lists and
    hands them to [update_table].  A cell of the table is modelled by the
    value that the code formats into its text.  The wall clock is the
    function [clock]: [clock k] is the pair [(angle_y, angle_x)] that
    [get_calibration_object_rotation] computes during the pass of sensor
    [k].  An exception inside [update_scene] is caught and printed by the
    method, and the table is then left as it was: this is [None]. *)

Module orientation_table.

(** The text of the status cell. *)
Inductive status : Type := GOOD | BAD.

Section Code.
Context {T : Type} `{Scalar T} `{Libm T}.

(** The lists [distances], [angles], [visible_faces], [sensor_indices]. *)
Definition scene_lists : Type := list T * list T * list nat * list nat.

(** The body of the loop over [face_data]; the polygon of the face is
    built from [vertices[faces[face_idx]]]. *)
Definition record_face (vertices : list (Vec3 T)) (faces : list Face)
    (sensor_idx : nat) (st : scene_lists) (d : orientation.face_datum)
  : option scene_lists :=
  let '(distances, angles, visible_faces, sensor_indices) := st in
  let '(face_idx, distance, angle, face_center) := d in
  face ← faces !! face_idx;
  face_vertices ← face_rows vertices face;
  Some (distances ++ [distance], angles ++ [angle], visible_faces ++ [face_idx],
        sensor_indices ++ [sensor_idx]).

(** The lists above, then [orientations] and [sensor_status]. *)
Definition scene_state : Type := scene_lists * list (Vec3 T) * list status.

Definition visit_sensor (clock : nat -> T * T) (vertices : list (Vec3 T))
    (faces : list Face) (st : scene_state) (entry : nat * Vec3 T)
  : option scene_state :=
  let '(lists, orientations, sensor_status) := st in
  let '(sensor_idx, sensor_position) := entry in
  r ← orientation.get_sensor_rotation (fst (clock sensor_idx))
                                      (snd (clock sensor_idx)) sensor_idx;
  let '(rotation_matrix, visible_count, face_data) := r in
  let euler := orientation.rotation_matrix_to_euler_angles rotation_matrix in
  let orientations := orientations ++ [euler] in
  let status := if (5 <=? visible_count)%nat then GOOD else BAD in
  let sensor_status := sensor_status ++ [status] in
  lists ← for_loop (record_face vertices faces sensor_idx) face_data lists;
  Some (lists, orientations, sensor_status).

(** One row: the number in "Sensor n", the pose, the face, the distance,
    the angle, the Euler angles and the status. *)
Record table_row : Type := mk_row {
  row_sensor : nat;
  row_pose : Vec3 T;
  row_face : nat;
  row_distance : T;
  row_angle : T;
  row_orientation : Vec3 T;
  row_status : status;
}.

Definition table_row_at (distances angles : list T) (visible_faces : list nat)
    (orientations : list (Vec3 T)) (status_list : list status)
    (sensor_indices : list nat) (i : nat) : option table_row :=
  let sensor_positions := get_sensor_positions in
  sensor_idx ← sensor_indices !! i;
  sensor_position ← sensor_positions !! sensor_idx;
  orientation ← orientations !! sensor_idx;
  status ← status_list !! sensor_idx;
  face ← visible_faces !! i;
  distance ← distances !! i;
  angle ← angles !! i;
  Some (mk_row (sensor_idx + 1) sensor_position face distance angle orientation
               status).

(** [update_table] when the window has its table: the rows it fills, or
    [None] when an index is out of range. *)
Definition update_table (distances angles : list T) (visible_faces : list nat)
    (orientations : list (Vec3 T)) (status_list : list status)
    (sensor_indices : list nat) : option (list table_row) :=
  let rows := length distances in
  mapM (table_row_at distances angles visible_faces orientations status_list
                     sensor_indices)
       (seq 0 rows).

(** One run of [update_scene] that is not re-entered ([self._updating] is
    False on entry), up to the table; [clock k] gives the two clock angles
    that the pass of sensor [k] reads. *)
Definition update_scene (clock : nat -> T * T) : option (list table_row) :=
  let sensor_positions := get_sensor_positions in
  mesh ← get_icosahedron;
  let '(vertices, faces) := mesh in
  r ← for_loop (visit_sensor clock vertices faces) (enumerate sensor_positions)
               (([], [], [], []), [], []);
  let '(distances, angles, visible_faces, sensor_indices, orientations,
        sensor_status) := r in
  update_table distances angles visible_faces orientations sensor_status
               sensor_indices.
End Code.
End orientation_table.

(** The sensor index of every row of a table in which sensor [j] has
    [c_0] rows, sensor [j + 1] has [c_1] rows, and so on. *)
Fixpoint sensor_blocks (j : nat) (counts : list nat) : list nat :=
  match counts with
  | [] => []
  | c :: rest => repeat j c ++ sensor_blocks (S j) rest
  end.

(** The status of a sensor with [c] visible faces. *)
Definition status_of (c : nat) : orientation_table.status :=
  if (5 <=? c)%nat then orientation_table.GOOD else orientation_table.BAD.

(** The lists of [update_scene] after the passes of some sensors, of which
    sensor [k] recorded [counts[k]] faces: the rows of each sensor form a
    block, and each sensor has one orientation and one status. *)
Definition scene_invariant {T : Type} (counts : list nat)
    (st : orientation_table.scene_state (T := T)) : Prop :=
  let '(distances, angles, visible_faces, sensor_indices, orientations,
        sensor_status) := st in
  sensor_indices = sensor_blocks 0 counts
  /\ sensor_status = map status_of counts
  /\ length orientations = length counts
  /\ length distances = length sensor_indices
  /\ length angles = length sensor_indices
  /\ length visible_faces = length sensor_indices.

(** ** Correctness_of_rotation_matrices.py *)

Module Correctness_of_rotation_matrices.
Section Code.
Context {T : Type} `{Scalar T} `{Libm T}.
Local Open Scope num_scope.

(** [self.rotation_x], set in [__init__]. *)
Definition rotation_x : Mat3 T := rotation_matrix_x #0.

(** [self.z_rotations]: the dictionary
    [{i: rotation_matrix_z(angle) for i, angle in enumerate([0, 0, 0, 0, 0, 0])}]. *)
Definition z_rotations : gmap nat (Mat3 T) :=
  list_to_map (map (fun entry : nat * T => (fst entry, rotation_matrix_z (snd entry)))
                   (enumerate ([ #0; #0; #0; #0; #0; #0 ] : list T))).

(** [self.z_rotations.get(sensor_idx, np.eye(3))], then the product. *)
Definition get_sensor_rotation (sensor_idx : nat) : Mat3 T :=
  let rotation_z := default np_eye (z_rotations !! sensor_idx) in
  matmul rotation_x rotation_z.

(** The vector that [test_rotation_matrix] prints. *)
Definition test_rotation_matrix (sensor_idx : nat) : Vec3 T :=
  let rotation_matrix := get_sensor_rotation sensor_idx in
  let unit_vector := mkVec3 #1 #0 #0 in
  matvec rotation_matrix unit_vector.
End Code.
End Correctness_of_rotation_matrices.

(** ** Callibration_object_data/Data_optimization_check.py *)

(** The exceptions that the lookups of the script can raise. *)
Inductive lookup_error : Type := ValueError | KeyError.

Module Data_optimization_check.
Section Code.
Context {T : Type} `{Scalar T} `{Libm T}.
Local Open Scope num_scope.

Definition rotation_x : Mat3 T := rotation_matrix_x #42.

Definition z_rotations : list T := [ #30; #60; #90; #120; #150; #180 ].

(** [{i: rotation_matrix_z(z_rotations[i]) for i in range(len(z_rotations))}]. *)
Definition rotation_matrices : gmap nat (Mat3 T) :=
  list_to_map (map (fun entry : nat * T => (fst entry, rotation_matrix_z (snd entry)))
                   (enumerate z_rotations)).

(** [get_sensor_rotation], for the indices 0, 1, 2, ... that [test_accuracy]
    and [check_optimization] pass.  The subscript
    [self.rotation_matrices[sensor_idx]] raises KeyError for a key that the
    dictionary does not have. *)
Definition get_sensor_rotation (sensor_idx : nat) : Mat3 T + lookup_error :=
  if (sensor_idx =? 0)%nat then inl np_eye
  else if (sensor_idx <? length z_rotations)%nat then
    match rotation_matrices !! sensor_idx with
    | Some rotation_z => inl (matmul rotation_x rotation_z)
    | None => inr KeyError
    end
  else inr ValueError.

Definition rotation_matrix_to_euler_angles (R : Mat3 T) : Vec3 T :=
  let alpha := np_arctan2 (vy (vz R)) (vz (vz R)) in
  let beta :=
    np_arctan2 (- vx (vz R))
               (fsqrt (vy (vz R) * vy (vz R) + vz (vz R) * vz (vz R))) in
  let theta := np_arctan2 (vx (vy R)) (vx (vx R)) in
  mkVec3 (np_degrees alpha) (np_degrees beta) (np_degrees theta).
End Code.
End Data_optimization_check.

(** ** data_metrics.py *)

Module data_metrics.
Section Code.
Context {T : Type} `{Scalar T} `{Libm T}.
Local Open Scope num_scope.

(** [rotate_vector]: a rotation about the y axis; the angle is in radians. *)
Definition rotate_vector (vector : Vec3 T) (angle : T) : Vec3 T :=
  let rotation_matrix :=
    mkVec3 (mkVec3 (np_cos angle) #0 (np_sin angle))
           (mkVec3 #0 #1 #0)
           (mkVec3 (- np_sin angle) #0 (np_cos angle)) in
  matvec rotation_matrix vector.

(** The end points of the two dashed lines of [draw_angle_indicators]. *)
Definition draw_angle_indicators (sensor_position : Vec3 T) (fov_min fov_max : T)
  : Vec3 T * Vec3 T :=
  let direction := mkVec3 #1 #0 #0 in
  let angle_30 := np_radians fov_min in
  let angle_60 := np_radians fov_max in
  let vector_30 := rotate_vector direction angle_30 in
  let vector_60 := rotate_vector direction angle_60 in
  let arrow_length := #10 in
  let end_position_30 := vadd sensor_position (vscale vector_30 arrow_length) in
  let end_position_60 := vadd sensor_position (vscale vector_60 arrow_length) in
  (end_position_30, end_position_60).
End Code.
End data_metrics.

(** ** Six_camera.py: the frustum line *)

Module Six_camera_frustum.
Section Code.
Context {T : Type} `{Scalar T}.
Local Open Scope num_scope.

(** The end point of the dashed line of [draw_view_frustum]. *)
Definition draw_view_frustum (sensor_position look_at : Vec3 T) : Vec3 T :=
  let direction := vsub look_at sensor_position in
  let direction := vdiv direction (np_norm direction) in
  let far_plane := #6 in
  let frustum_end := vadd sensor_position (vscale direction far_plane) in
  frustum_end.
End Code.
End Six_camera_frustum.

(** Unfolding of the scalar operations at the instance [R]. *)
Ltac real_ops :=
  cbn [of_Z fadd fsub fmul fdiv fneg fsqrt fltb fpi R_Scalar
       np_cos np_sin np_arccos np_arctan2 R_Libm] in *.

(** Unfolding of the matrix and of the vector operations. *)
Ltac mat_ring :=
  unfold matmul, matvec, transpose, mrow_mul, mcol, np_dot, identity3, det3;
  real_ops; cbn [vx vy vz];
  first [ring | f_equal; ring | f_equal; f_equal; ring | idtac].

Ltac vec_ring :=
  unfold vadd, vsub, vscale, vdiv, vneg, np_cross, np_dot; real_ops;
  cbn [vx vy vz].

(** * Properties *)

(** ** The model at work, in binary64 *)

Example visible_from_plus_x :
  Viewplanning.visible_count (mkVec3 8%float 0%float 0%float) = Some 6%nat.
Proof. vm_compute. reflexivity. Qed.

Example visible_from_initial_position :
  Viewplanning.visible_count (T := float) Viewplanning.initial_position = Some 6%nat.
Proof. vm_compute. reflexivity. Qed.

Example search_on_cyclic_draws :
  (Viewplanning.select_best_viewpoint cyclic_draws ≫= Viewplanning.visible_count)
  = Some 7%nat.
Proof. vm_compute. reflexivity. Qed.

Example sorted_reverse_is_stable :
  sorted_reverse snd [(1, 2); (2, 3); (3, 2); (4, 3); (5, 1)]%nat
  = [(2, 3); (4, 3); (1, 2); (3, 2); (5, 1)]%nat.
Proof. reflexivity. Qed.

Example sensor_0_scores_one :
  optimization.coverage_score (T := float) optimization.expected_visible_faces 0
    [ (0%nat, 6%float, 30%float, origin); (1%nat, 6%float, 30%float, origin);
      (5%nat, 6%float, 30%float, origin) ]
  = Some 1%float.
Proof. vm_compute. reflexivity. Qed.

(** ** The mesh *)

Lemma norm_rescaled (v : Vec3 R) :
  (0 < np_dot v v)%R -> np_norm (vscale v (5 / np_norm v)%R) = 5%R.
Proof.
  intros HN. unfold np_norm. real_ops. set (N := np_dot v v) in *.
  assert (Hq : (R_sqrt.sqrt N * R_sqrt.sqrt N = N)%R) by (apply sqrt_sqrt; lra).
  assert (Hq0 : (0 < R_sqrt.sqrt N)%R) by (apply sqrt_lt_R0; exact HN).
  set (q := R_sqrt.sqrt N) in *.
  assert (E : np_dot (vscale v (5 / q)%R) (vscale v (5 / q)%R)
              = (25 * N / (q * q))%R).
  { unfold N, np_dot, vscale. simpl. field. lra. }
  rewrite E, Hq. replace (25 * N / N)%R with (5 * 5)%R by (field; lra).
  apply sqrt_square. lra.
Qed.

Lemma first_vertex_norm_R : first_vertex_norm (T := R) = Some 5%R.
Proof.
  assert (Hpos : (0 < np_dot (mkVec3 (- (1)) phi 0) (mkVec3 (- (1)) phi 0))%R)
    by (unfold np_dot; simpl; nra).
  change (Some (np_norm (vscale (mkVec3 (- (1)) phi 0)
                                (5 / np_norm (mkVec3 (- (1)) phi 0))))%R = Some 5%R).
  f_equal. exact (norm_rescaled _ Hpos).
Qed.

Lemma first_vertex_norm_binary64 : first_vertex_norm (T := float) = Some 5%float.
Proof. vm_compute. reflexivity. Qed.

(** C9: the generated mesh has 12 vertices and 20 triangular faces, every
    index of the face table is below 12, every edge of a face is shared by
    exactly two faces, and the first vertex has norm 5 after scaling (over
    the reals, and also in binary64). *)
Theorem icosahedron_mesh_closed_and_scaled :
  (forall (T : Type) (Sc : Scalar T),
      exists vertices faces,
        get_icosahedron (T := T) = Some (vertices, faces)
        /\ length vertices = 12%nat
        /\ length faces = 20%nat
        /\ Forall (face_indices_below 12) faces
        /\ closed_mesh faces)
  /\ first_vertex_norm (T := R) = Some 5%R
  /\ first_vertex_norm (T := float) = Some 5%float.
Proof.
  split; [| split; [apply first_vertex_norm_R | apply first_vertex_norm_binary64]].
  intros T Sc. eexists _, _. split; [reflexivity |].
  split; [reflexivity |]. split; [reflexivity |].
  split.
  - unfold icosahedron_faces. repeat constructor.
  - unfold closed_mesh, icosahedron_faces.
    repeat (apply Forall_cons; split; [repeat constructor |]).
    apply Forall_nil. trivial.
Qed.

(** ** Loops *)

Lemma for_loop_app {A S : Type} (body : S -> A -> option S) (l1 l2 : list A) (s : S) :
  for_loop body (l1 ++ l2) s = (s' ← for_loop body l1 s; for_loop body l2 s').
Proof.
  revert s. induction l1 as [| a l1 IH]; intros s; simpl; [reflexivity |].
  destruct (body s a) as [s1 |]; simpl; [apply IH | reflexivity].
Qed.

(** A loop whose body, on the elements of the list, preserves an invariant
    and never raises under it runs to its end, and the invariant holds of
    the final state. *)
Lemma for_loop_invariant_on {A S : Type} (Q : A -> Prop) (P : S -> Prop)
    (body : S -> A -> option S) (l : list A) (s : S) :
  Forall Q l ->
  P s ->
  (forall s a, Q a -> P s -> exists s', body s a = Some s' /\ P s') ->
  exists s', for_loop body l s = Some s' /\ P s'.
Proof.
  intros Hl Hs Hbody. revert s Hs.
  induction Hl as [| a l Ha Hl IH]; intros s Hs; simpl; [eauto |].
  destruct (Hbody s a Ha Hs) as (s1 & -> & Hs1). simpl. apply IH, Hs1.
Qed.

Lemma for_loop_invariant {A S : Type} (P : S -> Prop) (body : S -> A -> option S)
    (l : list A) (s : S) :
  P s ->
  (forall s a, P s -> exists s', body s a = Some s' /\ P s') ->
  exists s', for_loop body l s = Some s' /\ P s'.
Proof.
  intros Hs Hbody.
  apply (for_loop_invariant_on (fun _ => True)); [| exact Hs | auto].
  apply Forall_forall. trivial.
Qed.

Lemma face_rows_in_range {T : Type} (vertices : list (Vec3 T)) (face : Face) :
  face_indices_below (length vertices) face ->
  exists r, face_rows vertices face = Some r.
Proof.
  destruct face as [[i j] k]. intros (Hi & Hj & Hk). unfold face_rows.
  destruct (lookup_lt_is_Some_2 vertices i Hi) as [v1 ->].
  destruct (lookup_lt_is_Some_2 vertices j Hj) as [v2 ->].
  destruct (lookup_lt_is_Some_2 vertices k Hk) as [v3 ->].
  simpl. eauto.
Qed.

(** ** The sort of the candidate pool *)

Section Pool.
Context {A : Type} (key : A -> nat).
Local Abbreviation head_key := (head_key key).
Local Abbreviation max_key := (max_key key).

Lemma head_key_insert_desc x l :
  head_key (insert_desc key x l) = Nat.max (key x) (head_key l).
Proof.
  destruct l as [| y l']; simpl; [lia |].
  destruct (Nat.ltb_spec (key x) (key y)); simpl; lia.
Qed.

Lemma max_key_insert_desc x l :
  max_key (insert_desc key x l) = Nat.max (key x) (max_key l).
Proof.
  induction l as [| y l' IH]; simpl; [reflexivity |].
  destruct (Nat.ltb_spec (key x) (key y)); simpl; [rewrite IH |]; lia.
Qed.

Lemma head_key_sorted_reverse l : head_key (sorted_reverse key l) = max_key l.
Proof.
  induction l as [| x l IH]; simpl; [reflexivity |].
  rewrite head_key_insert_desc, IH. reflexivity.
Qed.

Lemma max_key_sorted_reverse l : max_key (sorted_reverse key l) = max_key l.
Proof.
  induction l as [| x l IH]; simpl; [reflexivity |].
  rewrite max_key_insert_desc, IH. reflexivity.
Qed.

Lemma max_key_app l1 l2 : max_key (l1 ++ l2) = Nat.max (max_key l1) (max_key l2).
Proof. induction l1 as [| x l1 IH]; simpl; [reflexivity | rewrite IH; lia]. Qed.

Lemma head_key_le_max_key l : (head_key l <= max_key l)%nat.
Proof. destruct l; simpl; lia. Qed.

Lemma max_key_firstn n l : (max_key (firstn n l) <= max_key l)%nat.
Proof.
  revert n. induction l as [| x l IH]; intros [| n]; simpl; try lia.
  specialize (IH n). lia.
Qed.

Lemma head_key_firstn n l : head_key (firstn (S n) l) = head_key l.
Proof. destruct l; reflexivity. Qed.

(** After sorting and truncating to a positive width, the first element
    carries the largest key of the whole list. *)
Lemma truncated_sort_best n l :
  let kept := firstn (S n) (sorted_reverse key l) in
  head_key kept = max_key l /\ max_key kept = max_key l.
Proof.
  intros kept.
  assert (Hh : head_key kept = max_key l)
    by (unfold kept; rewrite head_key_firstn; apply head_key_sorted_reverse).
  split; [exact Hh |].
  pose proof (head_key_le_max_key kept).
  pose proof (max_key_firstn (S n) (sorted_reverse key l)) as Hle.
  rewrite max_key_sorted_reverse in Hle. fold kept in Hle. lia.
Qed.

Lemma insert_desc_not_nil x l : insert_desc key x l <> [].
Proof. destruct l as [| y l']; simpl; [| destruct (key x <? key y)%nat]; discriminate. Qed.

Lemma truncated_sort_not_nil n l :
  l <> [] -> firstn (S n) (sorted_reverse key l) <> [].
Proof.
  destruct l as [| x l]; [congruence |]. intros _. simpl.
  pose proof (insert_desc_not_nil x (sorted_reverse key l)) as Hne.
  destruct (insert_desc key x (sorted_reverse key l)); [congruence | discriminate].
Qed.

Lemma Forall_insert_desc (P : A -> Prop) x l :
  P x -> Forall P l -> Forall P (insert_desc key x l).
Proof.
  intros Hx Hl. induction Hl as [| y l' Hy Hl' IH]; simpl.
  - constructor; [exact Hx | constructor].
  - destruct (key x <? key y)%nat.
    + constructor; [exact Hy | exact IH].
    + constructor; [exact Hx |]. constructor; assumption.
Qed.

Lemma Forall_sorted_reverse (P : A -> Prop) l :
  Forall P l -> Forall P (sorted_reverse key l).
Proof.
  intros Hl. induction Hl as [| x l' Hx Hl' IH]; simpl;
    [constructor | apply Forall_insert_desc; assumption].
Qed.
End Pool.

(** ** The viewpoint search *)

Section Search.
Context {T : Type} `{Scalar T}.
Variable draws : nat -> Vec3 T.
Variable vertices : list (Vec3 T).
Variable faces : list Face.
Hypothesis faces_in_range : Forall (face_indices_below (length vertices)) faces.
Local Abbreviation consistent := (consistent vertices faces).

Lemma evaluate_visible_faces_total (position : Vec3 T) :
  exists n, Viewplanning.evaluate_visible_faces position vertices faces = Some n.
Proof.
  unfold Viewplanning.evaluate_visible_faces.
  destruct (for_loop_invariant_on (face_indices_below (length vertices))
              (fun _ : nat => True)
              (Viewplanning.count_face position vertices) faces 0%nat)
    as (n & Hn & _); [exact faces_in_range | trivial | | eauto].
  intros s f Hf _. unfold Viewplanning.count_face.
  destruct (face_rows_in_range vertices f Hf) as [r ->]. simpl. eauto.
Qed.

Lemma perturb_consistent position st i :
  Forall consistent (fst st) ->
  exists st', Viewplanning.perturb draws vertices faces position st i = Some st'
              /\ Forall consistent (fst st').
Proof.
  destruct st as [new_positions calls]. simpl. intros Hst.
  unfold Viewplanning.perturb.
  set (p := vscale _ _).
  destruct (evaluate_visible_faces_total p) as [n Hn]. rewrite Hn. simpl.
  eexists; split; [reflexivity |]. simpl.
  apply Forall_app; split; [exact Hst |].
  constructor; [exact Hn | constructor].
Qed.

Lemma expand_consistent st c :
  Forall consistent (fst st) ->
  exists st', Viewplanning.expand draws vertices faces st c = Some st'
              /\ Forall consistent (fst st').
Proof.
  intros Hst. unfold Viewplanning.expand.
  apply (for_loop_invariant (fun st => Forall consistent (fst st)));
    [exact Hst |].
  intros s a Hs. apply perturb_consistent, Hs.
Qed.

Lemma keep_best (pool new_positions : list (Viewplanning.candidate (T := T))) :
  let kept := firstn Viewplanning.num_candidates_to_keep
                     (sorted_reverse snd (pool ++ new_positions)) in
  head_key snd kept = Viewplanning.best_count kept
  /\ (Viewplanning.best_count pool <= Viewplanning.best_count kept)%nat.
Proof.
  intros kept.
  destruct (truncated_sort_best snd 9 (pool ++ new_positions)) as [Hh Hm].
  change (head_key snd kept = max_key snd (pool ++ new_positions)) in Hh.
  change (max_key snd kept = max_key snd (pool ++ new_positions)) in Hm.
  change (head_key snd kept = max_key snd kept
          /\ (max_key snd pool <= max_key snd kept)%nat).
  rewrite Hh, Hm, max_key_app. split; lia.
Qed.

(** One iteration never raises, keeps the pool consistent, puts a
    candidate with the best count of the pool first, and does not lower
    the best count. *)
Lemma iteration_step st i :
  Forall consistent (fst st) ->
  exists st',
    Viewplanning.iteration draws vertices faces st i = Some st'
    /\ (fst st <> [] -> fst st' <> [])
    /\ Forall consistent (fst st')
    /\ head_key snd (fst st') = Viewplanning.best_count (fst st')
    /\ (Viewplanning.best_count (fst st) <= Viewplanning.best_count (fst st'))%nat.
Proof.
  destruct st as [pool calls]. simpl. intros Hpool.
  unfold Viewplanning.iteration.
  destruct (for_loop_invariant (fun st => Forall consistent (fst st))
              (Viewplanning.expand draws vertices faces) pool ([], calls))
    as ([new_positions calls'] & -> & Hnew).
  { simpl. constructor. }
  { intros s a Hs. apply expand_consistent, Hs. }
  simpl in Hnew. simpl. eexists; split; [reflexivity |]. simpl.
  destruct (keep_best pool new_positions) as [Hh Hm].
  split; [| split; [| split; assumption]].
  - intros Hne. apply (truncated_sort_not_nil snd 9).
    destruct pool; [congruence | discriminate].
  - apply Forall_take, Forall_sorted_reverse, Forall_app. split; assumption.
Qed.

Variable initial_count : nat.
Hypothesis initial_consistent :
  consistent (Viewplanning.initial_position, initial_count).
Local Abbreviation search_state := (search_state draws vertices faces initial_count).

Lemma search_state_invariant (n : nat) :
  exists st,
    search_state n = Some st
    /\ fst st <> []
    /\ Forall consistent (fst st)
    /\ head_key snd (fst st) = Viewplanning.best_count (fst st)
    /\ (initial_count <= Viewplanning.best_count (fst st))%nat.
Proof.
  unfold search_state. induction n as [| n IH].
  - simpl. eexists; split; [reflexivity |]. simpl.
    split; [discriminate |].
    split; [constructor; [exact initial_consistent | constructor] |].
    split; lia.
  - destruct IH as (st & Hst & Hne & Hc & Hh & Hle).
    rewrite seq_S, for_loop_app, Hst. simpl.
    destruct (iteration_step st n Hc) as (st' & -> & Hne' & Hc' & Hh' & Hmono).
    exists st'. split; [reflexivity |]. split; [auto |].
    split; [assumption |]. split; [assumption | lia].
Qed.

Lemma search_state_monotone (n : nat) :
  exists st st',
    search_state n = Some st /\ search_state (S n) = Some st'
    /\ (Viewplanning.best_count (fst st) <= Viewplanning.best_count (fst st'))%nat.
Proof.
  destruct (search_state_invariant n) as (st & Hst & _ & Hc & _ & _).
  destruct (iteration_step st n Hc) as (st' & Hit & _ & _ & _ & Hmono).
  exists st, st'. split; [exact Hst |]. split; [| exact Hmono].
  unfold search_state in *. rewrite seq_S, for_loop_app, Hst. simpl.
  rewrite Hit. reflexivity.
Qed.
End Search.

Lemma icosahedron_faces_in_range {T : Type} `{Scalar T} (vertices : list (Vec3 T))
    (faces : list Face) :
  get_icosahedron = Some (vertices, faces) ->
  Forall (face_indices_below (length vertices)) faces.
Proof.
  intros E. unfold get_icosahedron in E. simpl in E. injection E as <- <-.
  simpl. unfold icosahedron_faces. repeat constructor.
Qed.

(** C1: in [select_best_viewpoint] the best visible-face count of the
    candidate pool never decreases from one iteration to the next, whatever
    the random perturbations are; the search returns a position, and the
    number of faces visible from it is at least the number visible from the
    initial position. *)
Theorem search_best_count_never_decreases :
  forall (T : Type) (Sc : Scalar T) (draws : nat -> Vec3 T),
    (forall n, exists st st',
        Viewplanning.pool_after draws n = Some st
        /\ Viewplanning.pool_after draws (S n) = Some st'
        /\ (Viewplanning.best_count (fst st)
            <= Viewplanning.best_count (fst st'))%nat)
    /\ (exists best n0 n1,
          Viewplanning.select_best_viewpoint draws = Some best
          /\ Viewplanning.visible_count Viewplanning.initial_position = Some n0
          /\ Viewplanning.visible_count best = Some n1
          /\ (n0 <= n1)%nat).
Proof.
  intros T Sc draws.
  destruct (get_icosahedron (T := T)) as [[vertices faces] |] eqn:Emesh;
    [| discriminate Emesh].
  pose proof (icosahedron_faces_in_range vertices faces Emesh) as Hrange.
  destruct (evaluate_visible_faces_total vertices faces Hrange
              Viewplanning.initial_position) as [n0 Hn0].
  assert (Hpool : forall n, Viewplanning.pool_after draws n
                            = search_state draws vertices faces n0 n).
  { intros n. unfold Viewplanning.pool_after. rewrite Emesh. simpl.
    rewrite Hn0. reflexivity. }
  assert (Hcount : forall p, Viewplanning.visible_count p
                             = Viewplanning.evaluate_visible_faces p vertices faces).
  { intros p. unfold Viewplanning.visible_count. rewrite Emesh. reflexivity. }
  split.
  - intros n. rewrite !Hpool.
    apply (search_state_monotone draws vertices faces Hrange n0 Hn0).
  - destruct (search_state_invariant draws vertices faces Hrange n0 Hn0
                Viewplanning.max_iterations)
      as ([pool calls] & Hst & Hne & Hc & Hh & Hle).
    simpl in Hne, Hc, Hh, Hle.
    destruct pool as [| [best n1] rest]; [congruence |].
    exists best, n0, n1.
    unfold Viewplanning.select_best_viewpoint. rewrite Hpool, Hst. simpl.
    rewrite !Hcount. split; [reflexivity |]. split; [exact Hn0 |].
    inversion Hc as [| c l Hbest _]; subst.
    split; [exact Hbest |].
    change (Viewplanning.best_count ((best, n1) :: rest))
      with (Nat.max n1 (Viewplanning.best_count rest)) in Hle.
    simpl in Hh. lia.
Qed.

(** ** The back-face pass *)

Lemma mapM_cons_option {A B : Type} (f : A -> option B) (x : A) (l : list A) :
  mapM f (x :: l) = (y ← f x; k ← mapM f l; Some (y :: k)).
Proof. reflexivity. Qed.

Section BackFace.
Context {T : Type} `{Scalar T} `{Libm T}.
Local Open Scope num_scope.

Lemma visible_rows_cons sensor k fv rows :
  visible_rows sensor k (fv :: rows)
  = (if back_face_visible sensor fv then [(k, fv)] else [])
      ++ visible_rows sensor (S k) rows.
Proof.
  unfold visible_rows. simpl. destruct (back_face_visible sensor fv); reflexivity.
Qed.

Lemma face_loop_records sensor vertices faces :
  forall k svf ds angs,
    for_loop (Objective_function.visit_face sensor vertices)
             (combine (seq k (length faces)) faces) (svf, ds, angs)
    = rows ← mapM (face_rows vertices) faces;
      Some (svf ++ map fst (visible_rows sensor k rows),
            ds ++ map (fun e => face_distance sensor (snd e))
                      (visible_rows sensor k rows),
            angs ++ map (fun e => face_angle sensor (snd e))
                        (visible_rows sensor k rows)).
Proof.
  induction faces as [| f fs IH]; intros k svf ds angs.
  - simpl. rewrite !app_nil_r. reflexivity.
  - simpl. destruct (face_rows vertices f) as [fv |] eqn:Ef; simpl; [| reflexivity].
    fold (normalize (vsub sensor (np_mean3 fv))).
    fold (back_face_visible sensor fv).
    destruct (back_face_visible sensor fv) eqn:Ev.
    + cbn [mbind option_bind]. rewrite IH.
      destruct (mapM (face_rows vertices) fs) as [rows |]; simpl;
        [| reflexivity].
      rewrite visible_rows_cons, Ev. simpl. rewrite <- !app_assoc. reflexivity.
    + cbn [mbind option_bind]. rewrite IH. destruct (mapM (face_rows vertices) fs) as [rows |]; simpl;
        [| reflexivity].
      rewrite visible_rows_cons, Ev. reflexivity.
Qed.

Lemma count_face_back_face sensor vertices n f :
  Viewplanning.count_face sensor vertices n f
  = fv ← face_rows vertices f;
    Some (if back_face_visible sensor fv then S n else n).
Proof. reflexivity. Qed.

Lemma count_loop_visible sensor vertices faces :
  forall k n0,
    for_loop (Viewplanning.count_face sensor vertices) faces n0
    = rows ← mapM (face_rows vertices) faces;
      Some (n0 + length (visible_rows sensor k rows))%nat.
Proof.
  induction faces as [| f fs IH]; intros k n0.
  - simpl. f_equal. lia.
  - change (for_loop (Viewplanning.count_face sensor vertices) (f :: fs) n0)
      with (Viewplanning.count_face sensor vertices n0 f
              ≫= for_loop (Viewplanning.count_face sensor vertices) fs).
    rewrite mapM_cons_option, count_face_back_face.
    destruct (face_rows vertices f) as [fv |] eqn:Ef; cbn [mbind option_bind];
      [| reflexivity].
    rewrite (IH (S k)).
    destruct (mapM (face_rows vertices) fs) as [rows |]; cbn [mbind option_bind];
      [| reflexivity].
    rewrite visible_rows_cons.
    destruct (back_face_visible sensor fv); simpl; f_equal; lia.
Qed.

Lemma visible_rows_indices sensor rows :
  forall k,
    StronglySorted lt (map fst (visible_rows sensor k rows))
    /\ Forall (fun i => (k <= i)%nat) (map fst (visible_rows sensor k rows)).
Proof.
  induction rows as [| fv rows IH]; intros k.
  - split; constructor.
  - destruct (IH (S k)) as [Hs Hge]. rewrite visible_rows_cons.
    assert (Hge' : Forall (fun i => (k <= i)%nat)
                          (map fst (visible_rows sensor (S k) rows))).
    { eapply Forall_impl; [exact Hge |]. simpl. intros; lia. }
    destruct (back_face_visible sensor fv); simpl.
    + split; constructor; try assumption; lia.
    + split; assumption.
Qed.

Lemma visible_rows_member sensor rows :
  forall k i,
    In i (map fst (visible_rows sensor k rows))
    <-> (k <= i)%nat
        /\ exists fv, rows !! (i - k)%nat = Some fv
                      /\ back_face_visible sensor fv = true.
Proof.
  induction rows as [| fv rows IH]; intros k i.
  - simpl. split; [tauto | intros (_ & fv & E & _); discriminate E].
  - rewrite visible_rows_cons, map_app, in_app_iff, IH.
    split.
    + intros [Hin | (Hle & fv' & E & Ev)].
      * destruct (back_face_visible sensor fv) eqn:Ev; [| destruct Hin].
        destruct Hin as [<- | []]. simpl. split; [lia |].
        exists fv. rewrite Nat.sub_diag. auto.
      * split; [lia |]. exists fv'. split; [| exact Ev].
        replace (i - k)%nat with (S (i - S k)) by lia. exact E.
    + intros (Hle & fv' & E & Ev).
      destruct (Nat.eq_dec i k) as [-> | Hne].
      * left. rewrite Nat.sub_diag in E. simpl in E. injection E as ->.
        rewrite Ev. simpl. auto.
      * right. split; [lia |]. exists fv'. split; [| exact Ev].
        replace (i - k)%nat with (S (i - S k)) in E by lia. exact E.
Qed.
End BackFace.

Lemma StronglySorted_lt_NoDup (l : list nat) : StronglySorted lt l -> NoDup l.
Proof.
  induction 1 as [| x l Hs IH Hx]; constructor; [| exact IH].
  intros Hin. rewrite Forall_forall in Hx. specialize (Hx x Hin). lia.
Qed.

(** C2: in back-face mode a face is judged visible exactly when the dot
    product of its normal with [normalize(sensor - center)] is positive,
    [center] being the mean of its vertices; the pass of one sensor appends
    the indices of the visible faces in increasing order, each once, with
    the distance [||sensor - center||] and the angle of every such face, and
    [evaluate_visible_faces] returns their number.  When a face index is out
    of range both functions raise. *)
Theorem back_face_pass_in_face_order :
  forall (T : Type) (Sc : Scalar T) (L : Libm T)
         (sensor : Vec3 T) (vertices : list (Vec3 T)) (faces : list Face)
         (distances angles : list T) (visible_faces : list (list nat)),
    match mapM (face_rows vertices) faces with
    | None =>
        Objective_function.visit_sensor vertices faces
          (distances, angles, visible_faces) sensor = None
        /\ Viewplanning.evaluate_visible_faces sensor vertices faces = None
    | Some rows =>
        let visible := visible_rows sensor 0 rows in
        Objective_function.visit_sensor vertices faces
          (distances, angles, visible_faces) sensor
        = Some (distances ++ map (fun e => face_distance sensor (snd e)) visible,
                angles ++ map (fun e => face_angle sensor (snd e)) visible,
                visible_faces ++ [map fst visible])
        /\ Viewplanning.evaluate_visible_faces sensor vertices faces
           = Some (length visible)
        /\ (forall i, In i (map fst visible)
                      <-> exists fv, rows !! i = Some fv
                                     /\ back_face_visible sensor fv = true)
        /\ StronglySorted lt (map fst visible)
        /\ NoDup (map fst visible)
    end.
Proof.
  intros T Sc L sensor vertices faces distances angles visible_faces.
  pose proof (face_loop_records sensor vertices faces 0 [] distances angles) as Hloop.
  pose proof (count_loop_visible sensor vertices faces 0 0) as Hcount.
  unfold Objective_function.visit_sensor, Viewplanning.evaluate_visible_faces,
    enumerate.
  rewrite Hloop, Hcount.
  destruct (mapM (face_rows vertices) faces) as [rows |]; simpl; [| split; reflexivity].
  split; [reflexivity |]. split; [reflexivity |].
  destruct (visible_rows_indices sensor rows 0) as [Hsorted _].
  split; [| split; [exact Hsorted | apply StronglySorted_lt_NoDup, Hsorted]].
  intros i. rewrite visible_rows_member, Nat.sub_0_r.
  split; [intros [_ Hex]; exact Hex | intros Hex; split; [lia | exact Hex]].
Qed.

(** ** The face normal on degenerate faces *)

(** Three coincident points, in binary64: the norm of the cross product is
    zero, the code divides by it and returns three NaN; no error is
    reported, although the guarded function of the specification reports
    one for this input. *)
Lemma face_normal_of_coincident_points :
  np_norm (np_cross (vsub (origin (T := float)) origin) (vsub origin origin))
  = 0%float
  /\ call_calculate_face_normal (T := float) (origin, origin, origin)
     = Returned (mkVec3 nan nan nan)
  /\ guarded_face_normal (T := float) 0x1p-30%float (origin, origin, origin)
     = DegenerateFaceError
  /\ call_calculate_face_normal (T := float) (origin, origin, origin)
     <> DegenerateFaceError.
Proof.
  split; [vm_compute; reflexivity |].
  split; [vm_compute; reflexivity |].
  split; [vm_compute; reflexivity | discriminate].
Qed.

(** C8 (amended): [calculate_face_normal] has no guard.  On every input it
    returns the cross product of the two edges divided by its norm and
    reports no error; it agrees with the guarded function of the
    specification whenever that one returns; on three coincident points the
    division is 0/0 and, in binary64, the three components are NaN. *)
Theorem face_normal_is_unguarded :
  (forall (T : Type) (Sc : Scalar T) (v0 v1 v2 : Vec3 T),
      let c := np_cross (vsub v1 v0) (vsub v2 v0) in
      call_calculate_face_normal (v0, v1, v2) = Returned (vdiv c (np_norm c))
      /\ forall eps : T,
          guarded_face_normal eps (v0, v1, v2) = DegenerateFaceError
          \/ guarded_face_normal eps (v0, v1, v2)
             = call_calculate_face_normal (v0, v1, v2))
  /\ call_calculate_face_normal (T := float) (origin, origin, origin)
     = Returned (mkVec3 nan nan nan).
Proof.
  split.
  - intros T Sc v0 v1 v2 c. split; [reflexivity |].
    intros eps. unfold guarded_face_normal. fold c.
    destruct (fltb (np_norm c) eps); [left | right]; reflexivity.
  - vm_compute. reflexivity.
Qed.

(** ** The unclamped arccos of the annotation pass *)

(** The annotation pass of Six_camera.py hands the dot product of the
    back-face test to [np.arccos] as it is. *)
Lemma annotate_face_unclamped {T : Type} `{Scalar T} `{Libm T}
    (sensor : Vec3 T) (vertices : list (Vec3 T)) (labels : list (T * T))
    (face : Face) :
  Six_camera.annotate_face sensor vertices labels face
  = fv ← face_rows vertices face;
    Some (if back_face_visible sensor fv
          then labels ++ [(face_distance sensor fv,
                           np_degrees (np_arccos (back_face_dot sensor fv)))]
          else labels).
Proof.
  unfold Six_camera.annotate_face.
  destruct (face_rows vertices face) as [fv |]; [| reflexivity].
  cbn [mbind option_bind].
  fold (normalize (vsub sensor (np_mean3 fv))).
  fold (back_face_dot sensor fv). fold (face_distance sensor fv).
  change (fltb (of_Z 0) (back_face_dot sensor fv))
    with (back_face_visible sensor fv).
  destruct (back_face_visible sensor fv); reflexivity.
Qed.

(** At the six positions of the fixed rig the dot products stay below 1 in
    binary64: the unclamped arccos is harmless there. *)
Lemma fixed_rig_dot_products_in_domain :
  exists dots,
    fixed_rig_dot_products = Some dots
    /\ length dots = 6%nat
    /\ forallb (forallb (fun d => PrimFloat.ltb (-1)%float d && PrimFloat.ltb d 1%float))
               dots = true.
Proof. eexists. split; [vm_compute; reflexivity |]. split; reflexivity. Qed.

(** Over the reals the clamped value is in the domain of arccos. *)
Lemma np_clip_in_domain (x : R) : (-1 <= np_clip x (-1) 1 <= 1)%R.
Proof.
  unfold np_clip. real_ops. unfold Rltb.
  destruct (Rlt_dec x (-1)) as [Hlo | Hlo];
    [destruct (Rlt_dec 1 (-1)) | destruct (Rlt_dec 1 x)]; lra.
Qed.

(** C5: [calculate_angle] applies arccos to the clamped dot product, and
    the cone mode of orientation.py and the back-face mode of
    Objective_function.py compute their angles with it; but the annotation
    pass of Six_camera.py applies arccos to the dot product as it is, and
    for the sensor position (5, 5, 5) and face 5 of the mesh, in
    binary64, that dot product of two normalized vectors is
    1.0000000000000002, above 1, where [calculate_angle] on the same two
    vectors passes the clamped value 1. *)
Theorem six_camera_arccos_above_one :
  (forall (T : Type) (Sc : Scalar T) (L : Libm T) (v1 v2 : Vec3 T),
      orientation.calculate_angle v1 v2
      = np_degrees (np_arccos (np_clip (np_dot v1 v2) (of_Z (-1)) (of_Z 1)))
      /\ Objective_function.calculate_angle v1 v2
         = np_degrees (np_arccos (np_clip (np_dot v1 v2) (of_Z (-1)) (of_Z 1))))
  /\ (forall (T : Type) (Sc : Scalar T) (L : Libm T)
             (sensor rotated_view : Vec3 T) (vertices : list (Vec3 T))
             (max_visible : nat) (best_data : list orientation.face_datum)
             (idx : nat) (face : Face),
         orientation.cone_face sensor rotated_view vertices
           (max_visible, best_data) (idx, face)
         = fv ← face_rows vertices face;
           let face_center := np_mean3 fv in
           let angle :=
             orientation.calculate_angle (normalize (vsub face_center sensor))
                                         rotated_view in
           Some (if fltb angle (of_Z 60 / of_Z 2)%num
                 then (S max_visible,
                       best_data ++ [(idx, np_norm (vsub face_center sensor),
                                      angle, face_center)])
                 else (max_visible, best_data)))
  /\ (forall (T : Type) (Sc : Scalar T) (L : Libm T) (sensor : Vec3 T)
             (vertices : list (Vec3 T)) (labels : list (T * T)) (face : Face),
         Six_camera.annotate_face sensor vertices labels face
         = fv ← face_rows vertices face;
           Some (if back_face_visible sensor fv
                 then labels ++ [(face_distance sensor fv,
                                  np_degrees (np_arccos (back_face_dot sensor fv)))]
                 else labels))
  /\ (forall libm : Libm float,
         exists mesh fv,
           get_icosahedron = Some mesh
           /\ face_rows (fst mesh) (1, 5, 9)%nat = Some fv
           /\ back_face_dot sensor_555 fv = 0x1.0000000000001p+0%float
           /\ PrimFloat.ltb 1%float 0x1.0000000000001p+0%float = true
           /\ Six_camera.annotate_face sensor_555 (fst mesh) [] (1, 5, 9)%nat
              = Some [(face_distance sensor_555 fv,
                       np_degrees (np_arccos 0x1.0000000000001p+0%float))]
           /\ Objective_function.calculate_angle
                (normalize (vsub sensor_555 (np_mean3 fv)))
                (calculate_face_normal fv)
              = np_degrees (np_arccos 1%float)).
Proof.
  split; [intros; split; reflexivity |].
  split.
  { intros T Sc L sensor rotated_view vertices max_visible best_data idx face.
    unfold orientation.cone_face.
    destruct (face_rows vertices face) as [fv |]; [| reflexivity].
    cbn [mbind option_bind]. fold (normalize (vsub (np_mean3 fv) sensor)).
    cbv zeta.
    destruct (fltb _ _); reflexivity. }
  split; [intros; apply annotate_face_unclamped |].
  intros libm.
  eexists _, _. split; [reflexivity |]. split; [reflexivity |].
  split; [vm_compute; reflexivity |]. split; [vm_compute; reflexivity |].
  split; vm_compute; reflexivity.
Qed.

(** ** The coverage score *)

Lemma IZR_of_nat_pos (n : nat) : (0 < n)%nat -> (0 < IZR (Z.of_nat n))%R.
Proof. intros Hn. apply IZR_lt. lia. Qed.

(** C4: the score of a sensor is [|actual ∩ expected| / max(|expected|, 1)]
    and the division never fails, whatever the two sets are; over the reals
    it is exactly 1 when the two sets are equal and not empty, and exactly 0
    when they are disjoint. *)
Theorem coverage_score_formula :
  (forall (T : Type) (Sc : Scalar T) (expected : gmap nat (list nat))
          (sensor_idx : nat) (face_data : list (nat * T * T * Vec3 T)),
      let actual : gset nat := list_to_set (map (fun f => fst (fst (fst f))) face_data) in
      let expected_set : gset nat := list_to_set (default [] (expected !! sensor_idx)) in
      optimization.coverage_score expected sensor_idx face_data
      = Some (of_Z (Z.of_nat (size (actual ∩ expected_set)))
              / of_Z (Z.of_nat (Nat.max (size expected_set) 1)))%num)
  /\ (forall (expected : gmap nat (list nat)) (sensor_idx : nat)
             (face_data : list (nat * R * R * Vec3 R)),
         let actual : gset nat := list_to_set (map (fun f => fst (fst (fst f))) face_data) in
         let expected_set : gset nat := list_to_set (default [] (expected !! sensor_idx)) in
         (actual = expected_set -> expected_set <> ∅ ->
          optimization.coverage_score expected sensor_idx face_data = Some 1%R)
         /\ (actual ∩ expected_set = ∅ ->
             optimization.coverage_score expected sensor_idx face_data = Some 0%R)).
Proof.
  assert (Hgen : forall (T : Type) (Sc : Scalar T) (expected : gmap nat (list nat))
          (sensor_idx : nat) (face_data : list (nat * T * T * Vec3 T)),
      let actual : gset nat := list_to_set (map (fun f => fst (fst (fst f))) face_data) in
      let expected_set : gset nat := list_to_set (default [] (expected !! sensor_idx)) in
      optimization.coverage_score expected sensor_idx face_data
      = Some (of_Z (Z.of_nat (size (actual ∩ expected_set)))
              / of_Z (Z.of_nat (Nat.max (size expected_set) 1)))%num).
  { intros T Sc expected sensor_idx face_data actual expected_set.
    unfold optimization.coverage_score, py_truediv.
    fold actual. fold expected_set.
    replace (Z.max (Z.of_nat (size expected_set)) 1)
      with (Z.of_nat (Nat.max (size expected_set) 1)) by lia.
    destruct (Z.eqb_spec (Z.of_nat (Nat.max (size expected_set) 1)) 0) as [E | _];
      [lia | reflexivity]. }
  split; [exact Hgen |].
  intros expected sensor_idx face_data actual expected_set. split.
  - intros Heq Hne. rewrite Hgen. fold actual. fold expected_set. f_equal.
    rewrite Heq, (idemp_L (∩)).
    assert (Hsize : (0 < size expected_set)%nat).
    { apply Nat.neq_0_lt_0. intros E. apply size_empty_inv in E.
      apply Hne. apply leibniz_equiv, E. }
    replace (Nat.max (size expected_set) 1) with (size expected_set) by lia.
    real_ops. pose proof (IZR_of_nat_pos _ Hsize). field. lra.
  - intros Hdisj. rewrite Hgen. fold actual. fold expected_set. f_equal.
    rewrite Hdisj, size_empty. real_ops. simpl.
    assert (Hpos : (0 < IZR (Z.of_nat (Nat.max (size expected_set) 1)))%R)
      by (apply IZR_of_nat_pos; lia).
    unfold Rdiv. apply Rmult_0_l.
Qed.

(** Sensor 0 of optimization.py sees exactly its expected faces 0, 1 and 5:
    its score is 1. *)
Lemma coverage_score_formula_witness :
  optimization.coverage_score (T := R) optimization.expected_visible_faces 0
    [ (0%nat, 0%R, 0%R, origin); (1%nat, 0%R, 0%R, origin); (5%nat, 0%R, 0%R, origin) ]
  = Some 1%R.
Proof.
  apply (proj2 coverage_score_formula).
  - reflexivity.
  - intros E. apply (f_equal size) in E. vm_compute in E. discriminate E.
Defined.

(** ** Real trigonometry behind the Euler angles *)

Section RealTrig.
Local Open Scope R_scope.

Lemma degrees_radians (x : R) : np_degrees (np_radians x) = x.
Proof.
  unfold np_degrees, np_radians. real_ops. pose proof PI_RGT_0. field. lra.
Qed.

Lemma radians_degrees (x : R) : np_radians (np_degrees x) = x.
Proof.
  unfold np_degrees, np_radians. real_ops. pose proof PI_RGT_0. field. lra.
Qed.

Lemma radians_range (x lo hi : R) :
  lo < x <= hi -> np_radians lo < np_radians x <= np_radians hi.
Proof.
  unfold np_radians. real_ops. pose proof PI_RGT_0 as Hpi. intros [H1 H2].
  assert (0 < PI / 180) by lra. split; nra.
Qed.

Lemma cos_pos_range t : - PI < t <= PI -> 0 < cos t -> - (PI / 2) < t < PI / 2.
Proof.
  intros [Hlo Hhi] Hc. pose proof PI_RGT_0 as Hpi. split.
  - destruct (Rlt_dec (- (PI / 2)) t) as [Hlt | Hge]; [exact Hlt | exfalso].
    assert (Hle : cos (- t) <= 0) by (apply cos_le_0; lra).
    rewrite cos_neg in Hle. lra.
  - destruct (Rlt_dec t (PI / 2)) as [Hlt | Hge]; [exact Hlt | exfalso].
    assert (Hle : cos t <= 0) by (apply cos_le_0; lra). lra.
Qed.

Lemma tan_plus_PI t : cos t <> 0 -> tan (t + PI) = tan t.
Proof. intros Hc. unfold tan. rewrite neg_sin, neg_cos. field. exact Hc. Qed.

Lemma tan_minus_PI t : cos t <> 0 -> tan (t - PI) = tan t.
Proof.
  intros Hc. unfold tan. replace (t - PI) with (- (PI - t)) by lra.
  rewrite sin_neg, cos_neg, sin_PI_x, Rtrigo_facts.cos_pi_minus. field. exact Hc.
Qed.

Lemma cos_zero_half_pi t :
  - PI < t <= PI -> cos t = 0 -> t = PI / 2 \/ t = - (PI / 2).
Proof.
  intros [Hlo Hhi] Hc. pose proof PI_RGT_0 as Hpi.
  destruct (Rtotal_order t (PI / 2)) as [Hlt | [Heq | Hgt]]; [| auto |].
  - destruct (Rtotal_order t (- (PI / 2))) as [Hlt' | [Heq' | Hgt']]; [| auto |].
    + exfalso. assert (Hcn : cos (- t) < 0) by (apply cos_lt_0; lra).
      rewrite cos_neg in Hcn. lra.
    + exfalso. assert (0 < cos t) by (apply cos_gt_0; lra). lra.
  - exfalso. assert (cos t < 0) by (apply cos_lt_0; lra). lra.
Qed.

(** [arctan2] inverts the polar form on the principal range (-pi, pi]. *)
Lemma Ratan2_polar r t :
  0 < r -> - PI < t <= PI -> Ratan2 (r * sin t) (r * cos t) = t.
Proof.
  intros Hr [Hlo Hhi]. pose proof PI_RGT_0 as Hpi. unfold Ratan2.
  destruct (Rlt_dec 0 (r * cos t)) as [Hpos | Hnpos].
  - assert (Hc : 0 < cos t) by nra.
    destruct (cos_pos_range t (conj Hlo Hhi) Hc) as [H1 H2].
    replace (r * sin t / (r * cos t)) with (tan t) by (unfold tan; field; lra).
    apply atan_tan. lra.
  - destruct (Rlt_dec (r * cos t) 0) as [Hneg | Hnneg].
    + assert (Hc : cos t < 0) by nra.
      replace (r * sin t / (r * cos t)) with (tan t) by (unfold tan; field; lra).
      destruct (Rle_dec 0 (r * sin t)) as [Hs | Hs].
      * assert (Hs' : 0 <= sin t) by nra.
        assert (Ht : PI / 2 < t).
        { destruct (Rlt_dec (PI / 2) t) as [Hlt | Hge]; [exact Hlt | exfalso].
          destruct (Rle_dec (- (PI / 2)) t) as [Hle | Hnle].
          - assert (0 <= cos t) by (apply cos_ge_0; lra). lra.
          - assert (sin t < 0) by (apply sin_lt_0_var; lra). lra. }
        rewrite <- (tan_minus_PI t) by lra.
        rewrite atan_tan by lra. lra.
      * assert (Hs' : sin t < 0) by nra.
        assert (Ht : t < - (PI / 2)).
        { destruct (Rlt_dec t (- (PI / 2))) as [Hlt | Hge]; [exact Hlt | exfalso].
          destruct (Rle_dec t (PI / 2)) as [Hle | Hnle].
          - assert (0 <= cos t) by (apply cos_ge_0; lra). lra.
          - assert (0 <= sin t) by (apply sin_ge_0; lra). lra. }
        rewrite <- (tan_plus_PI t) by lra.
        rewrite atan_tan by lra. lra.
    + assert (Hc : cos t = 0) by nra.
      destruct (cos_zero_half_pi t (conj Hlo Hhi) Hc) as [-> | ->].
      * rewrite sin_PI2.
        destruct (Rlt_dec 0 (r * 1)) as [_ | Hn]; [reflexivity | lra].
      * rewrite sin_neg, sin_PI2.
        destruct (Rlt_dec 0 (r * - (1))) as [Hp | _]; [lra |].
        destruct (Rlt_dec (r * - (1)) 0) as [_ | Hn]; [reflexivity | lra].
Qed.

Lemma Ratan2_0_0 : Ratan2 0 0 = 0.
Proof.
  unfold Ratan2. destruct (Rlt_dec 0 0) as [Hlt | _]; [lra | reflexivity].
Qed.

End RealTrig.

(** ** Euler angles *)

Section Euler.
Local Open Scope R_scope.

Lemma testing_euler_unfold (m : Mat3 R) :
  let sy := R_sqrt.sqrt (vx (vx m) * vx (vx m) + vx (vy m) * vx (vy m)) in
  Testing_with_Euler_angles.rotation_matrix_to_euler_angles m
  = if Rlt_dec sy singular_threshold
    then mkVec3 (np_degrees (Ratan2 (- vz (vy m)) (vy (vy m))))
                (np_degrees (Ratan2 (- vx (vz m)) sy))
                (np_degrees 0)
    else mkVec3 (np_degrees (Ratan2 (vy (vz m)) (vz (vz m))))
                (np_degrees (Ratan2 (- vx (vz m)) sy))
                (np_degrees (Ratan2 (vx (vy m)) (vx (vx m)))).
Proof.
  intros sy. unfold Testing_with_Euler_angles.rotation_matrix_to_euler_angles.
  real_ops. fold sy. unfold Rltb, singular_threshold.
  destruct (Rlt_dec sy (1 / 1000000)); reflexivity.
Qed.

Lemma degrees_0 : np_degrees 0 = 0.
Proof. unfold np_degrees. real_ops. apply Rmult_0_l. Qed.

Lemma degrees_PI : np_degrees PI = 180.
Proof. unfold np_degrees. real_ops. pose proof PI_RGT_0. field. lra. Qed.

Lemma orthogonal_first_column_third_row (m : Mat3 R) :
  orthogonal m ->
  vx (vx m) * vx (vx m) + vx (vy m) * vx (vy m)
  = vy (vz m) * vy (vz m) + vz (vz m) * vz (vz m).
Proof.
  destruct m as [[a b c] [d e f] [g h i]]. intros [H1 H2].
  unfold matmul, mrow_mul, transpose, mcol, np_dot, identity3 in H1, H2.
  simpl in H1, H2. injection H1 as H1 _ _ _ _ _ _ _ _.
  injection H2 as _ _ _ _ _ _ _ _ H2. simpl. lra.
Qed.

(** On an orthogonal matrix the function of Testing_with_Euler_angles.py
    returns the three standard angles away from the singularity and the
    fallback [alpha = atan2(-R12, R11)], [theta = 0] at the singularity. *)
Lemma testing_euler_on_rotations (m : Mat3 R) :
  orthogonal m ->
  let sy := R_sqrt.sqrt (vx (vx m) * vx (vx m) + vx (vy m) * vx (vy m)) in
  let e := Testing_with_Euler_angles.rotation_matrix_to_euler_angles m in
  (singular_threshold <= sy ->
   e = mkVec3 (np_degrees (Ratan2 (vy (vz m)) (vz (vz m))))
              (np_degrees (Ratan2 (- vx (vz m))
                             (R_sqrt.sqrt (vy (vz m) * vy (vz m) + vz (vz m) * vz (vz m)))))
              (np_degrees (Ratan2 (vx (vy m)) (vx (vx m)))))
  /\ (sy < singular_threshold ->
      vx e = np_degrees (Ratan2 (- vz (vy m)) (vy (vy m))) /\ vz e = 0).
Proof.
  intros Horth sy e. unfold e. rewrite testing_euler_unfold. fold sy.
  split; intros Hsy.
  - destruct (Rlt_dec sy singular_threshold) as [Hlt | _]; [lra |].
    unfold sy. rewrite (orthogonal_first_column_third_row m Horth). reflexivity.
  - destruct (Rlt_dec sy singular_threshold) as [_ | Hn]; [| lra].
    simpl. split; [reflexivity | apply degrees_0].
Qed.

Lemma orientation_euler_unfold (m : Mat3 R) :
  orientation.rotation_matrix_to_euler_angles m
  = mkVec3 (np_degrees (Ratan2 (vy (vz m)) (vz (vz m))))
           (np_degrees (Ratan2 (- vx (vz m))
                          (R_sqrt.sqrt (vy (vz m) * vy (vz m) + vz (vz m) * vz (vz m)))))
           (np_degrees (Ratan2 (vx (vy m)) (vx (vx m)))).
Proof. reflexivity. Qed.

Lemma gimbal_locked_orthogonal : orthogonal gimbal_locked.
Proof.
  unfold orthogonal, gimbal_locked, identity3, matmul, mrow_mul, transpose, mcol,
    np_dot. simpl. split; f_equal; f_equal; lra.
Qed.

Lemma gimbal_locked_is_singular :
  R_sqrt.sqrt (vx (vx gimbal_locked) * vx (vx gimbal_locked)
        + vx (vy gimbal_locked) * vx (vy gimbal_locked)) < singular_threshold.
Proof.
  simpl. replace (0 * 0 + 0 * 0) with 0 by lra. rewrite sqrt_0.
  unfold singular_threshold. lra.
Qed.

End Euler.

Section RoundTrip.
Local Open Scope R_scope.

Lemma euler_to_matrix_entries (a b c : R) :
  let A := np_radians a in
  let B := np_radians b in
  let C := np_radians c in
  euler_to_matrix a b c
  = mkVec3
      (mkVec3 (cos C * cos B)
              (cos C * sin B * sin A - sin C * cos A)
              (cos C * sin B * cos A + sin C * sin A))
      (mkVec3 (sin C * cos B)
              (sin C * sin B * sin A + cos C * cos A)
              (sin C * sin B * cos A - cos C * sin A))
      (mkVec3 (- sin B) (cos B * sin A) (cos B * cos A)).
Proof.
  intros A B C.
  unfold euler_to_matrix, matmul, mrow_mul, mcol, np_dot, rotation_matrix_x,
    rotation_matrix_y, rotation_matrix_z.
  real_ops. fold A B C. cbn [vx vy vz]. f_equal; f_equal; ring.
Qed.

Lemma sqrt_first_column (B C : R) :
  0 <= cos B ->
  R_sqrt.sqrt (cos C * cos B * (cos C * cos B) + sin C * cos B * (sin C * cos B))
  = cos B.
Proof.
  intros HB.
  replace (cos C * cos B * (cos C * cos B) + sin C * cos B * (sin C * cos B))
    with ((sin C * sin C + cos C * cos C) * (cos B * cos B)) by ring.
  pose proof (sin2_cos2 C) as Hsc. unfold Rsqr in Hsc. rewrite Hsc, Rmult_1_l.
  apply sqrt_square, HB.
Qed.

(** Away from the singularity and on the principal ranges the extraction
    inverts the composition. *)
Lemma round_trip_regular (a b c : R) :
  - 180 < a <= 180 -> - 90 < b < 90 -> - 180 < c <= 180 ->
  singular_threshold <= cos (np_radians b) ->
  Testing_with_Euler_angles.rotation_matrix_to_euler_angles (euler_to_matrix a b c)
  = mkVec3 a b c.
Proof.
  intros Ha Hb Hc Hsing. pose proof PI_RGT_0 as Hpi.
  assert (HA : - PI < np_radians a <= PI).
  { unfold np_radians. real_ops. split; nra. }
  assert (HB : - (PI / 2) < np_radians b < PI / 2).
  { unfold np_radians. real_ops. split; nra. }
  assert (HC : - PI < np_radians c <= PI).
  { unfold np_radians. real_ops. split; nra. }
  assert (HcB : 0 < cos (np_radians b)) by (apply cos_gt_0; lra).
  rewrite testing_euler_unfold, euler_to_matrix_entries. cbn [vx vy vz].
  rewrite sqrt_first_column by lra.
  destruct (Rlt_dec (cos (np_radians b)) singular_threshold) as [Hlt | _]; [lra |].
  rewrite Ropp_involutive.
  replace (sin (np_radians c) * cos (np_radians b))
    with (cos (np_radians b) * sin (np_radians c)) by ring.
  replace (cos (np_radians c) * cos (np_radians b))
    with (cos (np_radians b) * cos (np_radians c)) by ring.
  rewrite !Ratan2_polar by lra.
  replace (Ratan2 (sin (np_radians b)) (cos (np_radians b)))
    with (Ratan2 (1 * sin (np_radians b)) (1 * cos (np_radians b)))
    by (rewrite !Rmult_1_l; reflexivity).
  rewrite Ratan2_polar by lra.
  rewrite !degrees_radians. reflexivity.
Qed.

End RoundTrip.

Section Poles.
Local Open Scope R_scope.

Lemma radians_0 : np_radians 0 = 0.
Proof. unfold np_radians. real_ops. lra. Qed.

Lemma radians_90 : np_radians 90 = PI / 2.
Proof. unfold np_radians. real_ops. lra. Qed.

Lemma radians_neg_90 : np_radians (- 90) = - (PI / 2).
Proof. unfold np_radians. real_ops. lra. Qed.

Lemma radians_180 : np_radians 180 = PI.
Proof. unfold np_radians. real_ops. lra. Qed.

Lemma radians_plus (x y : R) : np_radians (x + y) = np_radians x + np_radians y.
Proof. unfold np_radians. real_ops. lra. Qed.

Lemma radians_minus (x y : R) : np_radians (x - y) = np_radians x - np_radians y.
Proof. unfold np_radians. real_ops. lra. Qed.

Lemma degrees_half_PI : np_degrees (PI / 2) = 90.
Proof. unfold np_degrees. real_ops. pose proof PI_RGT_0. field. lra. Qed.

Lemma degrees_opp (x : R) : np_degrees (- x) = - np_degrees x.
Proof. unfold np_degrees. real_ops. lra. Qed.

Lemma Ratan2_pos_0 (y : R) : 0 < y -> Ratan2 y 0 = PI / 2.
Proof.
  intros Hy. unfold Ratan2.
  destruct (Rlt_dec 0 0) as [H | _]; [lra |].
  destruct (Rlt_dec 0 y) as [_ | H]; [reflexivity | lra].
Qed.

Lemma Ratan2_neg_0 (y : R) : y < 0 -> Ratan2 y 0 = - (PI / 2).
Proof.
  intros Hy. unfold Ratan2.
  destruct (Rlt_dec 0 0) as [H | _]; [lra |].
  destruct (Rlt_dec 0 y) as [H | _]; [lra |].
  destruct (Rlt_dec y 0) as [_ | H]; [reflexivity | lra].
Qed.

Lemma Ratan2_unit (t : R) : - PI < t <= PI -> Ratan2 (sin t) (cos t) = t.
Proof.
  intros Ht. rewrite <- (Rmult_1_l (sin t)), <- (Rmult_1_l (cos t)).
  apply Ratan2_polar; [lra | exact Ht].
Qed.

(** At [beta = 90] the extraction returns the difference [a - c] as
    [alpha], and [theta = 0]. *)
Lemma round_trip_north (a c : R) :
  - 180 < a - c <= 180 ->
  Testing_with_Euler_angles.rotation_matrix_to_euler_angles (euler_to_matrix a 90 c)
  = mkVec3 (a - c) 90 0.
Proof.
  intros Hac. pose proof PI_RGT_0 as Hpi.
  assert (HAC : - PI < np_radians (a - c) <= PI).
  { unfold np_radians. real_ops. split; nra. }
  rewrite testing_euler_unfold, euler_to_matrix_entries. cbn [vx vy vz].
  rewrite radians_90, cos_PI2, sin_PI2.
  replace (cos (np_radians c) * 0 * (cos (np_radians c) * 0)
           + sin (np_radians c) * 0 * (sin (np_radians c) * 0)) with 0 by ring.
  rewrite sqrt_0.
  destruct (Rlt_dec 0 singular_threshold) as [_ | Hn];
    [| unfold singular_threshold in Hn; lra].
  replace (- (sin (np_radians c) * 1 * cos (np_radians a)
              - cos (np_radians c) * sin (np_radians a)))
    with (sin (np_radians (a - c))) by (rewrite radians_minus, sin_minus; ring).
  replace (sin (np_radians c) * 1 * sin (np_radians a)
           + cos (np_radians c) * cos (np_radians a))
    with (cos (np_radians (a - c))) by (rewrite radians_minus, cos_minus; ring).
  rewrite Ratan2_unit by exact HAC.
  rewrite Ropp_involutive, Ratan2_pos_0 by lra.
  rewrite degrees_radians, degrees_half_PI, degrees_0. reflexivity.
Qed.

(** At [beta = -90] it returns the sum [a + c] as [alpha], and
    [theta = 0]. *)
Lemma round_trip_south (a c : R) :
  - 180 < a + c <= 180 ->
  Testing_with_Euler_angles.rotation_matrix_to_euler_angles
    (euler_to_matrix a (- 90) c)
  = mkVec3 (a + c) (- 90) 0.
Proof.
  intros Hac. pose proof PI_RGT_0 as Hpi.
  assert (HAC : - PI < np_radians (a + c) <= PI).
  { unfold np_radians. real_ops. split; nra. }
  rewrite testing_euler_unfold, euler_to_matrix_entries. cbn [vx vy vz].
  rewrite radians_neg_90, cos_neg, sin_neg, cos_PI2, sin_PI2.
  replace (cos (np_radians c) * 0 * (cos (np_radians c) * 0)
           + sin (np_radians c) * 0 * (sin (np_radians c) * 0)) with 0 by ring.
  rewrite sqrt_0.
  destruct (Rlt_dec 0 singular_threshold) as [_ | Hn];
    [| unfold singular_threshold in Hn; lra].
  replace (- (sin (np_radians c) * - (1) * cos (np_radians a)
              - cos (np_radians c) * sin (np_radians a)))
    with (sin (np_radians (a + c))) by (rewrite radians_plus, sin_plus; ring).
  replace (sin (np_radians c) * - (1) * sin (np_radians a)
           + cos (np_radians c) * cos (np_radians a))
    with (cos (np_radians (a + c))) by (rewrite radians_plus, cos_plus; ring).
  rewrite Ratan2_unit by exact HAC.
  rewrite Ropp_involutive, Ratan2_neg_0 by lra.
  rewrite degrees_radians, degrees_opp, degrees_half_PI, degrees_0. reflexivity.
Qed.

Lemma Ratan2_zero_neg (y x : R) : y = 0 -> x < 0 -> Ratan2 y x = PI.
Proof.
  intros -> Hx. unfold Ratan2.
  destruct (Rlt_dec 0 x) as [H | _]; [lra |].
  destruct (Rlt_dec x 0) as [_ | H]; [| lra].
  destruct (Rle_dec 0 0) as [_ | H]; [| lra].
  unfold Rdiv. rewrite Rmult_0_l, atan_0. lra.
Qed.

Lemma Ratan2_zero_pos (y x : R) : y = 0 -> 0 < x -> Ratan2 y x = 0.
Proof.
  intros -> Hx. unfold Ratan2.
  destruct (Rlt_dec 0 x) as [_ | H]; [| lra].
  unfold Rdiv. rewrite Rmult_0_l. apply atan_0.
Qed.

(** A half turn about Y comes back as a half turn about X and a half turn
    about Z. *)
Lemma half_turn_about_y :
  Testing_with_Euler_angles.rotation_matrix_to_euler_angles (euler_to_matrix 0 180 0)
  = mkVec3 180 0 180.
Proof.
  pose proof PI_RGT_0 as Hpi.
  rewrite testing_euler_unfold, euler_to_matrix_entries. cbn [vx vy vz].
  rewrite radians_0, radians_180, cos_0, sin_0, cos_PI, sin_PI.
  match goal with
  | |- context [R_sqrt.sqrt ?e] => replace e with 1 by ring
  end.
  rewrite sqrt_1.
  destruct (Rlt_dec 1 singular_threshold) as [Hlt | _];
    [unfold singular_threshold in Hlt; lra |].
  rewrite (Ratan2_zero_neg (-1 * 0) (-1 * 1)) by lra.
  rewrite (Ratan2_zero_neg (0 * -1) (1 * -1)) by lra.
  rewrite (Ratan2_zero_pos (- - 0) 1) by lra.
  rewrite degrees_PI, degrees_0. reflexivity.
Qed.

End Poles.

Section EulerClaims.
Local Open Scope R_scope.

(** [gimbal_locked] is what orientation.py builds when the clock gives
    [angle_y = 90] and [angle_x = 180]. *)
Lemma gimbal_locked_from_clock :
  orientation.get_calibration_object_rotation (T := R) 90 180 = gimbal_locked.
Proof.
  unfold orientation.get_calibration_object_rotation, rotation_matrix_x,
    rotation_matrix_y, matmul, mrow_mul, mcol, np_dot, gimbal_locked.
  rewrite radians_90, radians_180. real_ops.
  rewrite cos_PI, sin_PI, cos_PI2, sin_PI2. cbn [vx vy vz].
  f_equal; f_equal; lra.
Qed.

(** C6: on a rotation matrix the function of Testing_with_Euler_angles.py
    returns [alpha = atan2(R21, R22)],
    [beta = atan2(-R20, sqrt(R21^2 + R22^2))], [theta = atan2(R10, R00)] in
    degrees when [sqrt(R00^2 + R10^2) >= 1e-6], and [alpha = atan2(-R12, R11)],
    [theta = 0] below that threshold.  The function of orientation.py has
    the three standard formulas and no singular branch: on the rotation
    [Rx(180) @ Ry(90)], which is singular, it returns [alpha = 0] where the
    singular branch gives 180. *)
Theorem euler_extraction_and_singular_branch :
  (forall m : Mat3 R,
      orthogonal m ->
      let sy := R_sqrt.sqrt (vx (vx m) * vx (vx m) + vx (vy m) * vx (vy m)) in
      let e := Testing_with_Euler_angles.rotation_matrix_to_euler_angles m in
      (singular_threshold <= sy ->
       e = mkVec3 (np_degrees (Ratan2 (vy (vz m)) (vz (vz m))))
                  (np_degrees
                     (Ratan2 (- vx (vz m))
                        (R_sqrt.sqrt (vy (vz m) * vy (vz m) + vz (vz m) * vz (vz m)))))
                  (np_degrees (Ratan2 (vx (vy m)) (vx (vx m)))))
      /\ (sy < singular_threshold ->
          vx e = np_degrees (Ratan2 (- vz (vy m)) (vy (vy m))) /\ vz e = 0))
  /\ (forall m : Mat3 R,
         orientation.rotation_matrix_to_euler_angles m
         = mkVec3 (np_degrees (Ratan2 (vy (vz m)) (vz (vz m))))
                  (np_degrees
                     (Ratan2 (- vx (vz m))
                        (R_sqrt.sqrt (vy (vz m) * vy (vz m) + vz (vz m) * vz (vz m)))))
                  (np_degrees (Ratan2 (vx (vy m)) (vx (vx m)))))
  /\ (orthogonal gimbal_locked
      /\ R_sqrt.sqrt (vx (vx gimbal_locked) * vx (vx gimbal_locked)
                      + vx (vy gimbal_locked) * vx (vy gimbal_locked))
         < singular_threshold
      /\ vx (orientation.rotation_matrix_to_euler_angles gimbal_locked) = 0
      /\ vx (Testing_with_Euler_angles.rotation_matrix_to_euler_angles gimbal_locked)
         = 180).
Proof.
  split; [exact testing_euler_on_rotations |].
  split; [exact orientation_euler_unfold |].
  split; [exact gimbal_locked_orthogonal |].
  split; [exact gimbal_locked_is_singular |].
  split.
  - rewrite orientation_euler_unfold. cbn [vx vy vz gimbal_locked].
    rewrite Ratan2_0_0. apply degrees_0.
  - destruct (testing_euler_on_rotations gimbal_locked gimbal_locked_orthogonal)
      as [_ Hsing].
    destruct (Hsing gimbal_locked_is_singular) as [-> _].
    cbn [vx vy vz gimbal_locked].
    rewrite (Ratan2_zero_neg (- 0) (-1)) by lra. apply degrees_PI.
Qed.

(** The identity is a rotation and is not singular: the three angles of the
    function of Testing_with_Euler_angles.py are the standard ones. *)
Lemma euler_extraction_witness :
  Testing_with_Euler_angles.rotation_matrix_to_euler_angles identity3
  = mkVec3 (np_degrees (Ratan2 0 1))
           (np_degrees (Ratan2 (- 0) (R_sqrt.sqrt (0 * 0 + 1 * 1))))
           (np_degrees (Ratan2 0 1)).
Proof.
  apply (proj1 euler_extraction_and_singular_branch identity3).
  - unfold orthogonal, identity3, matmul, mrow_mul, transpose, mcol, np_dot.
    simpl. split; f_equal; f_equal; lra.
  - cbn [vx vy vz identity3]. replace (1 * 1 + 0 * 0) with 1 by lra.
    rewrite sqrt_1. unfold singular_threshold. lra.
Defined.

(** The round trip fails outside the principal ranges, and at [beta = 90]
    the sum [alpha + theta] is not kept: (0, 180, 0) comes back as
    (180, 0, 180) and (0, 90, 90) as (-90, 90, 0). *)
Lemma euler_round_trip_fails :
  Testing_with_Euler_angles.rotation_matrix_to_euler_angles (euler_to_matrix 0 180 0)
  = mkVec3 180 0 180
  /\ mkVec3 180 0 180 <> mkVec3 0 180 0
  /\ Testing_with_Euler_angles.rotation_matrix_to_euler_angles
       (euler_to_matrix 0 90 90)
     = mkVec3 (- 90) 90 0
  /\ - 90 + 0 <> 0 + 90.
Proof.
  split; [exact half_turn_about_y |].
  split; [intros E; injection E; intros; lra |].
  split; [| lra].
  rewrite (round_trip_north 0 90) by lra. f_equal. lra.
Qed.

(** C7 (amended): with [eulerToMatrix(a,b,c) = Rz(c) @ Ry(b) @ Rx(a)], the
    extraction returns (a, b, c) when a and c are in (-180, 180], b is in
    (-90, 90) and cos(b) is at least the singular threshold 1e-6; at
    [b = -90] it returns (a + c, -90, 0), keeping the sum, and at [b = 90]
    it returns (a - c, 90, 0), keeping the difference (both for a result in
    (-180, 180]). *)
Theorem euler_round_trip :
  (forall a b c : R,
      - 180 < a <= 180 -> - 90 < b < 90 -> - 180 < c <= 180 ->
      singular_threshold <= cos (np_radians b) ->
      Testing_with_Euler_angles.rotation_matrix_to_euler_angles
        (euler_to_matrix a b c)
      = mkVec3 a b c)
  /\ (forall a c : R,
         - 180 < a + c <= 180 ->
         Testing_with_Euler_angles.rotation_matrix_to_euler_angles
           (euler_to_matrix a (- 90) c)
         = mkVec3 (a + c) (- 90) 0)
  /\ (forall a c : R,
         - 180 < a - c <= 180 ->
         Testing_with_Euler_angles.rotation_matrix_to_euler_angles
           (euler_to_matrix a 90 c)
         = mkVec3 (a - c) 90 0).
Proof.
  split; [exact round_trip_regular |].
  split; [exact round_trip_south | exact round_trip_north].
Qed.

(** The composition [Rz(c) @ Rx(a)] of Testing_with_Euler_angles.py is the
    case [b = 0]. *)
Lemma z_then_x_is_euler (a c : R) :
  matmul (rotation_matrix_z c) (rotation_matrix_x a) = euler_to_matrix a 0 c.
Proof.
  rewrite euler_to_matrix_entries. rewrite radians_0, cos_0, sin_0.
  unfold matmul, mrow_mul, mcol, np_dot, rotation_matrix_x, rotation_matrix_z.
  real_ops. cbn [vx vy vz]. f_equal; f_equal; ring.
Qed.

(** Every sensor of Testing_with_Euler_angles.py gets back the two angles
    it was configured with. *)
Lemma configured_angles_come_back :
  map (fun idx => Testing_with_Euler_angles.rotation_matrix_to_euler_angles
                    (Testing_with_Euler_angles.get_sensor_rotation idx))
      (seq 0 6)
  = [ mkVec3 42 0 30; mkVec3 42 0 60; mkVec3 42 0 90;
      mkVec3 60 0 30; mkVec3 60 0 60; mkVec3 60 0 90 ].
Proof.
  assert (Hreg : forall a c : R,
             - 180 < a <= 180 -> - 180 < c <= 180 ->
             Testing_with_Euler_angles.rotation_matrix_to_euler_angles
               (matmul (rotation_matrix_z c) (rotation_matrix_x a))
             = mkVec3 a 0 c).
  { intros a c Ha Hc. rewrite z_then_x_is_euler.
    apply round_trip_regular; try lra.
    rewrite radians_0, cos_0. unfold singular_threshold. lra. }
  cbn [map seq Testing_with_Euler_angles.get_sensor_rotation]. real_ops.
  rewrite !Hreg by lra. reflexivity.
Qed.

(** The angles of sensor 0 of Testing_with_Euler_angles.py, 42 degrees about
    X and 30 about Z, come back unchanged. *)
Lemma euler_round_trip_witness :
  Testing_with_Euler_angles.rotation_matrix_to_euler_angles (euler_to_matrix 42 0 30)
  = mkVec3 42 0 30.
Proof.
  apply (proj1 euler_round_trip); try lra.
  rewrite radians_0, cos_0. unfold singular_threshold. lra.
Defined.

End EulerClaims.

(** ** The rig tables and the objective *)

Section Rig.
Context {T : Type} `{Scalar T} `{Libm T}.

Lemma visit_sensor_records sensor vertices faces rows distances angles visible_faces :
  mapM (face_rows vertices) faces = Some rows ->
  Objective_function.visit_sensor vertices faces
    (distances, angles, visible_faces) sensor
  = Some (distances ++ map pair_distance (map (pair sensor) (visible_rows sensor 0 rows)),
          angles ++ map pair_angle (map (pair sensor) (visible_rows sensor 0 rows)),
          visible_faces ++ [map fst (visible_rows sensor 0 rows)]).
Proof.
  intros Hrows. unfold Objective_function.visit_sensor, enumerate.
  rewrite face_loop_records, Hrows. simpl. rewrite !map_map. reflexivity.
Qed.

Lemma rig_loop_records vertices faces rows :
  mapM (face_rows vertices) faces = Some rows ->
  forall sensors distances angles visible_faces,
    for_loop (Objective_function.visit_sensor vertices faces) sensors
             (distances, angles, visible_faces)
    = Some (distances ++ map pair_distance (visible_pairs sensors rows),
            angles ++ map pair_angle (visible_pairs sensors rows),
            visible_faces
              ++ map (fun s => map fst (visible_rows s 0 rows)) sensors).
Proof.
  intros Hrows. induction sensors as [| s rest IH]; intros distances angles visible_faces.
  - simpl. rewrite !app_nil_r. reflexivity.
  - cbn [for_loop]. rewrite (visit_sensor_records _ _ _ rows) by exact Hrows.
    cbn [mbind option_bind]. rewrite IH. cbn [visible_pairs map].
    rewrite !map_app, <- !app_assoc. reflexivity.
Qed.

Lemma rig_loop_index_error vertices faces :
  mapM (face_rows vertices) faces = None ->
  forall sensors st,
    sensors = [] \/ for_loop (Objective_function.visit_sensor vertices faces) sensors st
                    = None.
Proof.
  intros Hrows [| s rest] st; [left; reflexivity | right].
  destruct st as [[distances angles] visible_faces]. cbn [for_loop].
  unfold Objective_function.visit_sensor, enumerate.
  rewrite face_loop_records, Hrows. reflexivity.
Qed.

Lemma visible_pairs_visible sensors rows :
  Forall (fun p => back_face_visible (fst p) (snd (snd p)) = true)
         (visible_pairs sensors rows).
Proof.
  induction sensors as [| s rest IH]; simpl; [constructor |].
  apply Forall_app. split; [| exact IH].
  apply Forall_forall. intros p Hp. apply list_elem_of_In, in_map_iff in Hp.
  destruct Hp as (e & <- & He). unfold visible_rows in He.
  apply filter_In in He. simpl. apply He.
Qed.
End Rig.

(** ** The angle penalty *)

Section AnglePenalty.
Local Open Scope R_scope.

Lemma np_dot_comm (u v : Vec3 R) : np_dot u v = np_dot v u.
Proof. unfold np_dot. real_ops. ring. Qed.

Lemma Rltb_true (x y : R) : Rltb x y = true <-> x < y.
Proof. unfold Rltb. destruct (Rlt_dec x y); split; intros; (lra || congruence). Qed.

Lemma np_clip_positive (d : R) :
  0 < d -> 0 < np_clip d (-1) 1 <= 1.
Proof.
  intros Hd. unfold np_clip. real_ops. unfold Rltb.
  destruct (Rlt_dec d (-1)) as [Hlt | _]; [lra |].
  destruct (Rlt_dec 1 d); lra.
Qed.

Lemma acos_of_positive (c : R) : 0 < c <= 1 -> 0 <= acos c < PI / 2.
Proof.
  intros Hc. pose proof PI_RGT_0 as Hpi.
  destruct (acos_bound c) as [Hlo Hhi]. split; [exact Hlo |].
  destruct (Rlt_dec (acos c) (PI / 2)) as [Hlt | Hge]; [exact Hlt | exfalso].
  assert (Hcos : cos (acos c) <= 0) by (apply cos_le_0; lra).
  rewrite cos_acos in Hcos by lra. lra.
Qed.

(** A face that passes the back-face test is seen under an angle in
    [0, 90), and the denominator of its penalty is above 1. *)
Lemma visible_angle_bound (sensor : Vec3 R) (fv : Vec3 R * Vec3 R * Vec3 R) :
  back_face_visible sensor fv = true ->
  0 <= face_angle sensor fv < 90
  /\ 1 < 1 + cos (np_radians (face_angle sensor fv)).
Proof.
  unfold back_face_visible, face_angle, Objective_function.calculate_angle.
  real_ops. rewrite Rltb_true. intros Hd.
  rewrite (np_dot_comm (normalize _) (calculate_face_normal fv)).
  set (d := np_dot (calculate_face_normal fv) (normalize (vsub sensor (np_mean3 fv)))) in *.
  pose proof (np_clip_positive d Hd) as Hc.
  change (np_clip d (IZR (-1)) (IZR 1)) with (np_clip d (-1) 1).
  set (c := np_clip d (-1) 1) in *.
  pose proof (acos_of_positive c Hc) as [Hlo Hhi].
  pose proof PI_RGT_0 as Hpi.
  rewrite radians_degrees, cos_acos by lra.
  split; [| lra].
  unfold np_degrees. real_ops.
  assert (Hk : 0 < 180 / PI) by (apply Rdiv_lt_0_compat; lra).
  split; [nra |].
  replace 90 with (PI / 2 * (180 / PI)) by (field; lra). nra.
Qed.

End AnglePenalty.

(** C10: every angle that [plot_sensor_and_phases] hands to the objective
    belongs to a (sensor, face) pair that passed the back-face test; over
    the reals each such angle is in [0, 90), the denominator
    [1 + cos(angle)] of its penalty is above 1, and so no term of the
    angle penalty divides by zero. *)
Theorem angle_penalty_denominators_above_one :
  forall (sensors : list (Vec3 R)) (vertices : list (Vec3 R)) (faces : list Face),
    match mapM (face_rows vertices) faces with
    | Some rows =>
        exists distances angles visible_faces,
          Objective_function.rig_tables sensors vertices faces
          = Some (distances, angles, visible_faces)
          /\ angles = map pair_angle (visible_pairs sensors rows)
          /\ Forall (fun angle =>
                       (0 <= angle < 90)%R
                       /\ (1 < 1 + Rtrigo_def.cos (np_radians angle))%R
                       /\ (1 + Rtrigo_def.cos (np_radians angle))%R <> 0%R)
                    angles
    | None =>
        sensors = [] \/ Objective_function.rig_tables sensors vertices faces = None
    end.
Proof.
  intros sensors vertices faces. unfold Objective_function.rig_tables.
  destruct (mapM (face_rows vertices) faces) as [rows |] eqn:Hrows.
  - rewrite (rig_loop_records vertices faces rows Hrows). simpl.
    eexists _, _, _. split; [reflexivity |]. split; [reflexivity |].
    apply Forall_map.
    eapply Forall_impl; [apply visible_pairs_visible |].
    intros [s [i fv]] Hvis. simpl in Hvis. unfold pair_angle. simpl.
    destruct (visible_angle_bound s fv Hvis) as [Hrange Hden].
    assert (Hne : (1 + Rtrigo_def.cos (np_radians (face_angle s fv)))%R <> 0%R)
      by (intros E; lra).
    split; [exact Hrange |]. split; [exact Hden | exact Hne].
  - apply rig_loop_index_error, Hrows.
Qed.

(** ** The rig objective *)

Section Objective.
Local Open Scope R_scope.

Lemma np_sum_from (acc : R) (l : list R) : foldl Rplus acc l = acc + sum_R l.
Proof.
  revert acc. induction l as [| x l IH]; intros acc; simpl; [lra |].
  rewrite IH. unfold sum_R. simpl. lra.
Qed.

Lemma np_sum_sum_R (l : list R) : Objective_function.np_sum l = sum_R l.
Proof.
  unfold Objective_function.np_sum. real_ops. rewrite np_sum_from. lra.
Qed.

Lemma unique_faces_from (acc : gset nat) (visible_faces : list (list nat)) :
  foldl (fun s faces => s ∪ list_to_set faces) acc visible_faces
  = acc ∪ ⋃ (map list_to_set visible_faces).
Proof.
  revert acc. induction visible_faces as [| f rest IH]; intros acc; simpl.
  - rewrite (right_id_L ∅ (∪)). reflexivity.
  - rewrite IH, (assoc_L (∪)). reflexivity.
Qed.

Lemma overlap_inner_step (visible_faces : list (list nat)) (i j acc : nat)
    (fi fj : list nat) :
  visible_faces !! i = Some fi ->
  visible_faces !! j = Some fj ->
  Objective_function.overlap_inner visible_faces i acc j
  = Some (acc + shared_faces fi fj)%nat.
Proof.
  intros Hi Hj. unfold Objective_function.overlap_inner. rewrite Hi, Hj. reflexivity.
Qed.

Lemma overlap_inner_loop (visible_faces : list (list nat)) (i : nat) (fi : list nat) :
  visible_faces !! i = Some fi ->
  forall (m start acc : nat),
    (start + m <= length visible_faces)%nat ->
    for_loop (Objective_function.overlap_inner visible_faces i) (seq start m) acc
    = Some (acc + sum_list (map (shared_faces fi)
                                (take m (drop start visible_faces))))%nat.
Proof.
  intros Hi. induction m as [| m IH]; intros start acc Hlen.
  - simpl. f_equal. lia.
  - destruct (lookup_lt_is_Some_2 visible_faces start) as [fj Hj]; [lia |].
    cbn [seq for_loop]. rewrite (overlap_inner_step _ _ _ _ fi fj Hi Hj).
    cbn [mbind option_bind].
    rewrite IH by lia. rewrite (drop_S _ _ _ Hj). simpl. f_equal. lia.
Qed.

Lemma overlap_outer_loop (visible_faces : list (list nat)) :
  forall (n k acc : nat),
    (k + n = length visible_faces)%nat ->
    for_loop (Objective_function.overlap_outer visible_faces) (seq k n) acc
    = Some (acc + overlap_penalty (drop k visible_faces))%nat.
Proof.
  induction n as [| n IH]; intros k acc Hlen.
  - simpl. rewrite drop_ge by lia. simpl. f_equal. lia.
  - destruct (lookup_lt_is_Some_2 visible_faces k) as [fi Hi]; [lia |].
    cbn [seq for_loop].
    change (Objective_function.overlap_outer visible_faces acc k)
      with (for_loop (Objective_function.overlap_inner visible_faces k)
                     (seq (k + 1) (length visible_faces - (k + 1))) acc).
    rewrite (overlap_inner_loop visible_faces k fi Hi) by lia.
    cbn [mbind option_bind]. rewrite IH by lia.
    rewrite (drop_S _ _ _ Hi). cbn [overlap_penalty].
    replace (k + 1)%nat with (S k) by lia.
    rewrite take_ge by (rewrite length_drop; lia).
    f_equal. lia.
Qed.

Lemma evaluate_coverage_view_plan_formula (sensors_positions : list (Vec3 R))
    (visible_faces : list (list nat)) (distances angles : list R)
    (total_faces : nat) :
  Objective_function.evaluate_coverage_view_plan sensors_positions visible_faces
    distances angles total_faces
  = if Nat.eqb total_faces 0 then None
    else Some (objective_formula visible_faces distances angles total_faces).
Proof.
  unfold Objective_function.evaluate_coverage_view_plan, py_truediv.
  rewrite unique_faces_from, (left_id_L ∅ (∪)).
  rewrite (overlap_outer_loop visible_faces (length visible_faces) 0 0) by lia.
  rewrite drop_0.
  destruct (Nat.eqb_spec total_faces 0) as [-> | Hne]; [reflexivity |].
  destruct (Z.eqb_spec (Z.of_nat total_faces) 0) as [E | _]; [lia |].
  cbn [mbind option_bind Z.eqb]. rewrite !np_sum_sum_R. real_ops.
  unfold objective_formula, coverage_fraction, np_radians. real_ops.
  rewrite !INR_IZR_INZ. reflexivity.
Qed.

End Objective.

(** C3: the objective is
    [coverageFraction - totalDistance/100 - sum of 1/(1+cos(angle)) -
    overlapPenalty/10], with [coverageFraction] the size of the union of the
    sensors' visible sets over [total_faces] and [overlapPenalty] the number
    of shared faces summed over the unordered pairs of sensors; in
    [plot_sensor_and_phases] the distances and the angles range over the
    visible (sensor, face) pairs.  With [total_faces = 0] the division
    raises. *)
Theorem rig_objective_is_the_formula :
  (forall (sensors_positions : list (Vec3 R)) (visible_faces : list (list nat))
          (distances angles : list R) (total_faces : nat),
      Objective_function.evaluate_coverage_view_plan sensors_positions
        visible_faces distances angles total_faces
      = if Nat.eqb total_faces 0 then None
        else Some (objective_formula visible_faces distances angles total_faces))
  /\ (forall (sensors : list (Vec3 R)) (vertices : list (Vec3 R))
             (faces : list Face),
         match mapM (face_rows vertices) faces with
         | Some rows =>
             Objective_function.score_of_rig sensors vertices faces
             = if Nat.eqb (length faces) 0 then None
               else Some (objective_formula
                            (map (fun s => map fst (visible_rows s 0 rows)) sensors)
                            (map pair_distance (visible_pairs sensors rows))
                            (map pair_angle (visible_pairs sensors rows))
                            (length faces))
         | None =>
             sensors = []
             \/ Objective_function.score_of_rig sensors vertices faces = None
         end).
Proof.
  split; [exact evaluate_coverage_view_plan_formula |].
  intros sensors vertices faces.
  unfold Objective_function.score_of_rig, Objective_function.rig_tables.
  destruct (mapM (face_rows vertices) faces) as [rows |] eqn:Hrows.
  - rewrite (rig_loop_records vertices faces rows Hrows). cbn [mbind option_bind app].
    apply evaluate_coverage_view_plan_formula.
  - destruct (rig_loop_index_error vertices faces Hrows sensors ([], [], []))
      as [-> | ->]; [left | right]; reflexivity.
Qed.

(** * More of the code *)

(** ** Rotation matrices *)

Section MatrixAlgebra.
Local Open Scope R_scope.

Lemma matmul_assoc (a b c : Mat3 R) :
  matmul (matmul a b) c = matmul a (matmul b c).
Proof. mat_ring. Qed.

Lemma transpose_matmul (a b : Mat3 R) :
  transpose (matmul a b) = matmul (transpose b) (transpose a).
Proof. mat_ring. Qed.

Lemma matmul_identity_l (a : Mat3 R) : matmul identity3 a = a.
Proof. destruct a as [[? ? ?] [? ? ?] [? ? ?]]. mat_ring. Qed.

Lemma matmul_identity_r (a : Mat3 R) : matmul a identity3 = a.
Proof. destruct a as [[? ? ?] [? ? ?] [? ? ?]]. mat_ring. Qed.

Lemma det3_matmul (a b : Mat3 R) : det3 (matmul a b) = det3 a * det3 b.
Proof. mat_ring. Qed.

Lemma orthogonal_matmul (a b : Mat3 R) :
  orthogonal a -> orthogonal b -> orthogonal (matmul a b).
Proof.
  intros [Ha1 Ha2] [Hb1 Hb2]. split; rewrite transpose_matmul.
  - rewrite matmul_assoc, <- (matmul_assoc (transpose a)), Ha1, matmul_identity_l.
    exact Hb1.
  - rewrite matmul_assoc, <- (matmul_assoc b), Hb2, matmul_identity_l.
    exact Ha2.
Qed.

Lemma rotation_matmul (a b : Mat3 R) :
  rotation a -> rotation b -> rotation (matmul a b).
Proof.
  intros [Ha Da] [Hb Db]. split; [apply orthogonal_matmul; assumption |].
  rewrite det3_matmul, Da, Db. ring.
Qed.

Lemma matvec_matmul (a b : Mat3 R) (v : Vec3 R) :
  matvec (matmul a b) v = matvec a (matvec b v).
Proof. unfold matvec, matmul, mrow_mul, mcol, np_dot. real_ops. cbn [vx vy vz]. f_equal; ring. Qed.

Lemma np_dot_transpose (m : Mat3 R) (u w : Vec3 R) :
  np_dot (matvec m u) w = np_dot u (matvec (transpose m) w).
Proof. mat_ring. Qed.

Lemma matvec_identity (v : Vec3 R) : matvec identity3 v = v.
Proof. destruct v. mat_ring. Qed.

Lemma orthogonal_np_dot (m : Mat3 R) (u v : Vec3 R) :
  orthogonal m -> np_dot (matvec m u) (matvec m v) = np_dot u v.
Proof.
  intros [Hm _]. rewrite np_dot_transpose, <- matvec_matmul, Hm, matvec_identity.
  reflexivity.
Qed.

Lemma orthogonal_np_norm (m : Mat3 R) (v : Vec3 R) :
  orthogonal m -> np_norm (matvec m v) = np_norm v.
Proof. intros Hm. unfold np_norm. rewrite orthogonal_np_dot by exact Hm. reflexivity. Qed.

Lemma axis_matrix_x_rotation (c s : R) :
  c * c + s * s = 1 ->
  rotation (mkVec3 (mkVec3 1 0 0) (mkVec3 0 c (- s)) (mkVec3 0 s c)).
Proof.
  intros E. unfold rotation, orthogonal. mat_ring.
  repeat split; try (f_equal; f_equal; lra); lra.
Qed.

Lemma axis_matrix_y_rotation (c s : R) :
  c * c + s * s = 1 ->
  rotation (mkVec3 (mkVec3 c 0 s) (mkVec3 0 1 0) (mkVec3 (- s) 0 c)).
Proof.
  intros E. unfold rotation, orthogonal. mat_ring.
  repeat split; try (f_equal; f_equal; lra); lra.
Qed.

Lemma axis_matrix_z_rotation (c s : R) :
  c * c + s * s = 1 ->
  rotation (mkVec3 (mkVec3 c (- s) 0) (mkVec3 s c 0) (mkVec3 0 0 1)).
Proof.
  intros E. unfold rotation, orthogonal. mat_ring.
  repeat split; try (f_equal; f_equal; lra); lra.
Qed.

Lemma cos2_sin2 (t : R) : cos t * cos t + sin t * sin t = 1.
Proof. pose proof (sin2_cos2 t) as E. unfold Rsqr in E. lra. Qed.

Lemma rotation_matrix_x_rotation (theta : R) : rotation (rotation_matrix_x theta).
Proof. apply axis_matrix_x_rotation, cos2_sin2. Qed.

Lemma rotation_matrix_y_rotation (theta : R) : rotation (rotation_matrix_y theta).
Proof. apply axis_matrix_y_rotation, cos2_sin2. Qed.

Lemma rotation_matrix_z_rotation (theta : R) : rotation (rotation_matrix_z theta).
Proof. apply axis_matrix_z_rotation, cos2_sin2. Qed.

End MatrixAlgebra.

Section RotationExtras.
Local Open Scope R_scope.

Lemma radians_opp (x : R) : np_radians (- x) = - np_radians x.
Proof. unfold np_radians. real_ops. field. Qed.

(** X1: the three axis matrices [rotation_matrix_x], [rotation_matrix_y]
    and [rotation_matrix_z] are rotations for every angle: orthogonal, with
    determinant 1. *)
Theorem axis_rotations_are_rotations (theta : R) :
  rotation (rotation_matrix_x theta)
  /\ rotation (rotation_matrix_y theta)
  /\ rotation (rotation_matrix_z theta).
Proof.
  split; [apply rotation_matrix_x_rotation |].
  split; [apply rotation_matrix_y_rotation | apply rotation_matrix_z_rotation].
Qed.

(** X2: two rotations about the same axis compose by adding their angles,
    the angle 0 gives the identity, and the transpose of a rotation is the
    rotation by the opposite angle. *)
Theorem axis_rotations_compose (a b : R) :
  matmul (rotation_matrix_x a) (rotation_matrix_x b) = rotation_matrix_x (a + b)
  /\ matmul (rotation_matrix_y a) (rotation_matrix_y b) = rotation_matrix_y (a + b)
  /\ matmul (rotation_matrix_z a) (rotation_matrix_z b) = rotation_matrix_z (a + b)
  /\ rotation_matrix_x 0 = identity3
  /\ rotation_matrix_y 0 = identity3
  /\ rotation_matrix_z 0 = identity3
  /\ transpose (rotation_matrix_x a) = rotation_matrix_x (- a)
  /\ transpose (rotation_matrix_y a) = rotation_matrix_y (- a)
  /\ transpose (rotation_matrix_z a) = rotation_matrix_z (- a).
Proof.
  unfold rotation_matrix_x, rotation_matrix_y, rotation_matrix_z.
  rewrite radians_plus, radians_0, radians_opp. real_ops.
  rewrite cos_plus, sin_plus, cos_0, sin_0, cos_neg, sin_neg.
  repeat split; mat_ring.
Qed.

(** X3: whatever the two clock angles are, the matrix of
    [get_calibration_object_rotation] is a rotation; it keeps dot products
    and norms, and the viewing direction that the cone pass derives from it
    for each of the six sensors is a unit vector. *)
Theorem calibration_object_rotation_preserves_lengths (angle_y angle_x : R) :
  let object_rot := orientation.get_calibration_object_rotation angle_y angle_x in
  rotation object_rot
  /\ (forall u v : Vec3 R,
         np_dot (matvec object_rot u) (matvec object_rot v) = np_dot u v)
  /\ (forall v : Vec3 R, np_norm (matvec object_rot v) = np_norm v)
  /\ Forall (fun sensor_position =>
               np_norm (matvec object_rot
                          (vdiv (vneg sensor_position) (np_norm sensor_position)))
               = 1)
            get_sensor_positions.
Proof.
  intros object_rot.
  assert (Hrot : rotation object_rot).
  { apply rotation_matmul;
      [apply rotation_matrix_x_rotation | apply rotation_matrix_y_rotation]. }
  split; [exact Hrot |]. destruct Hrot as [Horth _].
  split; [intros u v; apply orthogonal_np_dot, Horth |].
  split; [intros v; apply orthogonal_np_norm, Horth |].
  assert (H8 : R_sqrt.sqrt 64 = 8).
  { replace 64 with (8 * 8) by lra. apply sqrt_square. lra. }
  unfold get_sensor_positions.
  repeat (apply Forall_cons; split; [| ]); try apply Forall_nil; trivial;
    rewrite orthogonal_np_norm by exact Horth;
    unfold np_norm, vdiv, vneg, np_dot; real_ops; cbn [vx vy vz];
    match goal with
    | |- context [R_sqrt.sqrt ?e] =>
        replace e with 64 by lra
    end; rewrite H8;
    match goal with
    | |- R_sqrt.sqrt ?e = 1 => replace e with 1 by lra
    end; apply sqrt_1.
Qed.

(** X4: the extraction of Testing_with_Euler_angles.py inverts the
    composition [rotation_z @ rotation_x] of [get_sensor_rotation]: for an
    X angle and a Z angle in (-180, 180] it returns (X angle, 0, Z angle).
    So the orientation shown for a sensor is (42 or 60, 0, 30, 60 or 90) as
    configured, also for an index past the sixth, which takes the last
    branch; and every such matrix is a rotation. *)
Theorem sensor_orientations_are_the_configured_angles :
  (forall a c : R,
      - 180 < a <= 180 -> - 180 < c <= 180 ->
      Testing_with_Euler_angles.rotation_matrix_to_euler_angles
        (matmul (rotation_matrix_z c) (rotation_matrix_x a))
      = mkVec3 a 0 c)
  /\ (forall sensor_idx : nat,
         let rot := Testing_with_Euler_angles.get_sensor_rotation sensor_idx in
         rotation rot
         /\ Testing_with_Euler_angles.rotation_matrix_to_euler_angles rot
            = mkVec3 (if (sensor_idx <? 3)%nat then 42 else 60)
                     0
                     (match sensor_idx with
                      | 0%nat | 3%nat => 30
                      | 1%nat | 4%nat => 60
                      | _ => 90
                      end)).
Proof.
  assert (Hreg : forall a c : R,
             - 180 < a <= 180 -> - 180 < c <= 180 ->
             Testing_with_Euler_angles.rotation_matrix_to_euler_angles
               (matmul (rotation_matrix_z c) (rotation_matrix_x a))
             = mkVec3 a 0 c).
  { intros a c Ha Hc. rewrite z_then_x_is_euler.
    apply round_trip_regular; try lra.
    rewrite radians_0, cos_0. unfold singular_threshold. lra. }
  split; [exact Hreg |].
  intros sensor_idx rot. subst rot.
  do 6 (try destruct sensor_idx as [| sensor_idx]);
    cbn [Testing_with_Euler_angles.get_sensor_rotation Nat.ltb Nat.leb]; real_ops;
    (split; [apply rotation_matmul;
               [apply rotation_matrix_z_rotation | apply rotation_matrix_x_rotation]
            | apply Hreg; lra]).
Qed.

Lemma update_sensor_position_is_euler (a b c : R) :
  Chart_viscualisation.update_sensor_position a b c = euler_to_matrix a b c.
Proof.
  unfold euler_to_matrix. rewrite matmul_assoc. reflexivity.
Qed.

(** X5: the matrix that Chart_viscualisation.py builds from the three
    rotation sliders, given to the extraction of
    Testing_with_Euler_angles.py, gives the slider values back, when the X
    and Z values are in (-180, 180], the Y value is in (-90, 90) and its
    cosine is not below the threshold 1e-6. *)
Theorem slider_angles_round_trip (a b c : R) :
  - 180 < a <= 180 -> - 90 < b < 90 -> - 180 < c <= 180 ->
  singular_threshold <= cos (np_radians b) ->
  Testing_with_Euler_angles.rotation_matrix_to_euler_angles
    (Chart_viscualisation.update_sensor_position a b c)
  = mkVec3 a b c.
Proof.
  intros Ha Hb Hc Hs. rewrite update_sensor_position_is_euler.
  apply round_trip_regular; assumption.
Qed.

Lemma slider_angles_round_trip_witness :
  Testing_with_Euler_angles.rotation_matrix_to_euler_angles
    (Chart_viscualisation.update_sensor_position 45 0 (- 90))
  = mkVec3 45 0 (- 90).
Proof.
  apply slider_angles_round_trip; try lra.
  rewrite radians_0, cos_0. unfold singular_threshold. lra.
Defined.

End RotationExtras.

(** ** The face normal and the mesh over the reals *)

Section MeshGeometry.
Local Open Scope R_scope.

Lemma np_dot_self_nonneg (c : Vec3 R) : 0 <= np_dot c c.
Proof. vec_ring. nra. Qed.

Lemma np_dot_self_pos (c : Vec3 R) : c <> origin -> 0 < np_dot c c.
Proof.
  intros Hc. destruct (Rle_lt_dec (np_dot c c) 0) as [Hle | Hlt]; [| exact Hlt].
  exfalso. apply Hc. destruct c as [x y z]. revert Hle. vec_ring. intros Hle.
  unfold origin. real_ops.
  assert (x = 0) by nra. assert (y = 0) by nra. assert (z = 0) by nra.
  subst. reflexivity.
Qed.

Lemma np_norm_pos (c : Vec3 R) : 0 < np_dot c c -> 0 < np_norm c.
Proof. intros Hc. unfold np_norm. real_ops. apply sqrt_lt_R0, Hc. Qed.

Lemma np_norm_normalized (c : Vec3 R) :
  0 < np_dot c c -> np_norm (vdiv c (np_norm c)) = 1.
Proof.
  intros Hc. pose proof (np_norm_pos c Hc) as Hq.
  assert (Hqq : np_norm c * np_norm c = np_dot c c).
  { unfold np_norm. real_ops. apply sqrt_sqrt. lra. }
  unfold np_norm at 1. real_ops.
  replace (np_dot (vdiv c (np_norm c)) (vdiv c (np_norm c))) with 1;
    [apply sqrt_1 |].
  set (q := np_norm c) in *. revert Hqq. vec_ring. intros Hqq.
  apply (Rmult_eq_reg_r (q * q)); [| nra]. field_simplify; lra.
Qed.

Lemma np_norm_vneg (c : Vec3 R) : np_norm (vneg c) = np_norm c.
Proof. unfold np_norm. f_equal. vec_ring. ring. Qed.


(** X6: when the three vertices are not collinear (the cross product of the
    two edges is not the zero vector) the face normal has norm 1 and is
    perpendicular to both edges. *)
Theorem face_normal_unit_and_perpendicular (v1 v2 v3 : Vec3 R) :
  np_cross (vsub v2 v1) (vsub v3 v1) <> origin ->
  let normal := calculate_face_normal (v1, v2, v3) in
  np_norm normal = 1
  /\ np_dot normal (vsub v2 v1) = 0
  /\ np_dot normal (vsub v3 v1) = 0.
Proof.
  intros Hc normal. subst normal. unfold calculate_face_normal.
  set (c := np_cross (vsub v2 v1) (vsub v3 v1)) in *.
  pose proof (np_dot_self_pos c Hc) as Hpos.
  split; [apply np_norm_normalized, Hpos |].
  pose proof (np_norm_pos c Hpos) as Hq. set (q := np_norm c) in *.
  subst c. split; vec_ring; field; lra.
Qed.

Lemma face_normal_unit_and_perpendicular_witness :
  let normal :=
    calculate_face_normal (mkVec3 0 0 0, mkVec3 1 0 0, mkVec3 0 1 0) in
  np_norm normal = 1
  /\ np_dot normal (vsub (mkVec3 1 0 0) (mkVec3 0 0 0)) = 0
  /\ np_dot normal (vsub (mkVec3 0 1 0) (mkVec3 0 0 0)) = 0.
Proof.
  apply face_normal_unit_and_perpendicular.
  unfold origin. vec_ring. intros E. injection E. intros. lra.
Defined.

(** X7: exchanging two vertices of a face negates its normal, a cyclic
    shift of the three vertices keeps it, and so does a translation of the
    face. *)
Theorem face_normal_follows_the_winding (v1 v2 v3 : Vec3 R) :
  calculate_face_normal (v1, v3, v2) = vneg (calculate_face_normal (v1, v2, v3))
  /\ calculate_face_normal (v2, v3, v1) = calculate_face_normal (v1, v2, v3)
  /\ calculate_face_normal (v3, v1, v2) = calculate_face_normal (v1, v2, v3)
  /\ forall t : Vec3 R,
       calculate_face_normal (vadd v1 t, vadd v2 t, vadd v3 t)
       = calculate_face_normal (v1, v2, v3).
Proof.
  unfold calculate_face_normal.
  set (c := np_cross (vsub v2 v1) (vsub v3 v1)).
  assert (E1 : np_cross (vsub v3 v1) (vsub v2 v1) = vneg c)
    by (subst c; vec_ring; f_equal; ring).
  assert (E2 : np_cross (vsub v3 v2) (vsub v1 v2) = c)
    by (subst c; vec_ring; f_equal; ring).
  assert (E3 : np_cross (vsub v1 v3) (vsub v2 v3) = c)
    by (subst c; vec_ring; f_equal; ring).
  assert (E4 : forall t, np_cross (vsub (vadd v2 t) (vadd v1 t))
                                  (vsub (vadd v3 t) (vadd v1 t)) = c)
    by (intros t; subst c; vec_ring; f_equal; ring).
  rewrite E1, E2, E3, np_norm_vneg.
  split; [vec_ring; f_equal; unfold Rdiv; ring |].
  split; [reflexivity |]. split; [reflexivity |].
  intros t. rewrite E4. reflexivity.
Qed.

End MeshGeometry.

Section MeshOverR.
Local Open Scope R_scope.

Lemma sqrt5_sq : R_sqrt.sqrt 5 * R_sqrt.sqrt 5 = 5.
Proof. apply sqrt_sqrt. lra. Qed.

Lemma phi_sq : phi * phi = phi + 1.
Proof. unfold phi. real_ops. pose proof sqrt5_sq. field_simplify. nra. Qed.

Lemma phi_pos : 1 < phi.
Proof.
  unfold phi. real_ops. pose proof sqrt5_sq as E.
  assert (1 < R_sqrt.sqrt 5).
  { rewrite <- sqrt_1. apply sqrt_lt_1; lra. }
  lra.
Qed.

Lemma icosahedron_over_R :
  get_icosahedron (T := R)
  = Some (map (fun v => vscale v (5 / np_norm (mkVec3 (- (1)) phi 0)))
              icosahedron_raw_vertices,
          icosahedron_faces).
Proof. reflexivity. Qed.

Lemma raw_norm_pos : 0 < np_dot (mkVec3 (- (1)) phi 0) (mkVec3 (- (1)) phi 0).
Proof. vec_ring. pose proof phi_pos. nra. Qed.

Lemma mesh_scale_pos : 0 < 5 / np_norm (mkVec3 (- (1)) phi 0).
Proof.
  apply Rdiv_lt_0_compat; [lra |]. unfold np_norm. real_ops.
  apply sqrt_lt_R0, raw_norm_pos.
Qed.

Lemma norm_rescaled_by (v v0 : Vec3 R) :
  np_dot v v = np_dot v0 v0 -> 0 < np_dot v0 v0 ->
  np_norm (vscale v (5 / np_norm v0)) = 5.
Proof.
  intros E HN. unfold np_norm. real_ops. set (N := np_dot v0 v0) in *.
  assert (Hq : R_sqrt.sqrt N * R_sqrt.sqrt N = N) by (apply sqrt_sqrt; lra).
  assert (Hq0 : 0 < R_sqrt.sqrt N) by (apply sqrt_lt_R0; exact HN).
  set (q := R_sqrt.sqrt N) in *.
  assert (E' : np_dot (vscale v (5 / q)) (vscale v (5 / q)) = 25 * N / (q * q)).
  { rewrite <- E. vec_ring. field. lra. }
  rewrite E', Hq. replace (25 * N / N) with (5 * 5) by (field; lra).
  apply sqrt_square. lra.
Qed.

Lemma mesh_vertices_norm :
  Forall (fun v : Vec3 R => np_norm v = 5)
         (map (fun v => vscale v (5 / np_norm (mkVec3 (- (1)) phi 0)))
              icosahedron_raw_vertices).
Proof.
  pose proof phi_sq as Hp. unfold icosahedron_raw_vertices. cbn [map]. real_ops.
  repeat (apply Forall_cons; split;
          [apply norm_rescaled_by; [vec_ring; ring | exact raw_norm_pos] |]).
  apply Forall_nil. trivial.
Qed.

(** X8: over the reals each of the twelve vertices of the generated mesh
    has norm 5, not only the first one. *)
Theorem icosahedron_vertices_on_sphere :
  exists vertices faces,
    get_icosahedron (T := R) = Some (vertices, faces)
    /\ Forall (fun v => np_norm v = 5) vertices.
Proof.
  eexists _, _. split; [exact icosahedron_over_R | exact mesh_vertices_norm].
Qed.

Lemma mrow_mul_transpose (m : Mat3 R) (v : Vec3 R) :
  mrow_mul v (transpose m) = matvec m v.
Proof.
  destruct m as [[? ? ?] [? ? ?] [? ? ?]], v as [? ? ?].
  unfold mrow_mul, matvec, transpose, mcol. vec_ring. f_equal; ring.
Qed.

(** X9: for all slider values the matrix of Chart_viscualisation.py is a
    rotation, and the rotated vertices [np.dot(vertices, R.T)] of the mesh
    still have norm 5. *)
Theorem rotated_mesh_stays_on_sphere (x y z : R) :
  rotation (Chart_viscualisation.update_sensor_position x y z)
  /\ exists vertices faces,
       get_icosahedron (T := R) = Some (vertices, faces)
       /\ Forall (fun v => np_norm v = 5)
                 (Chart_viscualisation.rotated_vertices vertices
                    (Chart_viscualisation.update_sensor_position x y z)).
Proof.
  assert (Hrot : rotation (Chart_viscualisation.update_sensor_position x y z)).
  { unfold Chart_viscualisation.update_sensor_position,
      Chart_viscualisation.get_rotation_matrix. real_ops.
    apply rotation_matmul; [apply axis_matrix_z_rotation, cos2_sin2 |].
    apply rotation_matmul;
      [apply axis_matrix_y_rotation, cos2_sin2 | apply axis_matrix_x_rotation, cos2_sin2]. }
  split; [exact Hrot |].
  eexists _, _. split; [exact icosahedron_over_R |].
  unfold Chart_viscualisation.rotated_vertices. apply Forall_map.
  eapply Forall_impl; [exact mesh_vertices_norm |]. cbn beta. intros v Hv.
  rewrite mrow_mul_transpose, orthogonal_np_norm; [exact Hv | apply Hrot].
Qed.

Lemma norm_scaled_difference (a b : Vec3 R) (s : R) :
  0 <= s -> np_dot (vsub a b) (vsub a b) = 4 ->
  np_norm (vsub (vscale a s) (vscale b s)) = 2 * s.
Proof.
  intros Hs E. unfold np_norm. real_ops.
  replace (np_dot (vsub (vscale a s) (vscale b s)) (vsub (vscale a s) (vscale b s)))
    with ((2 * s) * (2 * s)).
  - apply sqrt_square. lra.
  - transitivity (s * s * np_dot (vsub a b) (vsub a b)); [rewrite E; ring |].
    vec_ring. ring.
Qed.

(** X10: every face of the generated mesh is equilateral, and all faces
    have the same edge length [10 / sqrt(1 + phi^2)]. *)
Theorem icosahedron_faces_equilateral :
  exists vertices faces,
    get_icosahedron (T := R) = Some (vertices, faces)
    /\ Forall (fun face =>
                 exists v1 v2 v3,
                   face_rows vertices face = Some (v1, v2, v3)
                   /\ np_norm (vsub v2 v1) = 10 / R_sqrt.sqrt (1 + phi * phi)
                   /\ np_norm (vsub v3 v2) = 10 / R_sqrt.sqrt (1 + phi * phi)
                   /\ np_norm (vsub v1 v3) = 10 / R_sqrt.sqrt (1 + phi * phi))
              faces.
Proof.
  eexists _, _. split; [exact icosahedron_over_R |].
  pose proof phi_sq as Hp. pose proof mesh_scale_pos as Hs.
  assert (Es : 10 / R_sqrt.sqrt (1 + phi * phi)
               = 2 * (5 / np_norm (mkVec3 (- (1)) phi 0))).
  { unfold np_norm. real_ops.
    replace (np_dot (mkVec3 (- (1)) phi 0) (mkVec3 (- (1)) phi 0))
      with (1 + phi * phi) by (vec_ring; ring).
    unfold Rdiv. ring. }
  rewrite Es. set (s := 5 / np_norm (mkVec3 (- (1)) phi 0)) in *.
  unfold icosahedron_faces, icosahedron_raw_vertices. cbn [map]. real_ops.
  set (p := phi) in *.
  repeat (apply Forall_cons; split;
          [eexists _, _, _; split; [reflexivity |];
           repeat split; (apply norm_scaled_difference; [lra | vec_ring; clear - Hp; nra]) |]).
  apply Forall_nil. trivial.
Qed.

Lemma outward_scaled (a b c : Vec3 R) (s : R) :
  0 < s ->
  0 < np_dot (np_cross (vsub b a) (vsub c a)) (vadd (vadd a b) c) ->
  0 < np_dot (calculate_face_normal (vscale a s, vscale b s, vscale c s))
             (np_mean3 (vscale a s, vscale b s, vscale c s)).
Proof.
  intros Hs HD. unfold calculate_face_normal, np_mean3.
  set (C := np_cross (vsub b a) (vsub c a)) in *.
  assert (HC : 0 < np_dot C C).
  { apply np_dot_self_pos. intros E. rewrite E in HD. revert HD.
    unfold origin. vec_ring. lra. }
  assert (EC : np_cross (vsub (vscale b s) (vscale a s))
                        (vsub (vscale c s) (vscale a s))
               = vscale C (s * s)).
  { subst C. vec_ring. f_equal; ring. }
  rewrite EC.
  assert (Hss : 0 < s * s) by (apply Rmult_lt_0_compat; assumption).
  assert (HC' : 0 < np_dot (vscale C (s * s)) (vscale C (s * s))).
  { replace (np_dot (vscale C (s * s)) (vscale C (s * s)))
      with (s * s * (s * s) * np_dot C C) by (vec_ring; ring).
    apply Rmult_lt_0_compat; [| exact HC].
    apply Rmult_lt_0_compat; assumption. }
  pose proof (np_norm_pos _ HC') as Hq.
  set (q := np_norm (vscale C (s * s))) in *.
  replace (np_dot (vdiv (vscale C (s * s)) q)
                  (vdiv (vadd (vadd (vscale a s) (vscale b s)) (vscale c s)) 3))
    with (s * s * s * np_dot C (vadd (vadd a b) c) / (3 * q)).
  - apply Rdiv_lt_0_compat; [| lra].
    apply Rmult_lt_0_compat; [| exact HD].
    apply Rmult_lt_0_compat; assumption.
  - vec_ring. field. lra.
Qed.

Lemma visible_rows_none (sensor : Vec3 R) (rows : list (Vec3 R * Vec3 R * Vec3 R)) :
  Forall (fun fv => back_face_visible sensor fv = false) rows ->
  forall k, visible_rows sensor k rows = [].
Proof.
  induction 1 as [| fv rows Hfv _ IH]; intros k; [reflexivity |].
  rewrite visible_rows_cons, Hfv, IH. reflexivity.
Qed.

Lemma Rltb_false (x y : R) : y <= x -> Rltb x y = false.
Proof. intros Hle. unfold Rltb. destruct (Rlt_dec x y); [lra | reflexivity]. Qed.

Lemma centre_sees_no_outward_face (fv : Vec3 R * Vec3 R * Vec3 R) :
  0 < np_dot (calculate_face_normal fv) (np_mean3 fv) ->
  back_face_visible origin fv = false.
Proof.
  intros Hout. unfold back_face_visible, normalize.
  set (n := calculate_face_normal fv) in *. set (m := np_mean3 fv) in *.
  real_ops. apply Rltb_false.
  assert (Hq : 0 <= np_norm (vsub origin m)).
  { unfold np_norm. real_ops. apply sqrt_pos. }
  set (q := np_norm (vsub origin m)) in *.
  replace (np_dot n (vdiv (vsub origin m) q)) with (- (np_dot n m * / q))
    by (unfold origin; vec_ring; unfold Rdiv; ring).
  destruct (Req_dec q 0) as [-> | Hne]; [rewrite Rinv_0; lra |].
  assert (0 < / q) by (apply Rinv_0_lt_compat; lra).
  assert (0 < np_dot n m * / q) by (apply Rmult_lt_0_compat; assumption).
  lra.
Qed.

Lemma Forall_exists_mapM {A B : Type} (g : A -> option B) (P : B -> Prop)
    (l : list A) :
  Forall (fun a => exists b, g a = Some b /\ P b) l ->
  exists bs, mapM g l = Some bs /\ Forall P bs.
Proof.
  induction 1 as [| a l (b & Hb & HP) _ (bs & Hbs & HPs)].
  - exists []. split; [reflexivity | constructor].
  - exists (b :: bs). rewrite mapM_cons_option, Hb, Hbs.
    split; [reflexivity | constructor; assumption].
Qed.

(** X11: every face of the mesh is wound so that its normal points away
    from the centre (the dot product of the normal with the face centre is
    positive); hence a sensor at the centre sees no face. *)
Theorem icosahedron_faces_point_outward :
  exists vertices faces,
    get_icosahedron (T := R) = Some (vertices, faces)
    /\ Forall (fun face =>
                 exists fv,
                   face_rows vertices face = Some fv
                   /\ 0 < np_dot (calculate_face_normal fv) (np_mean3 fv))
              faces
    /\ Viewplanning.evaluate_visible_faces origin vertices faces = Some 0%nat.
Proof.
  eexists _, _. split; [exact icosahedron_over_R |].
  pose proof phi_sq as Hp. pose proof phi_pos as Hp1.
  pose proof mesh_scale_pos as Hs.
  set (s := 5 / np_norm (mkVec3 (- (1)) phi 0)) in *.
  match goal with |- ?F /\ _ => assert (Hout : F) end.
  { unfold icosahedron_faces, icosahedron_raw_vertices. cbn [map]. real_ops.
    set (p := phi) in *.
    repeat (apply Forall_cons; split;
            [eexists; split; [reflexivity |];
             apply outward_scaled; [exact Hs | vec_ring; clear - Hp Hp1; nra] |]).
    apply Forall_nil. trivial. }
  split; [exact Hout |].
  destruct (Forall_exists_mapM _ _ _ Hout) as (rows & Hrows & Hall).
  unfold Viewplanning.evaluate_visible_faces.
  rewrite (count_loop_visible origin _ _ 0%nat 0%nat), Hrows.
  cbn [mbind option_bind]. rewrite visible_rows_none; [reflexivity |].
  eapply Forall_impl; [exact Hall |]. intros fv. apply centre_sees_no_outward_face.
Qed.

End MeshOverR.

(** ** The search: sphere, pool sizes, ties *)

Section SearchOnSphere.
Local Open Scope R_scope.
Variable draws : nat -> Vec3 R.
Variable vertices : list (Vec3 R).
Variable faces : list Face.
Hypothesis faces_in_range : Forall (face_indices_below (length vertices)) faces.
Hypothesis draws_in_range :
  forall n, - 1 <= vx (draws n) <= 1 /\ - 1 <= vy (draws n) <= 1
            /\ - 1 <= vz (draws n) <= 1.

Local Abbreviation on_sphere :=
  (fun c : Viewplanning.candidate (T := R) => np_norm (fst c) = 10).

Lemma norm_10_dot (p : Vec3 R) : np_norm p = 10 -> np_dot p p = 100.
Proof.
  unfold np_norm. real_ops. intros E.
  rewrite <- (sqrt_sqrt (np_dot p p)) by apply np_dot_self_nonneg.
  rewrite E. lra.
Qed.

Lemma perturbed_nonzero (p d : Vec3 R) :
  np_dot p p = 100 ->
  - 1 <= vx d <= 1 -> - 1 <= vy d <= 1 -> - 1 <= vz d <= 1 ->
  0 < np_dot (vadd p (vscale d 1)) (vadd p (vscale d 1)).
Proof.
  destruct p as [px py pz], d as [dx dy dz].
  unfold np_dot, vadd, vscale. real_ops. cbn [vx vy vz]. intros Hp Hx Hy Hz.
  destruct (Rle_lt_dec ((px + dx * 1) * (px + dx * 1) + (py + dy * 1) * (py + dy * 1)
                        + (pz + dz * 1) * (pz + dz * 1)) 0) as [Hle | Hlt];
    [exfalso | exact Hlt].
  set (a := px + dx * 1) in *. set (b := py + dy * 1) in *.
  set (c := pz + dz * 1) in *.
  pose proof (Rle_0_sqr a) as Ha. pose proof (Rle_0_sqr b) as Hb.
  pose proof (Rle_0_sqr c) as Hc. unfold Rsqr in Ha, Hb, Hc.
  assert (Ex : a = 0) by nra.
  assert (Ey : b = 0) by nra.
  assert (Ez : c = 0) by nra.
  subst a b c.
  assert (px * px <= 1) by nra.
  assert (py * py <= 1) by nra.
  assert (pz * pz <= 1) by nra.
  lra.
Qed.

Lemma projected_norm (w : Vec3 R) :
  0 < np_dot w w -> np_norm (vscale (vdiv w (np_norm w)) 10) = 10.
Proof.
  intros Hw. pose proof (np_norm_normalized w Hw) as E1.
  set (u := vdiv w (np_norm w)) in *.
  assert (Eu : np_dot u u = 1).
  { unfold np_norm in E1. real_ops.
    rewrite <- (sqrt_sqrt (np_dot u u)) by apply np_dot_self_nonneg.
    rewrite E1. lra. }
  unfold np_norm. real_ops.
  replace (np_dot (vscale u 10) (vscale u 10)) with (10 * 10).
  - apply sqrt_square. lra.
  - transitivity (100 * np_dot u u); [rewrite Eu; lra |].
    unfold np_dot, vscale. real_ops. cbn [vx vy vz]. ring.
Qed.

Lemma perturb_on_sphere position st i :
  np_norm position = 10 ->
  Forall on_sphere (fst st) ->
  exists st', Viewplanning.perturb draws vertices faces position st i = Some st'
              /\ Forall on_sphere (fst st').
Proof.
  destruct st as [new_positions calls]. cbn [fst]. intros Hpos Hst.
  unfold Viewplanning.perturb.
  set (p := vscale _ _).
  destruct (evaluate_visible_faces_total vertices faces faces_in_range p) as [n Hn].
  rewrite Hn. cbn [mbind option_bind]. eexists; split; [reflexivity |]. cbn [fst].
  apply Forall_app; split; [exact Hst |].
  constructor; [| constructor]. cbn [fst]. subst p. apply projected_norm.
  unfold Viewplanning.step_size. change (@of_Z R R_Scalar 1) with 1.
  destruct (draws_in_range calls) as (Hx & Hy & Hz).
  apply perturbed_nonzero; [apply norm_10_dot, Hpos | assumption ..].
Qed.

Lemma expand_on_sphere st c :
  on_sphere c ->
  Forall on_sphere (fst st) ->
  exists st', Viewplanning.expand draws vertices faces st c = Some st'
              /\ Forall on_sphere (fst st').
Proof.
  intros Hc Hst. unfold Viewplanning.expand.
  apply (for_loop_invariant (fun st => Forall on_sphere (fst st)));
    [exact Hst |].
  intros s a Hs. apply perturb_on_sphere; [exact Hc | exact Hs].
Qed.

Lemma iteration_on_sphere st i :
  Forall on_sphere (fst st) ->
  exists st', Viewplanning.iteration draws vertices faces st i = Some st'
              /\ Forall on_sphere (fst st').
Proof.
  destruct st as [pool calls]. cbn [fst]. intros Hpool.
  unfold Viewplanning.iteration.
  destruct (for_loop_invariant_on on_sphere (fun st => Forall on_sphere (fst st))
              (Viewplanning.expand draws vertices faces) pool ([], calls))
    as ([new_positions calls'] & -> & Hnew).
  { exact Hpool. }
  { cbn [fst]. constructor. }
  { intros s a Ha Hs. apply expand_on_sphere; assumption. }
  cbn [fst] in Hnew. cbn [mbind option_bind]. eexists; split; [reflexivity |].
  cbn [fst].
  apply Forall_take, Forall_sorted_reverse, Forall_app. split; assumption.
Qed.

Lemma search_state_on_sphere (initial_count n : nat) :
  exists st, search_state draws vertices faces initial_count n = Some st
             /\ Forall on_sphere (fst st).
Proof.
  unfold search_state. induction n as [| n IH].
  - cbn [seq for_loop]. eexists; split; [reflexivity |]. cbn [fst].
    constructor; [| constructor]. cbn [fst].
    unfold Viewplanning.initial_position, np_norm, np_dot. real_ops. cbn [vx vy vz].
    replace (10 * 10 + 0 * 0 + 0 * 0) with (10 * 10) by ring.
    apply sqrt_square. lra.
  - destruct IH as (st & Hst & Hs).
    rewrite seq_S, for_loop_app, Hst. cbn [mbind option_bind for_loop].
    destruct (iteration_on_sphere st (0 + n)%nat Hs) as (st' & -> & Hs').
    exists st'. split; [reflexivity | exact Hs'].
Qed.

End SearchOnSphere.

(** X12: when every random adjustment has its three components in
    [-1, 1], as [np.random.uniform(-1, 1, 3)] gives them, the search never
    normalizes a zero vector and every candidate of the pool, at every
    iteration, is at distance 10 from the centre. *)
Theorem search_candidates_stay_on_sphere (draws : nat -> Vec3 R) :
  (forall n, - 1 <= vx (draws n) <= 1 /\ - 1 <= vy (draws n) <= 1
             /\ - 1 <= vz (draws n) <= 1)%R ->
  forall n, exists pool calls,
    Viewplanning.pool_after draws n = Some (pool, calls)
    /\ Forall (fun c => np_norm (fst c) = 10%R) pool.
Proof.
  intros Hdraws n.
  destruct (get_icosahedron (T := R)) as [[vertices faces] |] eqn:Emesh;
    [| discriminate Emesh].
  pose proof (icosahedron_faces_in_range vertices faces Emesh) as Hrange.
  destruct (evaluate_visible_faces_total vertices faces Hrange
              Viewplanning.initial_position) as [n0 Hn0].
  destruct (search_state_on_sphere draws vertices faces Hrange Hdraws n0 n)
    as ([pool calls] & Hst & Hs).
  exists pool, calls. split; [| exact Hs].
  unfold Viewplanning.pool_after. rewrite Emesh. cbn [mbind option_bind].
  rewrite Hn0. exact Hst.
Qed.

Lemma search_candidates_stay_on_sphere_witness :
  exists pool calls,
    Viewplanning.pool_after (fun _ => mkVec3 (1 / 2) (- 1 / 4) (3 / 4))%R 3
    = Some (pool, calls)
    /\ Forall (fun c => np_norm (fst c) = 10%R) pool.
Proof.
  apply search_candidates_stay_on_sphere. intros n. cbn [vx vy vz]. lra.
Defined.

Section SortProperties.
Context {A : Type} (key : A -> nat).

Lemma insert_desc_length x l : length (insert_desc key x l) = S (length l).
Proof.
  induction l as [| y l IH]; simpl; [reflexivity |].
  destruct (key x <? key y)%nat; simpl; [rewrite IH |]; reflexivity.
Qed.

Lemma sorted_reverse_length l : length (sorted_reverse key l) = length l.
Proof.
  induction l as [| x l IH]; simpl; [reflexivity |].
  rewrite insert_desc_length. f_equal. exact IH.
Qed.

Lemma insert_desc_perm x l : insert_desc key x l ≡ₚ x :: l.
Proof.
  induction l as [| y l IH]; simpl; [reflexivity |].
  destruct (key x <? key y)%nat; [| reflexivity].
  rewrite IH. apply Permutation_swap.
Qed.

Lemma sorted_reverse_perm l : sorted_reverse key l ≡ₚ l.
Proof.
  induction l as [| x l IH]; simpl; [reflexivity |].
  rewrite insert_desc_perm, IH. reflexivity.
Qed.

Local Abbreviation desc := (fun a b : A => (key b <= key a)%nat).

Lemma insert_desc_sorted x l :
  StronglySorted desc l -> StronglySorted desc (insert_desc key x l).
Proof.
  induction 1 as [| y l Hs IH Hy]; simpl; [repeat constructor |].
  destruct (Nat.ltb_spec (key x) (key y)) as [Hlt | Hge].
  - constructor; [exact IH |].
    rewrite insert_desc_perm. constructor; [lia | exact Hy].
  - constructor; [constructor; assumption |].
    constructor; [exact Hge |].
    eapply Forall_impl; [exact Hy |]. simpl. intros; lia.
Qed.

Lemma sorted_reverse_sorted l : StronglySorted desc (sorted_reverse key l).
Proof.
  induction l as [| x l IH]; simpl; [constructor |].
  apply insert_desc_sorted, IH.
Qed.

Lemma insert_desc_filter (k : nat) x l :
  List.filter (fun a => key a =? k)%nat (insert_desc key x l)
  = List.filter (fun a => key a =? k)%nat (x :: l).
Proof.
  induction l as [| y l IH]; [reflexivity |].
  cbn [insert_desc]. destruct (Nat.ltb_spec (key x) (key y)) as [Hlt | Hge];
    [| reflexivity].
  cbn [List.filter] in *. rewrite IH.
  destruct (Nat.eqb_spec (key x) k) as [Ex | Nx];
    destruct (Nat.eqb_spec (key y) k) as [Ey | Ny]; try reflexivity.
  lia.
Qed.

Lemma sorted_reverse_filter (k : nat) l :
  List.filter (fun a => key a =? k)%nat (sorted_reverse key l)
  = List.filter (fun a => key a =? k)%nat l.
Proof.
  induction l as [| x l IH]; [reflexivity |].
  cbn [sorted_reverse foldr]. rewrite insert_desc_filter.
  cbn [List.filter]. fold (sorted_reverse key l). rewrite IH. reflexivity.
Qed.

Lemma head_insert_desc x l :
  exists c, head (insert_desc key x l) = Some c
            /\ ((key x < key c)%nat \/ c = x).
Proof.
  destruct l as [| y l]; simpl; [eauto |].
  destruct (Nat.ltb_spec (key x) (key y)); simpl; eauto.
Qed.

Lemma head_firstn_S {B : Type} (n : nat) (l : list B) :
  head (firstn (S n) l) = head l.
Proof. destruct l; reflexivity. Qed.

End SortProperties.

(** X13: the sort of the pool loses and duplicates no candidate, orders
    the candidates by non-increasing count, and keeps candidates with the same
    count in the order they had. *)
Theorem sorted_reverse_is_a_stable_descending_sort {A : Type} (key : A -> nat)
    (l : list A) :
  sorted_reverse key l ≡ₚ l
  /\ StronglySorted (fun a b => (key b <= key a)%nat) (sorted_reverse key l)
  /\ forall k : nat,
       List.filter (fun a => key a =? k)%nat (sorted_reverse key l)
       = List.filter (fun a => key a =? k)%nat l.
Proof.
  split; [apply sorted_reverse_perm |].
  split; [apply sorted_reverse_sorted |].
  intros k. apply sorted_reverse_filter.
Qed.

Section SearchCounts.
Context {T : Type} `{Scalar T}.
Variable draws : nat -> Vec3 T.
Variable vertices : list (Vec3 T).
Variable faces : list Face.
Hypothesis faces_in_range : Forall (face_indices_below (length vertices)) faces.

Lemma perturb_step position new_positions calls i :
  exists c,
    Viewplanning.perturb draws vertices faces position (new_positions, calls) i
    = Some (new_positions ++ [c], S calls).
Proof.
  unfold Viewplanning.perturb.
  set (p := vscale (vdiv _ _) _).
  destruct (evaluate_visible_faces_total vertices faces faces_in_range p) as [n Hn].
  rewrite Hn. exists (p, n). reflexivity.
Qed.

Lemma perturb_loop position (l : list nat) :
  forall st, exists new,
    for_loop (Viewplanning.perturb draws vertices faces position) l st
    = Some (fst st ++ new, (snd st + length l)%nat)
    /\ length new = length l.
Proof.
  induction l as [| i l IH]; intros [new_positions calls].
  - exists []. cbn [for_loop fst snd length]. rewrite app_nil_r, Nat.add_0_r. auto.
  - cbn [for_loop].
    destruct (perturb_step position new_positions calls i) as [c ->].
    cbn [mbind option_bind].
    destruct (IH (new_positions ++ [c], S calls)) as (new & -> & Hlen).
    exists (c :: new). cbn [fst snd length].
    rewrite <- app_assoc. split; [do 2 f_equal; lia | lia].
Qed.

Lemma expand_loop (pool : list (Viewplanning.candidate (T := T))) :
  forall st, exists new,
    for_loop (Viewplanning.expand draws vertices faces) pool st
    = Some (fst st ++ new, (snd st + 5 * length pool)%nat)
    /\ length new = (5 * length pool)%nat.
Proof.
  induction pool as [| c pool IH]; intros st.
  - exists []. cbn [for_loop length]. rewrite app_nil_r, Nat.mul_0_r, Nat.add_0_r.
    destruct st; auto.
  - cbn [for_loop].
    change (Viewplanning.expand draws vertices faces st c)
      with (for_loop (Viewplanning.perturb draws vertices faces (fst c))
                     (seq 0 5) st).
    destruct (perturb_loop (fst c) (seq 0 5) st) as (new1 & -> & Hlen1).
    cbn [mbind option_bind].
    destruct (IH (fst st ++ new1, (snd st + length (seq 0 5))%nat))
      as (new2 & -> & Hlen2).
    exists (new1 ++ new2). cbn [fst snd length]. rewrite length_seq in *.
    rewrite <- app_assoc, length_app. split; [do 2 f_equal; lia | lia].
Qed.

Lemma iteration_shape (pool : list (Viewplanning.candidate (T := T))) calls i :
  exists new,
    Viewplanning.iteration draws vertices faces (pool, calls) i
    = Some (firstn Viewplanning.num_candidates_to_keep
                   (sorted_reverse snd (pool ++ new)),
            (calls + 5 * length pool)%nat)
    /\ length new = (5 * length pool)%nat.
Proof.
  unfold Viewplanning.iteration.
  destruct (expand_loop pool ([], calls)) as (new & -> & Hlen).
  exists new. cbn [mbind option_bind fst snd app]. auto.
Qed.

Lemma search_state_sizes (initial_count n : nat) :
  exists pool calls,
    search_state draws vertices faces initial_count n = Some (pool, calls)
    /\ length pool = match n with 0 => 1 | 1 => 6 | _ => 10 end%nat
    /\ calls = match n with
               | 0 => 0
               | 1 => 5
               | S (S k) => 35 + 50 * k
               end%nat.
Proof.
  unfold search_state. induction n as [| n IH].
  - eexists _, _. cbn [seq for_loop length]. auto.
  - destruct IH as (pool & calls & Hst & Hlen & Hcalls).
    rewrite seq_S, for_loop_app, Hst. cbn [mbind option_bind for_loop].
    destruct (iteration_shape pool calls (0 + n)%nat) as (new & -> & Hnew).
    eexists _, _. split; [reflexivity |].
    rewrite length_take, sorted_reverse_length, length_app, Hnew, Hlen, Hcalls.
    unfold Viewplanning.num_candidates_to_keep.
    destruct n as [| [| k]]; split; lia.
Qed.

Lemma search_state_incumbent (initial_count n : nat) :
  exists st st' best best',
    search_state draws vertices faces initial_count n = Some st
    /\ search_state draws vertices faces initial_count (S n) = Some st'
    /\ head (fst st) = Some best /\ head (fst st') = Some best'
    /\ ((snd best < snd best')%nat \/ best' = best).
Proof.
  destruct (search_state_sizes initial_count n) as (pool & calls & Hst & Hlen & _).
  destruct pool as [| best rest]; [destruct n as [| [| ?]]; discriminate Hlen |].
  destruct (iteration_shape (best :: rest) calls (0 + n)%nat) as (new & Hit & _).
  destruct (head_insert_desc snd best (sorted_reverse snd (rest ++ new)))
    as (best' & Hhead & Hbest).
  eexists _, _, best, best'. split; [exact Hst |].
  unfold search_state in *. rewrite seq_S, for_loop_app, Hst.
  cbn [mbind option_bind for_loop]. rewrite Hit.
  split; [reflexivity |]. split; [reflexivity |]. split; [| exact Hbest].
  cbn [fst]. unfold Viewplanning.num_candidates_to_keep.
  rewrite head_firstn_S. exact Hhead.
Qed.

End SearchCounts.

Section SearchOnMesh.
Context {T : Type} `{Scalar T}.

Lemma pool_after_search_state (draws : nat -> Vec3 T) :
  exists vertices faces initial_count,
    Forall (face_indices_below (length vertices)) faces
    /\ forall n, Viewplanning.pool_after draws n
                 = search_state draws vertices faces initial_count n.
Proof.
  destruct (get_icosahedron (T := T)) as [[vertices faces] |] eqn:Emesh;
    [| discriminate Emesh].
  pose proof (icosahedron_faces_in_range vertices faces Emesh) as Hrange.
  destruct (evaluate_visible_faces_total vertices faces Hrange
              Viewplanning.initial_position) as [n0 Hn0].
  exists vertices, faces, n0. split; [exact Hrange |].
  intros n. unfold Viewplanning.pool_after. rewrite Emesh. cbn [mbind option_bind].
  rewrite Hn0. reflexivity.
Qed.

End SearchOnMesh.

(** X14: the pool holds 1 candidate at the start, 6 after the first
    iteration and 10 after every later one, and the search has drawn 5
    adjustments per pool member: 5 after one iteration, 35 after two and 50
    more for each further iteration. *)
Theorem search_pool_sizes :
  forall (T : Type) (Sc : Scalar T) (draws : nat -> Vec3 T) (n : nat),
  exists pool calls,
    Viewplanning.pool_after draws n = Some (pool, calls)
    /\ length pool = match n with 0 => 1 | 1 => 6 | _ => 10 end%nat
    /\ calls = match n with
               | 0 => 0
               | 1 => 5
               | S (S k) => 35 + 50 * k
               end%nat.
Proof.
  intros T Sc draws n.
  destruct (pool_after_search_state draws) as (vertices & faces & n0 & Hrange & ->).
  apply search_state_sizes, Hrange.
Qed.

(** X15: from one iteration to the next the first candidate of the pool,
    which is what the search returns, is either kept or replaced by a
    candidate with strictly more visible faces: a tie never displaces
    it. *)
Theorem search_keeps_incumbent_on_ties :
  forall (T : Type) (Sc : Scalar T) (draws : nat -> Vec3 T) (n : nat),
  exists st st' best best',
    Viewplanning.pool_after draws n = Some st
    /\ Viewplanning.pool_after draws (S n) = Some st'
    /\ head (fst st) = Some best /\ head (fst st') = Some best'
    /\ ((snd best < snd best')%nat \/ best' = best).
Proof.
  intros T Sc draws n.
  destruct (pool_after_search_state draws) as (vertices & faces & n0 & Hrange & E).
  rewrite !E. apply search_state_incumbent, Hrange.
Qed.

(** ** The cone pass of orientation.py *)

Section ConeMode.
Context {T : Type} `{Scalar T} `{Libm T}.
Local Open Scope num_scope.

Lemma cone_face_step (sensor rv : Vec3 T) (vertices : list (Vec3 T))
    (m : nat) (data : list orientation.face_datum) (idx : nat) (face : Face) :
  orientation.cone_face sensor rv vertices (m, data) (idx, face)
  = fv ← face_rows vertices face;
    Some (if datum_angle (cone_datum sensor rv idx fv) <? #60 / #2
          then (S m, data ++ [cone_datum sensor rv idx fv])
          else (m, data)).
Proof.
  unfold orientation.cone_face.
  destruct (face_rows vertices face) as [fv |]; [| reflexivity].
  cbn [mbind option_bind]. unfold cone_datum, datum_angle, normalize. cbn [fst snd].
  destruct (_ <? _); reflexivity.
Qed.

(** What the theorem says of one entry of [best_data]. *)
Local Abbreviation recorded sensor rv vertices faces k :=
  (fun d : orientation.face_datum (T := T) =>
     (k <= datum_face d)%nat
     /\ exists face fv,
          faces !! (datum_face d - k)%nat = Some face
          /\ face_rows vertices face = Some fv
          /\ d = cone_datum sensor rv (datum_face d) fv
          /\ (datum_angle d <? #60 / #2) = true).

Lemma cone_loop (sensor rv : Vec3 T) (vertices : list (Vec3 T)) :
  forall (faces : list Face) (k m : nat) (data : list orientation.face_datum),
    Forall (face_indices_below (length vertices)) faces ->
    exists new,
      for_loop (orientation.cone_face sensor rv vertices)
               (combine (seq k (length faces)) faces) (m, data)
      = Some ((m + length new)%nat, data ++ new)
      /\ StronglySorted lt (map datum_face new)
      /\ Forall (recorded sensor rv vertices faces k) new.
Proof.
  induction faces as [| face faces IH]; intros k m data Hrange.
  - exists []. cbn [length seq combine for_loop].
    rewrite app_nil_r, Nat.add_0_r. repeat split; constructor.
  - inversion Hrange as [| f fs Hface Hrest]; subst.
    destruct (face_rows_in_range vertices face Hface) as [fv Hfv].
    cbn [length seq combine for_loop]. rewrite cone_face_step, Hfv.
    cbn [mbind option_bind].
    assert (Hshift : forall d, recorded sensor rv vertices faces (S k) d ->
                               recorded sensor rv vertices (face :: faces) k d
                               /\ (k < datum_face d)%nat).
    { intros d (Hk & face' & fv' & Hl & Hr & Hd & Ha). split; [| lia].
      split; [lia |]. exists face', fv'.
      replace (datum_face d - k)%nat with (S (datum_face d - S k)) by lia.
      auto. }
    destruct (datum_angle (cone_datum sensor rv k fv) <? #60 / #2) eqn:Ea.
    + destruct (IH (S k) (S m) (data ++ [cone_datum sensor rv k fv]) Hrest)
        as (new & -> & Hsorted & Hall).
      exists (cone_datum sensor rv k fv :: new). cbn [length map].
      rewrite <- app_assoc. split; [do 2 f_equal; lia |].
      split.
      * constructor; [exact Hsorted |]. apply Forall_map.
        eapply Forall_impl; [exact Hall |]. intros d Hd.
        apply Hshift in Hd. cbn [datum_face cone_datum fst] in *. lia.
      * constructor.
        -- split; [cbn; lia |]. exists face, fv.
           change (datum_face (cone_datum sensor rv k fv)) with k.
           rewrite Nat.sub_diag. auto.
        -- eapply Forall_impl; [exact Hall |]. intros d Hd. apply Hshift, Hd.
    + destruct (IH (S k) m data Hrest) as (new & -> & Hsorted & Hall).
      exists new. split; [reflexivity |]. split; [exact Hsorted |].
      eapply Forall_impl; [exact Hall |]. intros d Hd. apply Hshift, Hd.
Qed.

Lemma cone_pass_shape (angle_y angle_x : T) (sensor_idx : nat)
    (sensor_position : Vec3 T) :
  get_sensor_positions !! sensor_idx = Some sensor_position ->
  exists vertices faces best_data,
    get_icosahedron = Some (vertices, faces)
    /\ orientation.get_sensor_rotation angle_y angle_x sensor_idx
       = Some (orientation.get_calibration_object_rotation angle_y angle_x,
               length best_data, best_data)
    /\ StronglySorted lt (map datum_face best_data)
    /\ Forall (recorded sensor_position
                 (matvec (orientation.get_calibration_object_rotation angle_y angle_x)
                    (vdiv (vneg sensor_position) (np_norm sensor_position)))
                 vertices faces 0%nat)
              best_data.
Proof.
  intros Hs. unfold orientation.get_sensor_rotation. rewrite Hs.
  cbn [mbind option_bind].
  destruct (get_icosahedron (T := T)) as [[vertices faces] |] eqn:Emesh;
    [| discriminate Emesh].
  cbn [mbind option_bind].
  pose proof (icosahedron_faces_in_range vertices faces Emesh) as Hrange.
  set (rv := matvec _ _).
  destruct (cone_loop sensor_position rv vertices faces 0 0 [] Hrange)
    as (new & Hloop & Hsorted & Hall).
  unfold enumerate. rewrite Hloop. cbn [mbind option_bind fst snd app Nat.add].
  exists vertices, faces, new. auto.
Qed.

End ConeMode.


(** ** The range of the coverage score *)

Lemma nat_ratio (n d : nat) :
  (n <= d)%nat -> (0 < d)%nat ->
  let q := (IZR (Z.of_nat n) / IZR (Z.of_nat d))%R in
  (0 <= q <= 1)%R /\ (q = 1%R <-> n = d) /\ (q = 0%R <-> n = 0%nat).
Proof.
  intros Hle Hd q.
  assert (HD : (0 < IZR (Z.of_nat d))%R) by (apply IZR_lt; lia).
  assert (HN : (0 <= IZR (Z.of_nat n))%R) by (apply IZR_le; lia).
  assert (HND : (IZR (Z.of_nat n) <= IZR (Z.of_nat d))%R) by (apply IZR_le; lia).
  assert (Hq : (q * IZR (Z.of_nat d) = IZR (Z.of_nat n))%R)
    by (unfold q; field; lra).
  assert (Hinv : (0 < / IZR (Z.of_nat d))%R) by (apply Rinv_0_lt_compat, HD).
  split; [| split].
  - unfold q, Rdiv. split; [apply Rmult_le_pos; lra |].
    apply (Rmult_le_reg_r (IZR (Z.of_nat d))); [exact HD |].
    fold (IZR (Z.of_nat n) / IZR (Z.of_nat d))%R. fold q. lra.
  - split.
    + intros E. rewrite E in Hq. assert (E' : IZR (Z.of_nat d) = IZR (Z.of_nat n)) by lra.
      apply eq_IZR in E'. lia.
    + intros ->. unfold q. field. lra.
  - split.
    + intros E. rewrite E in Hq. assert (E' : IZR (Z.of_nat n) = IZR 0) by lra.
      apply eq_IZR in E'. lia.
    + intros ->. unfold q. simpl. unfold Rdiv. apply Rmult_0_l.
Qed.

(** X17: over the reals the coverage score is between 0 and 1; it is 0 for
    a sensor index that the table of expected faces does not have; it is 1
    exactly when some faces are expected and all of them are seen; it is 0
    exactly when no expected face is seen. *)
Theorem coverage_score_range :
  forall (expected : gmap nat (list nat)) (sensor_idx : nat)
         (face_data : list (nat * R * R * Vec3 R)),
    let actual : gset nat :=
      list_to_set (map (fun f => fst (fst (fst f))) face_data) in
    let expected_set : gset nat :=
      list_to_set (default [] (expected !! sensor_idx)) in
    exists score : R,
      optimization.coverage_score expected sensor_idx face_data = Some score
      /\ (0 <= score <= 1)%R
      /\ (expected !! sensor_idx = None -> score = 0%R)
      /\ (score = 1%R <-> expected_set <> ∅ /\ expected_set ⊆ actual)
      /\ (score = 0%R <-> actual ∩ expected_set = ∅).
Proof.
  intros expected sensor_idx face_data actual expected_set.
  unfold optimization.coverage_score, py_truediv.
  fold actual. fold expected_set.
  replace (Z.max (Z.of_nat (size expected_set)) 1)
    with (Z.of_nat (Nat.max (size expected_set) 1)) by lia.
  destruct (Z.eqb_spec (Z.of_nat (Nat.max (size expected_set) 1)) 0) as [E | _];
    [lia |].
  eexists; split; [reflexivity |]. real_ops.
  assert (Hsub : (size (actual ∩ expected_set) <= size expected_set)%nat)
    by (apply subseteq_size, intersection_subseteq_r).
  destruct (nat_ratio (size (actual ∩ expected_set))
              (Nat.max (size expected_set) 1)) as (Hrange & Hone & Hzero);
    [lia | lia |].
  split; [exact Hrange |]. split; [| split].
  - intros Hmiss. apply Hzero. subst expected_set. rewrite Hmiss. cbn [default].
    rewrite list_to_set_nil, (right_absorb_L ∅ (∩)). apply size_empty.
  - rewrite Hone. split.
    + intros Hsize.
      assert (Hpos : (0 < size expected_set)%nat) by lia.
      split.
      * intros Hempty. rewrite Hempty, size_empty in Hpos. lia.
      * assert (Heq : actual ∩ expected_set = expected_set).
        { apply set_subseteq_size_eq; [apply intersection_subseteq_r | lia]. }
        rewrite <- Heq. apply intersection_subseteq_l.
    + intros [Hne Hincl].
      assert (Heq : actual ∩ expected_set = expected_set).
      { rewrite (comm_L (∩)). apply subseteq_intersection_1_L, Hincl. }
      rewrite Heq.
      assert (size expected_set <> 0%nat).
      { intros E0. apply size_empty_inv in E0. apply Hne, leibniz_equiv, E0. }
      lia.
  - rewrite Hzero. split.
    + intros E0. apply leibniz_equiv, size_empty_inv, E0.
    + intros ->. apply size_empty.
Qed.

(** ** The objective: order of the sensors, and an upper bound *)

Section ObjectiveExtras.
Local Open Scope R_scope.

Lemma sum_R_perm (l l' : list R) : l ≡ₚ l' -> sum_R l = sum_R l'.
Proof.
  induction 1 as [| x l l' _ IH | x y l | l1 l2 l3 _ IH1 _ IH2];
    unfold sum_R in *; simpl; lra.
Qed.

Lemma shared_faces_comm (s1 s2 : list nat) : shared_faces s1 s2 = shared_faces s2 s1.
Proof. unfold shared_faces. rewrite (comm_L (∩)). reflexivity. Qed.

Lemma sum_shared_perm (s : list nat) (l l' : list (list nat)) :
  l ≡ₚ l' -> sum_list (map (shared_faces s) l) = sum_list (map (shared_faces s) l').
Proof.
  induction 1 as [| x l l' _ IH | x y l | l1 l2 l3 _ IH1 _ IH2]; simpl; lia.
Qed.

Lemma overlap_penalty_perm (l l' : list (list nat)) :
  l ≡ₚ l' -> overlap_penalty l = overlap_penalty l'.
Proof.
  induction 1 as [| x l l' Hp IH | x y l | l1 l2 l3 _ IH1 _ IH2].
  - reflexivity.
  - cbn [overlap_penalty]. rewrite IH, (sum_shared_perm x l l' Hp). reflexivity.
  - cbn [overlap_penalty map sum_list]. rewrite (shared_faces_comm y x). lia.
  - lia.
Qed.

Lemma union_visible_perm (l l' : list (list nat)) :
  l ≡ₚ l' ->
  (⋃ (map list_to_set l) : gset nat) = ⋃ (map list_to_set l').
Proof.
  induction 1 as [| x l l' _ IH | x y l | l1 l2 l3 _ IH1 _ IH2].
  - reflexivity.
  - cbn [map union_list foldr] in *. rewrite IH. reflexivity.
  - cbn [map union_list foldr].
    rewrite !(assoc_L (∪)), (comm_L (∪) (list_to_set y)). reflexivity.
  - congruence.
Qed.

Lemma objective_formula_perm (vf vf' : list (list nat)) (d d' a a' : list R)
    (total_faces : nat) :
  vf ≡ₚ vf' -> d ≡ₚ d' -> a ≡ₚ a' ->
  objective_formula vf d a total_faces = objective_formula vf' d' a' total_faces.
Proof.
  intros Hvf Hd Ha. unfold objective_formula, coverage_fraction.
  rewrite (union_visible_perm vf vf' Hvf), (overlap_penalty_perm vf vf' Hvf),
    (sum_R_perm d d' Hd).
  rewrite (sum_R_perm (map _ a) (map (fun angle => 1 / (1 + cos (angle * (PI / 180)))) a'));
    [reflexivity |].
  apply Permutation_map, Ha.
Qed.

(** X18: the objective does not depend on the order in which the sensors
    are listed, nor on the order of the distances and of the angles, nor on
    its first argument. *)
Theorem objective_ignores_the_order_of_sensors
    (sensors_positions sensors_positions' : list (Vec3 R))
    (visible_faces visible_faces' : list (list nat))
    (distances distances' angles angles' : list R) (total_faces : nat) :
  visible_faces ≡ₚ visible_faces' ->
  distances ≡ₚ distances' ->
  angles ≡ₚ angles' ->
  Objective_function.evaluate_coverage_view_plan sensors_positions visible_faces
    distances angles total_faces
  = Objective_function.evaluate_coverage_view_plan sensors_positions' visible_faces'
      distances' angles' total_faces.
Proof.
  intros Hvf Hd Ha. rewrite !evaluate_coverage_view_plan_formula.
  destruct (Nat.eqb total_faces 0); [reflexivity |].
  f_equal. apply objective_formula_perm; assumption.
Qed.

Lemma objective_ignores_the_order_of_sensors_witness :
  Objective_function.evaluate_coverage_view_plan
    [mkVec3 8 0 0; mkVec3 0 8 0] [[0; 1]; [1; 2]]%nat [3; 4; 5; 6] [10; 20; 30; 40] 20
  = Objective_function.evaluate_coverage_view_plan
      [mkVec3 0 8 0; mkVec3 8 0 0] [[1; 2]; [0; 1]]%nat [5; 6; 3; 4] [30; 40; 10; 20] 20.
Proof.
  apply objective_ignores_the_order_of_sensors.
  - apply perm_swap.
  - apply (Permutation_app_comm [3; 4] [5; 6]).
  - apply (Permutation_app_comm [10; 20] [30; 40]).
Defined.

End ObjectiveExtras.

Section ObjectiveBound.
Local Open Scope R_scope.

Lemma visible_rows_below (sensor : Vec3 R) (rows : list (Vec3 R * Vec3 R * Vec3 R)) :
  Forall (fun i => (i < length rows)%nat) (map fst (visible_rows sensor 0 rows)).
Proof.
  apply Forall_forall. intros i Hi. apply list_elem_of_In in Hi.
  apply visible_rows_member in Hi. destruct Hi as (_ & fv & Hfv & _).
  rewrite Nat.sub_0_r in Hfv. apply lookup_lt_Some in Hfv. exact Hfv.
Qed.

Lemma coverage_fraction_le_1 (visible_faces : list (list nat)) (n : nat) :
  (0 < n)%nat ->
  Forall (Forall (fun i => (i < n)%nat)) visible_faces ->
  coverage_fraction visible_faces n <= 1.
Proof.
  intros Hn Hall. unfold coverage_fraction.
  assert (Hsize : (size (⋃ (map list_to_set visible_faces) : gset nat) <= n)%nat).
  { assert (Hseq : size (list_to_set (seq 0 n) : gset nat) = n)
      by (rewrite size_list_to_set by apply NoDup_seq; apply length_seq).
    etransitivity; [| apply Nat.eq_le_incl, Hseq].
    apply subseteq_size. intros x Hx.
    apply elem_of_union_list in Hx. destruct Hx as (X & HX & Hx).
    apply list_elem_of_fmap in HX. destruct HX as (l & -> & Hl).
    apply elem_of_list_to_set in Hx. apply elem_of_list_to_set.
    rewrite Forall_forall in Hall. specialize (Hall l Hl).
    rewrite Forall_forall in Hall. specialize (Hall x Hx).
    apply elem_of_seq. lia. }
  assert (HN : 0 < INR n) by (apply lt_0_INR; lia).
  apply le_INR in Hsize.
  apply (Rmult_le_reg_r (INR n)); [exact HN |].
  unfold Rdiv. rewrite Rmult_assoc, Rinv_l by lra. lra.
Qed.

Lemma sum_R_nonneg (l : list R) : Forall (fun x => 0 <= x) l -> 0 <= sum_R l.
Proof. induction 1; unfold sum_R in *; simpl; lra. Qed.

Lemma sum_R_at_least_half (l : list R) :
  Forall (fun x => 1 / 2 <= x) l -> INR (length l) / 2 <= sum_R l.
Proof.
  induction 1 as [| x l Hx _ IH]; unfold sum_R in *.
  - simpl. lra.
  - cbn [length foldr]. rewrite S_INR. lra.
Qed.

Lemma penalty_at_least_half (angle : R) :
  1 < 1 + cos (np_radians angle) -> 1 / 2 <= 1 / (1 + cos (angle * (PI / 180))).
Proof.
  unfold np_radians. real_ops. intros Hden.
  pose proof (COS_bound (angle * (PI / 180))) as [_ Hc].
  set (c := cos (angle * (PI / 180))) in *.
  apply (Rmult_le_reg_r (2 * (1 + c))); [lra |].
  field_simplify; lra.
Qed.

(** X19: the score that [plot_sensor_and_phases] computes is at most
    [1 - n / 2], where [n] is the number of visible (sensor, face) pairs:
    every visible pair costs at least 1/2 in the angle penalty. *)
Theorem rig_score_upper_bound (sensors : list (Vec3 R)) (vertices : list (Vec3 R))
    (faces : list Face) :
  match mapM (face_rows vertices) faces with
  | Some rows =>
      faces = []
      \/ exists score,
           Objective_function.score_of_rig sensors vertices faces = Some score
           /\ score <= 1 - INR (length (visible_pairs sensors rows)) / 2
  | None => True
  end.
Proof.
  destruct (mapM (face_rows vertices) faces) as [rows |] eqn:Hrows; [| trivial].
  destruct faces as [| face faces']; [left; reflexivity | right].
  set (faces := face :: faces') in *.
  unfold Objective_function.score_of_rig, Objective_function.rig_tables.
  rewrite (rig_loop_records vertices faces rows Hrows). cbn [mbind option_bind app].
  rewrite evaluate_coverage_view_plan_formula.
  change (Nat.eqb (length faces) 0) with false. cbv iota.
  eexists; split; [reflexivity |]. unfold objective_formula.
  pose proof (length_mapM _ _ _ Hrows) as Hlen.
  assert (Hcov : coverage_fraction
                   (map (fun s => map fst (visible_rows s 0 rows)) sensors)
                   (length faces) <= 1).
  { apply coverage_fraction_le_1; [subst faces; simpl; lia |].
    apply Forall_map, Forall_forall. intros s _. cbn beta.
    rewrite Hlen. apply visible_rows_below. }
  assert (Hdist : 0 <= sum_R (map pair_distance (visible_pairs sensors rows))).
  { apply sum_R_nonneg, Forall_map, Forall_forall. intros p _. cbn beta.
    unfold pair_distance, face_distance, np_norm. real_ops. apply sqrt_pos. }
  assert (Hang : INR (length (visible_pairs sensors rows)) / 2
                 <= sum_R (map (fun angle => 1 / (1 + cos (angle * (PI / 180))))
                               (map pair_angle (visible_pairs sensors rows)))).
  { rewrite <- (length_map pair_angle), <- (length_map (fun angle : R => 1 / (1 + cos (angle * (PI / 180))))).
    apply sum_R_at_least_half. rewrite map_map. apply Forall_map.
    eapply Forall_impl; [apply visible_pairs_visible |].
    intros [s [i fv]] Hvis. cbn [fst snd] in Hvis. cbn beta.
    apply penalty_at_least_half. unfold pair_angle. cbn [fst snd].
    apply visible_angle_bound, Hvis. }
  assert (Hover : 0 <= INR (overlap_penalty
                              (map (fun s => map fst (visible_rows s 0 rows)) sensors)))
    by apply pos_INR.
  lra.
Qed.

End ObjectiveBound.

(** ** The tables *)

Section TestingTable.
Context {T : Type} `{Scalar T}.
Import Testing_with_Euler_angles_table.

Lemma table_row_at_Some (distances angles : list T) (visible_faces : list nat)
    (orientations : list (Vec3 T)) (i : nat) (row : table_row) :
  table_row_at distances angles visible_faces orientations i = Some row ->
  row_sensor row = (i / 10 + 1)%nat
  /\ get_sensor_positions !! (i / 10)%nat = Some (row_pose row)
  /\ orientations !! (i / 10)%nat = Some (row_orientation row)
  /\ visible_faces !! i = Some (row_face row)
  /\ distances !! i = Some (row_distance row)
  /\ angles !! i = Some (row_angle row).
Proof.
  unfold table_row_at.
  destruct (get_sensor_positions !! (i / 10)%nat) as [p |]; [| discriminate].
  destruct (orientations !! (i / 10)%nat) as [o |]; [| discriminate].
  destruct (visible_faces !! i) as [f |]; [| discriminate].
  destruct (distances !! i) as [d |]; [| discriminate].
  destruct (angles !! i) as [a |]; [| discriminate].
  cbn [mbind option_bind]. intros E. injection E as <-. cbn. auto 10.
Qed.

Lemma table_row_at_is_Some (distances angles : list T) (visible_faces : list nat)
    (orientations : list (Vec3 T)) (i : nat) :
  (i / 10 < 6)%nat -> (i / 10 < length orientations)%nat ->
  (i < length visible_faces)%nat -> (i < length distances)%nat ->
  (i < length angles)%nat ->
  is_Some (table_row_at distances angles visible_faces orientations i).
Proof.
  intros H1 H2 H3 H4 H5. unfold table_row_at.
  destruct (lookup_lt_is_Some_2 (get_sensor_positions (T := T)) (i / 10)%nat)
    as [p ->]; [exact H1 |].
  destruct (lookup_lt_is_Some_2 orientations (i / 10)%nat H2) as [o ->].
  destruct (lookup_lt_is_Some_2 visible_faces i H3) as [f ->].
  destruct (lookup_lt_is_Some_2 distances i H4) as [d ->].
  destruct (lookup_lt_is_Some_2 angles i H5) as [a ->].
  cbn [mbind option_bind]. eauto.
Qed.

End TestingTable.

(** X20: [update_table] of Testing_with_Euler_angles.py gives row [i] the
    label, the pose and the orientation of sensor [i // 10], whatever sensor
    the row came from; with lists of equal lengths and six orientations it
    raises exactly when there are more than 60 rows. *)
Theorem testing_table_labels_rows_by_tens :
  forall (T : Type) (Sc : Scalar T) (distances angles : list T)
         (visible_faces : list nat) (orientations : list (Vec3 T)),
    (forall table,
        Testing_with_Euler_angles_table.update_table distances angles visible_faces
          orientations = Some table ->
        length table = length distances
        /\ forall i row,
             table !! i = Some row ->
             Testing_with_Euler_angles_table.row_sensor row = (i / 10 + 1)%nat
             /\ get_sensor_positions !! (i / 10)%nat
                = Some (Testing_with_Euler_angles_table.row_pose row)
             /\ orientations !! (i / 10)%nat
                = Some (Testing_with_Euler_angles_table.row_orientation row)
             /\ visible_faces !! i
                = Some (Testing_with_Euler_angles_table.row_face row)
             /\ distances !! i
                = Some (Testing_with_Euler_angles_table.row_distance row)
             /\ angles !! i
                = Some (Testing_with_Euler_angles_table.row_angle row))
    /\ (length angles = length distances ->
        length visible_faces = length distances ->
        length orientations = 6%nat ->
        (Testing_with_Euler_angles_table.update_table distances angles
           visible_faces orientations = None
         <-> (60 < length distances)%nat)).
Proof.
  intros T Sc distances angles visible_faces orientations.
  unfold Testing_with_Euler_angles_table.update_table. split.
  - intros table Htable. apply mapM_Some_1 in Htable.
    pose proof (Forall2_length _ _ _ Htable) as Hlen. rewrite length_seq in Hlen.
    split; [symmetry; exact Hlen |].
    intros i row Hrow.
    destruct (Forall2_lookup_r _ _ _ _ _ Htable Hrow) as (j & Hj & Hat).
    apply lookup_seq in Hj. destruct Hj as [-> _]. cbn [Nat.add] in Hat.
    apply table_row_at_Some, Hat.
  - intros Ha Hv Ho. split.
    + intros Hnone.
      destruct (Nat.le_gt_cases (length distances) 60) as [Hle | Hgt];
        [exfalso | exact Hgt].
      assert (Hsome : is_Some
                        (mapM (Testing_with_Euler_angles_table.table_row_at distances
                                 angles visible_faces orientations)
                              (seq 0 (length distances)))).
      { apply mapM_is_Some_2, Forall_forall. intros i Hi.
        apply elem_of_seq in Hi. cbn [compose].
        assert ((i / 10 < 6)%nat) by (apply Nat.Div0.div_lt_upper_bound; lia).
        apply table_row_at_is_Some; lia. }
      rewrite Hnone in Hsome. destruct Hsome as [? E]. discriminate E.
    + intros Hgt. apply mapM_None_2, Exists_exists. exists 60%nat.
      split; [apply elem_of_seq; lia | reflexivity].
Qed.

Section ObjectiveTable.
Context {T : Type} `{Scalar T}.
Import Objective_function_table.

Lemma objective_row_at_Some (distances angles : list T) (flat : list nat) (i : nat)
    (row : table_row) :
  table_row_at distances angles flat i = Some row ->
  row_sensor row = (i / 6 + 1)%nat
  /\ row_face row = flat !! i
  /\ distances !! i = Some (row_distance row)
  /\ angles !! i = Some (row_angle row).
Proof.
  unfold table_row_at.
  destruct (distances !! i) as [d |]; [| discriminate].
  destruct (angles !! i) as [a |]; [| discriminate].
  cbn [mbind option_bind]. intros E. injection E as <-. cbn [row_sensor row_face
    row_distance row_angle].
  repeat split; try reflexivity.
  destruct (Nat.ltb_spec i (length flat)) as [Hlt | Hge]; [reflexivity |].
  symmetry. apply lookup_ge_None. exact Hge.
Qed.

Lemma lookup_concat_uniform {A : Type} (n : nat) (ls : list (list A)) :
  (0 < n)%nat -> Forall (fun l => length l = n) ls ->
  forall i, concat ls !! i = l ← ls !! (i / n)%nat; l !! (i mod n)%nat.
Proof.
  intros Hn Hall. induction Hall as [| l ls Hl _ IH]; intros i.
  - reflexivity.
  - cbn [concat]. destruct (Nat.lt_ge_cases i n) as [Hlt | Hge].
    + rewrite lookup_app_l by lia.
      rewrite Nat.div_small, Nat.mod_small by lia. reflexivity.
    + rewrite lookup_app_r by lia. rewrite Hl, IH.
      assert (Ediv : (i / n = S ((i - n) / n))%nat).
      { replace i with ((i - n) + 1 * n)%nat at 1 by lia.
        rewrite Nat.div_add by lia. lia. }
      assert (Emod : (i mod n = (i - n) mod n)%nat).
      { replace i with ((i - n) + 1 * n)%nat at 1 by lia.
        apply Nat.Div0.mod_add. }
      rewrite Ediv, Emod. reflexivity.
Qed.

End ObjectiveTable.

(** X21: [update_table] of Objective_function.py raises exactly when
    [angles] is shorter than [distances]; row [i] is labelled with sensor
    [i // 6 + 1] and shows entry [i] of the flattened face lists, or "N/A"
    past their end; when every sensor has six faces that entry is entry
    [i mod 6] of the list of the sensor of the label. *)
Theorem objective_table_labels_rows_by_sixes :
  forall (T : Type) (Sc : Scalar T) (distances angles : list T)
         (visible_faces : list (list nat)),
    (Objective_function_table.update_table distances angles visible_faces = None
     <-> (length angles < length distances)%nat)
    /\ forall table,
         Objective_function_table.update_table distances angles visible_faces
         = Some table ->
         length table = length distances
         /\ forall i row,
              table !! i = Some row ->
              Objective_function_table.row_sensor row = (i / 6 + 1)%nat
              /\ Objective_function_table.row_face row = concat visible_faces !! i
              /\ distances !! i = Some (Objective_function_table.row_distance row)
              /\ angles !! i = Some (Objective_function_table.row_angle row)
              /\ (Forall (fun l => length l = 6%nat) visible_faces ->
                  Objective_function_table.row_face row
                  = l ← visible_faces
                        !! (Objective_function_table.row_sensor row - 1)%nat;
                    l !! (i mod 6)%nat).
Proof.
  intros T Sc distances angles visible_faces.
  unfold Objective_function_table.update_table. split.
  - split.
    + intros Hnone. apply mapM_None_1, Exists_exists in Hnone.
      destruct Hnone as (i & Hi & Hat). apply elem_of_seq in Hi.
      unfold Objective_function_table.table_row_at in Hat.
      destruct (lookup_lt_is_Some_2 distances i) as [d Hd]; [lia |].
      rewrite Hd in Hat. cbn [mbind option_bind] in Hat.
      destruct (angles !! i) as [a |] eqn:Ha; [discriminate Hat |].
      apply lookup_ge_None in Ha. lia.
    + intros Hlt. apply mapM_None_2, Exists_exists. exists (length angles).
      split; [apply elem_of_seq; lia |].
      unfold Objective_function_table.table_row_at.
      destruct (distances !! length angles); [| reflexivity].
      cbn [mbind option_bind].
      rewrite (proj2 (lookup_ge_None angles (length angles))) by lia. reflexivity.
  - intros table Htable. apply mapM_Some_1 in Htable.
    pose proof (Forall2_length _ _ _ Htable) as Hlen. rewrite length_seq in Hlen.
    split; [symmetry; exact Hlen |].
    intros i row Hrow.
    destruct (Forall2_lookup_r _ _ _ _ _ Htable Hrow) as (j & Hj & Hat).
    apply lookup_seq in Hj. destruct Hj as [-> _]. cbn [Nat.add] in Hat.
    destruct (objective_row_at_Some _ _ _ _ _ Hat) as (Hs & Hf & Hd & Ha).
    repeat (split; [assumption |]).
    intros Hsix. rewrite Hf, Hs.
    rewrite (lookup_concat_uniform 6 visible_faces) by (lia || assumption).
    replace (i / 6 + 1 - 1)%nat with (i / 6)%nat by lia. reflexivity.
Qed.

Section TablesOfTheFixedRig.
Variable libm : Libm float.

(** X22: in binary64 the table of Testing_with_Euler_angles.py for the
    fixed rig has 36 rows, six for each sensor in turn, but the rows are
    labelled by tens: the six rows of the second sensor and four rows of the
    third carry the label and the pose of the first or second sensor, and
    the labels stop at sensor 4. *)
Theorem testing_table_mislabels_rows :
  exists table rows,
    Testing_with_Euler_angles_table.plot_sensor_and_phases = Some table
    /\ mesh_rows = Some rows
    /\ length table = 36%nat
    /\ map Testing_with_Euler_angles_table.row_face table
       = map (fun p => fst (snd p)) (visible_pairs get_sensor_positions rows)
    /\ map fst (visible_pairs get_sensor_positions rows)
       = flat_map (fun sensor_position => repeat sensor_position 6)
                  get_sensor_positions
    /\ map Testing_with_Euler_angles_table.row_pose table
       = repeat (mkVec3 8 0 0)%float 10 ++ repeat (mkVec3 (-8) 0 0)%float 10
         ++ repeat (mkVec3 0 8 0)%float 10 ++ repeat (mkVec3 0 (-8) 0)%float 6
    /\ map Testing_with_Euler_angles_table.row_sensor table
       = (repeat 1 10 ++ repeat 2 10 ++ repeat 3 10 ++ repeat 4 6)%nat.
Proof.
  eexists _, _. split; [vm_compute; reflexivity |].
  split; [vm_compute; reflexivity |].
  repeat split; vm_compute; reflexivity.
Qed.

(** X23: in binary64 every sensor of the fixed rig sees six faces, so
    in the table of Objective_function.py each of the 36 rows is labelled
    with the sensor that sees its face. *)
Theorem objective_table_labels_match_the_fixed_rig :
  exists table rows,
    Objective_function_table.plot_table = Some table
    /\ mesh_rows = Some rows
    /\ length table = 36%nat
    /\ map Objective_function_table.row_face table
       = map (fun p => Some (fst (snd p)))
             (visible_pairs get_sensor_positions rows)
    /\ map (fun row => get_sensor_positions
                         !! (Objective_function_table.row_sensor row - 1)%nat)
           table
       = map (fun p => Some (fst p)) (visible_pairs get_sensor_positions rows).
Proof.
  eexists _, _. split; [vm_compute; reflexivity |].
  split; [vm_compute; reflexivity |].
  repeat split; vm_compute; reflexivity.
Qed.

End TablesOfTheFixedRig.

(** ** The table of orientation.py *)

Lemma sensor_blocks_length_filter (counts : list nat) :
  forall j k,
    length (List.filter (fun x => x =? k)%nat (sensor_blocks j counts))
    = if (j <=? k)%nat then default 0%nat (counts !! (k - j)%nat) else 0%nat.
Proof.
  induction counts as [| c rest IH]; intros j k.
  - cbn [sensor_blocks List.filter length]. rewrite lookup_nil.
    destruct (j <=? k)%nat; reflexivity.
  - cbn [sensor_blocks]. rewrite List.filter_app, length_app, IH.
    assert (Hrep : length (List.filter (fun x => x =? k)%nat (repeat j c))
                   = if (j =? k)%nat then c else 0%nat).
    { induction c as [| c IHc]; cbn [repeat List.filter];
        [destruct (j =? k)%nat; reflexivity |].
      destruct (j =? k)%nat; cbn [length]; rewrite IHc; reflexivity. }
    rewrite Hrep.
    destruct (Nat.eqb_spec j k) as [-> | Hne].
    + rewrite Nat.leb_refl, Nat.sub_diag.
      destruct (Nat.leb_spec (S k) k); [lia |]. cbn. lia.
    + destruct (Nat.leb_spec j k) as [Hle | Hgt].
      * destruct (Nat.leb_spec (S j) k); [| lia].
        replace (k - j)%nat with (S (k - S j)) by lia. reflexivity.
      * destruct (Nat.leb_spec (S j) k); [lia | reflexivity].
Qed.

Lemma sensor_blocks_bounds (counts : list nat) :
  forall j, Forall (fun x => (j <= x < j + length counts)%nat) (sensor_blocks j counts).
Proof.
  induction counts as [| c rest IH]; intros j; [constructor |].
  cbn [sensor_blocks length]. apply Forall_app. split.
  - apply Forall_forall. intros x Hx. apply list_elem_of_In, repeat_spec in Hx. lia.
  - eapply Forall_impl; [apply IH |]. cbn beta. intros; lia.
Qed.

Lemma sensor_blocks_app (c1 c2 : list nat) :
  forall j, sensor_blocks j (c1 ++ c2)
            = sensor_blocks j c1 ++ sensor_blocks (j + length c1) c2.
Proof.
  induction c1 as [| c c1 IH]; intros j.
  - cbn [sensor_blocks app length]. rewrite Nat.add_0_r. reflexivity.
  - cbn [sensor_blocks app length]. rewrite IH, <- app_assoc.
    replace (S j + length c1)%nat with (j + S (length c1))%nat by lia. reflexivity.
Qed.

Section OrientationTable.
Context {T : Type} `{Scalar T} `{Libm T}.
Import orientation_table.

Lemma record_face_step (vertices : list (Vec3 T)) (faces : list Face) (k : nat)
    (d : orientation.face_datum) (face : Face) (fv : Vec3 T * Vec3 T * Vec3 T)
    distances angles visible_faces sensor_indices :
  faces !! datum_face d = Some face ->
  face_rows vertices face = Some fv ->
  record_face vertices faces k (distances, angles, visible_faces, sensor_indices) d
  = Some (distances ++ [snd (fst (fst d))], angles ++ [datum_angle d],
          visible_faces ++ [datum_face d], sensor_indices ++ [k]).
Proof.
  destruct d as [[[face_idx distance] angle] face_center].
  cbn [datum_face datum_angle fst snd]. intros Hface Hfv.
  unfold record_face. rewrite Hface. cbn [mbind option_bind]. rewrite Hfv.
  reflexivity.
Qed.

Lemma record_loop (vertices : list (Vec3 T)) (faces : list Face) (k : nat)
    (data : list orientation.face_datum) :
  Forall (fun d => exists face fv,
                     faces !! datum_face d = Some face
                     /\ face_rows vertices face = Some fv) data ->
  forall distances angles visible_faces sensor_indices,
    for_loop (record_face vertices faces k) data
             (distances, angles, visible_faces, sensor_indices)
    = Some (distances ++ map (fun d => snd (fst (fst d))) data,
            angles ++ map datum_angle data,
            visible_faces ++ map datum_face data,
            sensor_indices ++ repeat k (length data)).
Proof.
  induction 1 as [| d data (face & fv & Hface & Hfv) _ IH];
    intros distances angles visible_faces sensor_indices.
  - cbn [for_loop map length repeat]. rewrite !app_nil_r. reflexivity.
  - cbn [for_loop]. rewrite (record_face_step _ _ _ _ face fv) by assumption.
    cbn [mbind option_bind]. rewrite IH. cbn [map length repeat].
    rewrite <- !app_assoc. reflexivity.
Qed.

Lemma visit_sensor_step (clock : nat -> T * T) (vertices : list (Vec3 T))
    (faces : list Face) (counts : list nat) (st : scene_state) (p : Vec3 T) :
  get_icosahedron = Some (vertices, faces) ->
  scene_invariant counts st ->
  get_sensor_positions !! length counts = Some p ->
  exists c st',
    visit_sensor clock vertices faces st (length counts, p) = Some st'
    /\ scene_invariant (counts ++ [c]) st'.
Proof.
  intros Hmesh Hinv Hp.
  destruct st as [[[[[distances angles] visible_faces] sensor_indices] orientations]
                  sensor_status].
  destruct Hinv as (Hsi & Hst & Ho & Hd & Ha & Hv).
  destruct (cone_pass_shape (fst (clock (length counts))) (snd (clock (length counts)))
              (length counts) p Hp)
    as (vertices' & faces' & data & Hmesh' & Hrot & _ & Hall).
  rewrite Hmesh in Hmesh'. injection Hmesh' as <- <-.
  exists (length data). unfold visit_sensor. rewrite Hrot. cbn [mbind option_bind].
  rewrite record_loop.
  - cbn [mbind option_bind]. eexists; split; [reflexivity |].
    unfold scene_invariant. rewrite !length_app, !length_map, repeat_length.
    rewrite sensor_blocks_app, map_app. cbn [sensor_blocks map length Nat.add].
    rewrite app_nil_r. subst sensor_indices sensor_status.
    rewrite Hd, Ha, Hv, Ho. repeat split.
  - eapply Forall_impl; [exact Hall |].
    intros d (_ & face & fv & Hl & Hr & _). rewrite Nat.sub_0_r in Hl. eauto.
Qed.

Lemma sensors_loop (clock : nat -> T * T) (vertices : list (Vec3 T))
    (faces : list Face) :
  get_icosahedron = Some (vertices, faces) ->
  forall (ps : list (Vec3 T)) (counts : list nat) (st : scene_state),
    scene_invariant counts st ->
    (forall i p, ps !! i = Some p ->
                 get_sensor_positions !! (length counts + i)%nat = Some p) ->
    exists counts' st',
      for_loop (visit_sensor clock vertices faces)
               (combine (seq (length counts) (length ps)) ps) st = Some st'
      /\ scene_invariant counts' st'
      /\ length counts' = (length counts + length ps)%nat.
Proof.
  intros Hmesh. induction ps as [| p ps IH]; intros counts st Hinv Hps.
  - exists counts, st. cbn [length seq combine for_loop]. auto.
  - cbn [length seq combine for_loop].
    destruct (visit_sensor_step clock vertices faces counts st p Hmesh Hinv)
      as (c & st1 & -> & Hinv1).
    { rewrite <- (Nat.add_0_r (length counts)). apply Hps. reflexivity. }
    cbn [mbind option_bind].
    destruct (IH (counts ++ [c]) st1 Hinv1) as (counts' & st' & Hloop & Hinv' & Hlen).
    { intros i q Hq. rewrite length_app. cbn [length].
      replace (length counts + 1 + i)%nat with (length counts + S i)%nat by lia.
      apply Hps. exact Hq. }
    rewrite length_app in Hloop, Hlen. cbn [length] in Hloop, Hlen.
    replace (length counts + 1)%nat with (S (length counts)) in Hloop by lia.
    exists counts', st'. split; [exact Hloop |]. split; [exact Hinv' | lia].
Qed.

Lemma update_table_rows (counts : list nat) (st : scene_state) :
  length counts = 6%nat ->
  scene_invariant counts st ->
  let '(distances, angles, visible_faces, sensor_indices, orientations,
        sensor_status) := st in
  exists table,
    update_table distances angles visible_faces orientations sensor_status
                 sensor_indices = Some table
    /\ Forall2 (fun k row =>
                  (k < 6)%nat
                  /\ row_sensor row = (k + 1)%nat
                  /\ get_sensor_positions !! k = Some (row_pose row)
                  /\ exists c, counts !! k = Some c /\ row_status row = status_of c)
               sensor_indices table.
Proof.
  intros Hsix Hinv.
  destruct st as [[[[[distances angles] visible_faces] sensor_indices] orientations]
                  sensor_status].
  destruct Hinv as (Hsi & Hst & Ho & Hd & Ha & Hv).
  assert (Hbound : Forall (fun x => (x < 6)%nat) sensor_indices).
  { rewrite Hsi. eapply Forall_impl; [apply sensor_blocks_bounds |].
    cbn beta. intros; lia. }
  assert (Hrows : forall i k, sensor_indices !! i = Some k ->
            exists row c,
              table_row_at distances angles visible_faces orientations
                sensor_status sensor_indices i = Some row
              /\ (k < 6)%nat /\ row_sensor row = (k + 1)%nat
              /\ get_sensor_positions !! k = Some (row_pose row)
              /\ counts !! k = Some c /\ row_status row = status_of c).
  { intros i k Hk. pose proof (Forall_lookup_1 _ _ _ _ Hbound Hk) as Hk6.
    cbn beta in Hk6.
    pose proof (lookup_lt_Some _ _ _ Hk) as Hi.
    unfold table_row_at. rewrite Hk. cbn [mbind option_bind].
    destruct (lookup_lt_is_Some_2 (get_sensor_positions (T := T)) k) as [p Hp];
      [exact Hk6 |].
    destruct (lookup_lt_is_Some_2 orientations k) as [o Ho']; [lia |].
    destruct (lookup_lt_is_Some_2 counts k) as [c Hc]; [lia |].
    destruct (lookup_lt_is_Some_2 visible_faces i) as [f Hf]; [lia |].
    destruct (lookup_lt_is_Some_2 distances i) as [d Hd']; [lia |].
    destruct (lookup_lt_is_Some_2 angles i) as [a Ha']; [lia |].
    rewrite Hp, Ho', Hst, list_lookup_fmap, Hc, Hf, Hd', Ha'.
    cbn [mbind option_bind fmap option_fmap option_map].
    eexists _, c. split; [reflexivity |]. cbn. auto. }
  assert (Hsome : is_Some (update_table distances angles visible_faces orientations
                             sensor_status sensor_indices)).
  { apply mapM_is_Some_2, Forall_forall. intros i Hi. apply elem_of_seq in Hi.
    destruct (lookup_lt_is_Some_2 sensor_indices i) as [k Hk]; [lia |].
    destruct (Hrows i k Hk) as (row & c & Hrow & _). cbn [compose]. eauto. }
  destruct Hsome as [table Htable]. exists table. split; [exact Htable |].
  apply mapM_Some_1 in Htable.
  pose proof (Forall2_length _ _ _ Htable) as Hlen. rewrite length_seq in Hlen.
  apply Forall2_same_length_lookup_2; [lia |].
  intros i k row Hk Hrow.
  destruct (Forall2_lookup_r _ _ _ _ _ Htable Hrow) as (j & Hj & Hat).
  apply lookup_seq in Hj. destruct Hj as [-> _]. cbn [Nat.add] in Hat.
  destruct (Hrows i k Hk) as (row' & c & Hrow' & Hk6 & Hs & Hp & Hc & Hstat).
  rewrite Hat in Hrow'. injection Hrow' as <-. eauto 10.
Qed.

Lemma rows_of_a_sensor (sensor_indices : list nat)
    (table : list (table_row (T := T))) (k : nat) :
  Forall2 (fun s row => row_sensor row = (s + 1)%nat) sensor_indices table ->
  length (List.filter (fun r => row_sensor r =? k + 1)%nat table)
  = length (List.filter (fun x => x =? k)%nat sensor_indices).
Proof.
  induction 1 as [| s row si table Hrow _ IH]; [reflexivity |].
  cbn [List.filter]. rewrite Hrow.
  destruct (Nat.eqb_spec s k) as [-> | Hne].
  - rewrite Nat.eqb_refl. cbn [length]. rewrite IH. reflexivity.
  - destruct (Nat.eqb_spec (s + 1) (k + 1)) as [E | _]; [lia | exact IH].
Qed.

End OrientationTable.

(** X24: whatever the clock gives, [update_scene] of orientation.py raises
    nothing and fills the table; every row carries a sensor number from 1 to
    6 and the pose of that sensor, and its status is GOOD exactly when that
    sensor has at least five rows in the table. *)
Theorem scene_table_status_counts_rows :
  forall (T : Type) (Sc : Scalar T) (L : Libm T) (clock : nat -> T * T),
  exists table,
    orientation_table.update_scene clock = Some table
    /\ Forall (fun row =>
                 (1 <= orientation_table.row_sensor row <= 6)%nat
                 /\ get_sensor_positions
                      !! (orientation_table.row_sensor row - 1)%nat
                    = Some (orientation_table.row_pose row)
                 /\ (orientation_table.row_status row = orientation_table.GOOD
                     <-> (5 <= length
                                 (List.filter
                                    (fun r => orientation_table.row_sensor r
                                              =? orientation_table.row_sensor row)%nat
                                    table))%nat))
              table.
Proof.
  intros T Sc L clock. unfold orientation_table.update_scene.
  destruct (get_icosahedron (T := T)) as [[vertices faces] |] eqn:Hmesh;
    [| discriminate Hmesh].
  cbn [mbind option_bind].
  destruct (sensors_loop clock vertices faces Hmesh get_sensor_positions []
              ([], [], [], [], [], []))
    as (counts & st & Hloop & Hinv & Hlen).
  { repeat split. }
  { intros i p Hp. exact Hp. }
  unfold enumerate. cbn [length Nat.add] in Hloop, Hlen. rewrite Hloop.
  cbn [mbind option_bind].
  pose proof (update_table_rows counts st Hlen Hinv) as Htable.
  destruct st as [[[[[distances angles] visible_faces] sensor_indices] orientations]
                  sensor_status].
  destruct Htable as (table & -> & Hrows). exists table. split; [reflexivity |].
  destruct Hinv as (Hsi & _).
  assert (Hsensor : Forall2 (fun s row => orientation_table.row_sensor row = (s + 1)%nat)
                            sensor_indices table).
  { eapply Forall2_impl; [exact Hrows |]. cbn beta. intros k row (_ & Hs & _).
    exact Hs. }
  apply Forall_forall. intros row Hrow.
  apply list_elem_of_lookup_1 in Hrow. destruct Hrow as [i Hrow].
  destruct (Forall2_lookup_r _ _ _ _ _ Hrows Hrow)
    as (k & Hk & Hk6 & Hs & Hp & c & Hc & Hstat).
  rewrite Hs. replace (k + 1 - 1)%nat with k by lia.
  split; [lia |]. split; [exact Hp |].
  rewrite (rows_of_a_sensor sensor_indices table k Hsensor), Hsi,
    sensor_blocks_length_filter, Nat.sub_0_r, Hc, Hstat.
  cbn [Nat.leb default]. unfold status_of.
  destruct (Nat.leb_spec 5 c) as [Hge | Hlt]; split; intros E.
  - cbv [Datatypes.id]. exact Hge.
  - reflexivity.
  - discriminate E.
  - exfalso. cbv [Datatypes.id] in E. lia.
Qed.

(** ** The rotation of the frustum *)

Section FrustumRotation.
Local Open Scope R_scope.

Lemma np_dot_normalized (u : Vec3 R) :
  0 < np_dot u u -> np_dot (vdiv u (np_norm u)) (vdiv u (np_norm u)) = 1.
Proof.
  intros Hu. pose proof (np_norm_normalized u Hu) as E.
  unfold np_norm in E at 1. real_ops.
  rewrite <- (sqrt_sqrt (np_dot _ _)) by apply np_dot_self_nonneg.
  rewrite E. lra.
Qed.

Lemma Rleb_false (x y : R) : Rleb x y = false -> y < x.
Proof. unfold Rleb. destruct (Rle_dec x y); [discriminate | lra]. Qed.

Lemma allclose_false_nonzero (v : Vec3 R) :
  np_allclose_0 v = false -> v <> origin.
Proof.
  intros Hclose E. subst v. revert Hclose.
  unfold np_allclose_0, np_isclose_0, origin.
  cbn [vx vy vz fabs fleb R_ScalarOrd]. real_ops.
  assert (Hz : Rleb (Rabs (0 - 0)) (1 / 100000000 + 1 / 100000 * Rabs 0) = true).
  { unfold Rleb. destruct (Rle_dec _ _) as [_ | Hn]; [reflexivity |].
    exfalso. apply Hn. rewrite Rminus_diag, Rabs_R0. lra. }
  rewrite Hz. discriminate.
Qed.

(** The image of the first direction under the matrix of the general
    branch. *)
Lemma general_branch_image (a b : Vec3 R) (q : R) :
  np_dot a a = 1 ->
  let v := np_cross a b in
  let c := np_dot a b in
  let kmat := mkVec3 (mkVec3 0 (- vz v) (vy v)) (mkVec3 (vz v) 0 (- vx v))
                     (mkVec3 (- vy v) (vx v) 0) in
  matvec (madd (madd np_eye kmat) (mdiv (mscale (np_outer v v) (1 - c)) q)) a
  = vadd b (vscale a (1 - c)).
Proof.
  intros Ha v c kmat.
  assert (E1 : np_dot v a = 0).
  { subst v. destruct a as [a1 a2 a3], b as [b1 b2 b3]. vec_ring. ring. }
  assert (E2 : np_cross v a = vsub (vscale b (np_dot a a)) (vscale a c)).
  { subst v c. destruct a as [a1 a2 a3], b as [b1 b2 b3]. vec_ring. f_equal; ring. }
  assert (E3 : matvec (madd (madd np_eye kmat)
                            (mdiv (mscale (np_outer v v) (1 - c)) q)) a
               = vadd (vadd a (np_cross v a))
                      (vscale v (np_dot v a * ((1 - c) * / q)))).
  { subst kmat. clearbody v c. clear. destruct a as [a1 a2 a3], v as [v1 v2 v3].
    unfold matvec, madd, mdiv, mscale, np_outer, np_eye. vec_ring.
    unfold Rdiv. f_equal; ring. }
  rewrite E3, E2, E1, Ha. clearbody c. clear.
  destruct a as [a1 a2 a3], b as [b1 b2 b3]. vec_ring. f_equal; ring.
Qed.

Lemma allclose_origin : np_allclose_0 (origin (T := R)) = true.
Proof.
  destruct (np_allclose_0 (origin (T := R))) eqn:E; [reflexivity |].
  exfalso. exact (allclose_false_nonzero _ E eq_refl).
Qed.

Lemma lagrange_identity (a b : Vec3 R) :
  np_dot (np_cross a b) (np_cross a b)
  = np_dot a a * np_dot b b - np_dot a b * np_dot a b.
Proof. vec_ring. ring. Qed.

Lemma normalize_zero_or_unit (u : Vec3 R) :
  vdiv u (np_norm u) = origin \/ np_dot (vdiv u (np_norm u)) (vdiv u (np_norm u)) = 1.
Proof.
  destruct (Rle_lt_dec (np_dot u u) 0) as [Hle | Hlt];
    [left | right; apply np_dot_normalized, Hlt].
  pose proof (np_dot_self_nonneg u) as Hge.
  assert (E : np_dot u u = 0) by lra.
  unfold np_norm. real_ops. rewrite E, sqrt_0.
  unfold origin. vec_ring. unfold Rdiv. rewrite Rinv_0. f_equal; ring.
Qed.

(** X25: [rotation_matrix_from_vectors] returns the identity when the
    cross product of the two normalized vectors is within the tolerance of
    zero, also when the vectors are opposite.  Otherwise its matrix sends
    the first direction [a] to [b + (1 - a.b) a] and not to the second
    direction [b]: the last term of the formula is built from
    [np.outer(v, v)]. *)
Theorem frustum_rotation_misses_its_target (vec1 vec2 : Vec3 R) :
  vec1 <> origin ->
  let a := vdiv vec1 (np_norm vec1) in
  let b := vdiv vec2 (np_norm vec2) in
  let rot := Viewplanning_frustum.rotation_matrix_from_vectors vec1 vec2 in
  (np_allclose_0 (np_cross a b) = true -> rot = np_eye)
  /\ (np_allclose_0 (np_cross a b) = false ->
      matvec rot a = vadd b (vscale a (1 - np_dot a b)) /\ matvec rot a <> b)
  /\ Viewplanning_frustum.rotation_matrix_from_vectors vec1 (vneg vec1) = np_eye.
Proof.
  intros Hvec a b rot.
  assert (Ha : np_dot a a = 1) by (apply np_dot_normalized, np_dot_self_pos, Hvec).
  split; [| split].
  - intros Hclose. subst rot. unfold Viewplanning_frustum.rotation_matrix_from_vectors.
    fold a b. rewrite Hclose. reflexivity.
  - intros Hclose.
    assert (Himage : matvec rot a = vadd b (vscale a (1 - np_dot a b))).
    { subst rot. unfold Viewplanning_frustum.rotation_matrix_from_vectors.
      fold a b. rewrite Hclose. real_ops.
      apply (general_branch_image a b _ Ha). }
    split; [exact Himage |]. rewrite Himage.
    pose proof (np_dot_self_pos _ (allclose_false_nonzero _ Hclose)) as Hv.
    rewrite lagrange_identity, Ha in Hv.
    assert (Hb : np_dot b b = 1).
    { destruct (normalize_zero_or_unit vec2) as [E | E]; [| exact E].
      fold b in E. rewrite E in Hv. revert Hv. unfold origin. vec_ring. nra. }
    rewrite Hb in Hv. set (c := np_dot a b) in *.
    assert (Hc : 1 - c <> 0) by (intros E; nra).
    intros E. destruct a as [a1 a2 a3], b as [b1 b2 b3].
    revert Ha E. vec_ring. intros Ha E. injection E as E1 E2 E3.
    assert (a1 * (1 - c) = 0) by lra. assert (a2 * (1 - c) = 0) by lra.
    assert (a3 * (1 - c) = 0) by lra.
    assert (a1 = 0) by (apply (Rmult_eq_reg_r (1 - c)); [lra | exact Hc]).
    assert (a2 = 0) by (apply (Rmult_eq_reg_r (1 - c)); [lra | exact Hc]).
    assert (a3 = 0) by (apply (Rmult_eq_reg_r (1 - c)); [lra | exact Hc]).
    subst. lra.
  - unfold Viewplanning_frustum.rotation_matrix_from_vectors.
    rewrite np_norm_vneg. fold a.
    replace (np_cross a (vdiv (vneg vec1) (np_norm vec1))) with (origin (T := R)).
    + rewrite allclose_origin. reflexivity.
    + subst a. unfold origin. vec_ring. unfold Rdiv. f_equal; ring.
Qed.

Lemma frustum_rotation_misses_its_target_witness :
  let a := vdiv (mkVec3 0 0 1) (np_norm (mkVec3 0 0 1)) in
  let b := vdiv (mkVec3 1 0 0) (np_norm (mkVec3 1 0 0)) in
  let rot := Viewplanning_frustum.rotation_matrix_from_vectors
             (mkVec3 0 0 1) (mkVec3 1 0 0) in
  (np_allclose_0 (np_cross a b) = true -> rot = np_eye)
  /\ (np_allclose_0 (np_cross a b) = false ->
      matvec rot a = vadd b (vscale a (1 - np_dot a b)) /\ matvec rot a <> b)
  /\ Viewplanning_frustum.rotation_matrix_from_vectors (mkVec3 0 0 1)
       (vneg (mkVec3 0 0 1)) = np_eye.
Proof.
  apply frustum_rotation_misses_its_target.
  unfold origin. real_ops. intros E. injection E. intros. lra.
Defined.

End FrustumRotation.

(** ** The small scripts *)

Section SmallScripts.
Local Open Scope R_scope.

Lemma rotation_matrix_x_0 : rotation_matrix_x (T := R) 0 = identity3.
Proof.
  unfold rotation_matrix_x. rewrite radians_0. real_ops. rewrite cos_0, sin_0.
  unfold identity3. f_equal; f_equal; ring.
Qed.

Lemma rotation_matrix_z_0 : rotation_matrix_z (T := R) 0 = identity3.
Proof.
  unfold rotation_matrix_z. rewrite radians_0. real_ops. rewrite cos_0, sin_0.
  unfold identity3. f_equal; f_equal; ring.
Qed.

Lemma z_rotations_lookup (sensor_idx : nat) :
  Correctness_of_rotation_matrices.z_rotations (T := R) !! sensor_idx
  = if (sensor_idx <? 6)%nat then Some (rotation_matrix_z 0) else None.
Proof.
  do 6 (destruct sensor_idx as [| sensor_idx]; [reflexivity |]).
  cbn [Nat.ltb Nat.leb]. apply not_elem_of_list_to_map_1.
  cbn. intros Hin. repeat (apply elem_of_cons in Hin; destruct Hin as [E | Hin];
                           [discriminate E |]).
  apply elem_of_nil in Hin. exact Hin.
Qed.

(** X26: in Correctness_of_rotation_matrices.py the rotation of every
    sensor index is the identity, for an index of the dictionary (all Z
    angles are 0) and for an unknown index (the default [np.eye(3)]); the
    transformed unit vector is (1, 0, 0). *)
Theorem correctness_script_rotations_are_identity (sensor_idx : nat) :
  Correctness_of_rotation_matrices.get_sensor_rotation (T := R) sensor_idx = np_eye
  /\ Correctness_of_rotation_matrices.test_rotation_matrix (T := R) sensor_idx
     = mkVec3 1 0 0.
Proof.
  assert (E : Correctness_of_rotation_matrices.get_sensor_rotation (T := R) sensor_idx
              = identity3).
  { unfold Correctness_of_rotation_matrices.get_sensor_rotation,
      Correctness_of_rotation_matrices.rotation_x.
    rewrite z_rotations_lookup.
    change (@of_Z R R_Scalar 0) with 0. rewrite rotation_matrix_x_0.
    destruct (sensor_idx <? 6)%nat; cbn [default];
      [rewrite rotation_matrix_z_0 |]; apply matmul_identity_l. }
  split; [exact E |].
  unfold Correctness_of_rotation_matrices.test_rotation_matrix. rewrite E.
  apply matvec_identity.
Qed.

(** X27: [get_sensor_rotation] of Data_optimization_check.py returns the
    identity for sensor 0, ignoring the configured angles; for an index from
    1 to 5 it returns [rotation_x @ rotation_z] with the Z angle of that
    index, and the dictionary lookup never fails; for an index of 6 or more
    it raises ValueError. *)
Theorem data_check_rotation_lookup :
  forall (T : Type) (Sc : Scalar T) (L : Libm T),
    Data_optimization_check.get_sensor_rotation 0 = inl np_eye
    /\ (forall sensor_idx : nat,
           (0 < sensor_idx < 6)%nat ->
           exists z,
             Data_optimization_check.z_rotations !! sensor_idx = Some z
             /\ Data_optimization_check.get_sensor_rotation sensor_idx
                = inl (matmul (rotation_matrix_x (of_Z 42)) (rotation_matrix_z z)))
    /\ (forall sensor_idx : nat,
           (6 <= sensor_idx)%nat ->
           Data_optimization_check.get_sensor_rotation sensor_idx = inr ValueError).
Proof.
  intros T Sc L. split; [reflexivity |]. split.
  - intros sensor_idx [Hlo Hhi].
    do 6 (destruct sensor_idx as [| sensor_idx]; [eexists; split; reflexivity || lia |]).
    lia.
  - intros sensor_idx Hge. unfold Data_optimization_check.get_sensor_rotation.
    destruct (Nat.eqb_spec sensor_idx 0) as [-> | _]; [lia |].
    destruct (Nat.ltb_spec sensor_idx (length (Data_optimization_check.z_rotations (T := T))))
      as [Hlt | _]; [| reflexivity].
    cbn [Data_optimization_check.z_rotations length] in Hlt. lia.
Qed.

Lemma radians_quarter (a : R) :
  - 90 < a < 90 -> - (PI / 2) < np_radians a < PI / 2.
Proof.
  intros [Hlo Hhi]. pose proof PI_RGT_0 as Hpi.
  assert (Hk : 0 < PI / 180) by lra.
  rewrite <- radians_90 at 2. rewrite <- radians_neg_90.
  unfold np_radians. real_ops.
  split; apply Rmult_lt_compat_r; assumption.
Qed.

Lemma cos_radians_pos (a : R) : - 90 < a < 90 -> 0 < cos (np_radians a).
Proof. intros Ha. apply cos_gt_0; apply radians_quarter, Ha. Qed.

(** X28: with the product [rotation_x @ rotation_z] of
    Data_optimization_check.py the extraction does not give the X angle
    back as alpha: for a Z angle of 90 degrees it returns (0, -a, 90), and
    for 180 degrees it returns (-a, 0, 180), for an X angle [a] in
    (-90, 90). *)
Theorem x_then_z_reads_the_tilt_as_pitch (a : R) :
  - 90 < a < 90 ->
  Data_optimization_check.rotation_matrix_to_euler_angles
    (matmul (rotation_matrix_x a) (rotation_matrix_z 90))
  = mkVec3 0 (- a) 90
  /\ Data_optimization_check.rotation_matrix_to_euler_angles
       (matmul (rotation_matrix_x a) (rotation_matrix_z 180))
     = mkVec3 (- a) 0 180.
Proof.
  intros Ha. pose proof (cos_radians_pos a Ha) as Hc. pose proof PI_RGT_0 as Hpi.
  pose proof (radians_quarter a Ha) as Hr.
  assert (Hback : np_degrees (- np_radians a) = - a)
    by (rewrite degrees_opp, degrees_radians; reflexivity).
  unfold Data_optimization_check.rotation_matrix_to_euler_angles,
    rotation_matrix_x, rotation_matrix_z, matmul, mrow_mul, mcol, np_dot.
  rewrite radians_90, radians_180. real_ops.
  rewrite cos_PI2, sin_PI2, cos_PI, sin_PI. cbn [vx vy vz].
  set (t := np_radians a) in *. split; f_equal.
  - rewrite Ratan2_zero_pos; [apply degrees_0 | ring | lra].
  - rewrite <- Hback. f_equal.
    replace (R_sqrt.sqrt _) with (cos (- t)).
    + replace (- (0 * 0 + sin t * 1 + cos t * 0)) with (sin (- t))
        by (rewrite sin_neg; ring).
      apply Ratan2_unit. lra.
    + rewrite cos_neg. symmetry.
      match goal with |- R_sqrt.sqrt ?e = _ => replace e with (cos t * cos t) by ring end.
      apply sqrt_square. lra.
  - rewrite <- degrees_half_PI. f_equal.
    match goal with |- Ratan2 ?y ?x = _ =>
      replace x with 0 by ring; replace y with (cos t) by ring end.
    apply Ratan2_pos_0, Hc.
  - rewrite <- Hback. f_equal.
    match goal with |- Ratan2 ?y ?x = _ =>
      replace x with (cos (- t)) by (rewrite cos_neg; ring);
      replace y with (sin (- t)) by (rewrite sin_neg; ring) end.
    apply Ratan2_unit. lra.
  - transitivity (np_degrees 0); [f_equal | apply degrees_0].
    match goal with |- context [R_sqrt.sqrt ?e] =>
      replace e with (cos t * cos t + sin t * sin t) by ring end.
    rewrite cos2_sin2, sqrt_1. apply Ratan2_zero_pos; [ring | lra].
  - rewrite <- degrees_PI. f_equal.
    apply Ratan2_zero_neg; [ring | lra].
Qed.

Lemma x_then_z_reads_the_tilt_as_pitch_witness :
  Data_optimization_check.rotation_matrix_to_euler_angles
    (matmul (rotation_matrix_x 42) (rotation_matrix_z 90))
  = mkVec3 0 (- 42) 90
  /\ Data_optimization_check.rotation_matrix_to_euler_angles
       (matmul (rotation_matrix_x 42) (rotation_matrix_z 180))
     = mkVec3 (- 42) 0 180.
Proof. apply x_then_z_reads_the_tilt_as_pitch. lra. Defined.

(** X29: [rotate_vector] of data_metrics.py keeps the norm of the
    vector; the two dashed lines of [draw_angle_indicators] have length 10
    and enclose the angle [fov_max - fov_min]. *)
Theorem angle_indicators_have_length_ten (sensor_position : Vec3 R)
    (fov_min fov_max : R) :
  (forall (vector : Vec3 R) (angle : R),
      np_norm (data_metrics.rotate_vector vector angle) = np_norm vector)
  /\ let ends := data_metrics.draw_angle_indicators sensor_position fov_min fov_max in
     np_norm (vsub (fst ends) sensor_position) = 10
     /\ np_norm (vsub (snd ends) sensor_position) = 10
     /\ np_dot (vsub (fst ends) sensor_position) (vsub (snd ends) sensor_position)
        = 100 * cos (np_radians (fov_max - fov_min)).
Proof.
  split.
  - intros vector angle. unfold data_metrics.rotate_vector. real_ops.
    apply orthogonal_np_norm, axis_matrix_y_rotation, cos2_sin2.
  - unfold data_metrics.draw_angle_indicators, data_metrics.rotate_vector.
    cbn [fst snd]. unfold matvec, np_norm. rewrite radians_minus, cos_minus.
    vec_ring.
    set (t1 := np_radians fov_min). set (t2 := np_radians fov_max).
    pose proof (cos2_sin2 t1) as E1. pose proof (cos2_sin2 t2) as E2.
    assert (H10 : R_sqrt.sqrt (100 * 1) = 10).
    { replace (100 * 1) with (10 * 10) by ring. apply sqrt_square. lra. }
    split; [| split].
    + match goal with |- R_sqrt.sqrt ?e = 10 =>
        replace e with (100 * (cos t1 * cos t1 + sin t1 * sin t1)) by ring end.
      rewrite E1. exact H10.
    + match goal with |- R_sqrt.sqrt ?e = 10 =>
        replace e with (100 * (cos t2 * cos t2 + sin t2 * sin t2)) by ring end.
      rewrite E2. exact H10.
    + ring.
Qed.

(** X30: the dashed line of [draw_view_frustum] of Six_camera.py has
    length 6 when the sensor is not at the point it looks at; for the six
    sensors of the rig, which look at the centre from distance 8, it ends
    at a quarter of the sensor position. *)
Theorem frustum_line_has_length_six (sensor_position look_at : Vec3 R) :
  vsub look_at sensor_position <> origin ->
  np_norm (vsub (Six_camera_frustum.draw_view_frustum sensor_position look_at)
                sensor_position) = 6
  /\ Forall (fun s => Six_camera_frustum.draw_view_frustum s origin
                      = vscale s (1 / 4))
            get_sensor_positions.
Proof.
  intros Hne. split.
  - unfold Six_camera_frustum.draw_view_frustum.
    set (d := vsub look_at sensor_position) in *.
    pose proof (np_dot_normalized d (np_dot_self_pos d Hne)) as Hu.
    set (u := vdiv d (np_norm d)) in *. unfold np_norm. real_ops.
    replace (np_dot (vsub (vadd sensor_position (vscale u 6)) sensor_position)
                    (vsub (vadd sensor_position (vscale u 6)) sensor_position))
      with (6 * 6).
    + apply sqrt_square. lra.
    + transitivity (36 * np_dot u u); [rewrite Hu; lra |]. vec_ring. ring.
  - assert (H8 : R_sqrt.sqrt 64 = 8).
    { replace 64 with (8 * 8) by lra. apply sqrt_square. lra. }
    unfold get_sensor_positions.
    repeat (apply Forall_cons; split; [| ]); try apply Forall_nil; trivial;
      unfold Six_camera_frustum.draw_view_frustum, np_norm, origin; vec_ring;
      match goal with
      | |- context [R_sqrt.sqrt ?e] => replace e with 64 by lra
      end; rewrite H8; f_equal; lra.
Qed.

Lemma frustum_line_has_length_six_witness :
  np_norm (vsub (Six_camera_frustum.draw_view_frustum (mkVec3 8 0 0) origin)
                (mkVec3 8 0 0)) = 6
  /\ Forall (fun s => Six_camera_frustum.draw_view_frustum s origin
                      = vscale s (1 / 4))
            get_sensor_positions.
Proof.
  apply frustum_line_has_length_six.
  unfold origin. vec_ring. intros E. injection E. intros. lra.
Defined.

End SmallScripts.
